(** * The ledger state engine of goshimmer: realities and transfer booking

    A shallow embedding of [packages/ledgerstate/reality.go].  The three
    object stores of the ledger state become finite maps, a pointer to a
    cached object becomes the key under which the object is stored, and the
    methods of [Reality] become functions over an explicit ledger state.
    Calls that panic in Go ([GetParentRealities] on a missing parent, a type
    assertion on the nil object of a handle that does not exist) and
    recursions that need not terminate are visible in the result type.

    Go ranges over a map in no fixed order.  A map whose iteration order can
    matter (the outputs of a transfer, the consumers of an output) is a list
    of its entries in the order of the iteration, so that a statement about
    every list is a statement about every order.  A set of ids is a [gset];
    where the code ranges over one ([GetParentRealities]) the outcome does
    not depend on the order. *)

From Stdlib Require Import ZArith Lia List.
From stdpp Require Import gmap list fin_maps strings.

(** ** Identifiers *)

(** Modelled from the spec: section 3, every id is an opaque fixed-length
    (32-byte) byte string; the types are declared outside reality.go.  An
    id is read here as the number its bytes spell. *)
Definition RealityId := N.
Definition TransferHash := N.
Definition AddressHash := N.
Definition ConflictId := N.
Definition Color := N.

(** Modelled from the spec: an input of a transfer is a
    (TransferHash, AddressHash) reference (section 4.E). *)
Definition TransferOutputReference : Type := TransferHash * AddressHash.
Definition NewTransferOutputReference (transferHash : TransferHash)
    (addressHash : AddressHash) : TransferOutputReference :=
  (transferHash, addressHash).

(** Modelled from the spec: section 4.E, step 3, the reality id of a
    transfer is its hash, cast; [bookTransfer] does the same by copying the
    bytes (line 179). *)
Definition ToRealityId (transferHash : TransferHash) : RealityId := transferHash.

(** ** Machine integers *)

Definition wrap32 (z : Z) : Z := (z mod 2 ^ 32)%Z.
Definition wrap64 (z : Z) : Z := (z mod 2 ^ 64)%Z.

(** [^uint32(x)]: the bitwise complement on 32 bits. *)
Definition uint32_not (x : Z) : Z := Z.lxor x (2 ^ 32 - 1).

(** ** Entities *)

(** Modelled from the spec: the colored balance of section 3, a
    [(Color, uint64)] pair read through [GetColor] and [GetValue]; its
    declaration is not part of reality.go. *)
Record ColoredBalance := mkColoredBalance {
  GetColor : Color;
  GetValue : Z          (* uint64 *)
}.

(** Modelled from the spec: the transfer output of section 3 (owning
    reality, transfer hash, address hash, balances, consumers); its
    declaration is not part of reality.go. *)
Record TransferOutput := mkTransferOutput {
  transferHash : TransferHash;
  addressHash : AddressHash;
  realityId : RealityId;
  balances : list ColoredBalance;
  (* map[TransferHash][]AddressHash, listed in iteration order *)
  consumers : list (TransferHash * list AddressHash)
}.

(** The struct of reality.go, without its mutexes, its storage key (a copy
    of [id]) and its pointer to the ledger state. *)
Record Reality := mkReality {
  id : RealityId;
  parentRealityIds : gset RealityId;
  conflictIds : gset ConflictId;
  transferOutputCount : Z     (* uint32 *)
}.

(** Modelled from the spec: the conflict set of section 3 and 4.C, whose
    declaration is not part of reality.go: a [ConflictId] and the set of
    realities that have booked a spend of the contested output. *)
Record Conflict := mkConflict {
  conflict_id : ConflictId;
  conflict_realities : gset RealityId
}.

(** Modelled from the spec: the key of the bookings index (section 3). *)
Definition TransferOutputBooking : Type :=
  RealityId * AddressHash * bool * TransferHash.

(** Modelled from the spec: the ledger state of section 2 (component E)
    with its three object stores and the bookings index, and the object
    store of section 4.A: [Store(obj)] puts the object under its storage
    key, [Load(id)] returns a handle that may not exist, [Delete(id)]
    removes the key, [Consume(fn)] invokes [fn] on the object.  Neither is
    declared in reality.go. *)
Record LedgerState := mkLedgerState {
  realities : gmap RealityId Reality;
  conflictSets : gmap ConflictId Conflict;
  transferOutputs : gmap TransferOutputReference TransferOutput;
  transferOutputBookings : gset TransferOutputBooking
}.

Definition set_realities (f : gmap RealityId Reality → gmap RealityId Reality)
    (st : LedgerState) : LedgerState :=
  mkLedgerState (f (realities st)) (conflictSets st) (transferOutputs st)
    (transferOutputBookings st).

Definition set_conflictSets (f : gmap ConflictId Conflict → gmap ConflictId Conflict)
    (st : LedgerState) : LedgerState :=
  mkLedgerState (realities st) (f (conflictSets st)) (transferOutputs st)
    (transferOutputBookings st).

Definition set_transferOutputs
    (f : gmap TransferOutputReference TransferOutput →
         gmap TransferOutputReference TransferOutput)
    (st : LedgerState) : LedgerState :=
  mkLedgerState (realities st) (conflictSets st) (f (transferOutputs st))
    (transferOutputBookings st).

Definition set_transferOutputBookings
    (f : gset TransferOutputBooking → gset TransferOutputBooking)
    (st : LedgerState) : LedgerState :=
  mkLedgerState (realities st) (conflictSets st) (transferOutputs st)
    (f (transferOutputBookings st)).

(** ** Results

    [Err] is an error value returned to the caller, [Panic] a Go panic,
    [OutOfFuel] a recursion cut off by the fuel of the model. *)

Inductive Error :=
  | ErrMissingInput          (* "missing input in transfer" *)
  | ErrInputNotInReality     (* "the referenced funds do not exist in this reality" *)
  | ErrUnbalancedTransfer    (* "the sum of the balance changes is not 0" *)
  | ErrElevate.              (* "could not find TransferOutput to elevate" *)

Inductive Res (A : Type) :=
  | Ok (a : A)
  | Err (e : Error)
  | Panic
  | OutOfFuel.
Arguments Ok {A} a.
Arguments Err {A} e.
Arguments Panic {A}.
Arguments OutOfFuel {A}.

(** A computation on the ledger state; the state reached is returned also
    with an error, since nothing is rolled back. *)
Definition M (A : Type) : Type := LedgerState → Res A * LedgerState.

Definition ret {A} (a : A) : M A := fun st => (Ok a, st).
Definition throw {A} (e : Error) : M A := fun st => (Err e, st).
Definition panic {A} : M A := fun st => (Panic, st).

Definition bind {A B} (m : M A) (k : A → M B) : M B := fun st =>
  match m st with
  | (Ok a, st') => k a st'
  | (Err e, st') => (Err e, st')
  | (Panic, st') => (Panic, st')
  | (OutOfFuel, st') => (OutOfFuel, st')
  end.

Definition modify (f : LedgerState → LedgerState) : M unit :=
  fun st => (Ok tt, f st).

Notation "'let*' x := m 'in' k" := (bind m (fun x => k))
  (at level 10, x name, m at level 100, k at level 200, only parsing).
Notation "m ;; k" := (bind m (fun _ => k))
  (at level 100, k at level 200, right associativity, only parsing).

(** ** Reality: construction, counters and ancestry *)

Definition newReality (id : RealityId) (parentRealities : gset RealityId) : Reality :=
  mkReality id parentRealities ∅ 0.

Definition GetTransferOutputCount (reality : Reality) : Z :=
  transferOutputCount reality.

(** [atomic.AddUint32(&count, 1)]: the new count, and the reality holding it. *)
Definition IncreaseTransferOutputCount (reality : Reality) : Z * Reality :=
  let n := wrap32 (transferOutputCount reality + 1) in
  (n, mkReality (id reality) (parentRealityIds reality) (conflictIds reality) n).

(** [atomic.AddUint32(&count, ^uint32(0))]. *)
Definition DecreaseTransferOutputCount (reality : Reality) : Z * Reality :=
  let n := wrap32 (transferOutputCount reality + uint32_not 0) in
  (n, mkReality (id reality) (parentRealityIds reality) (conflictIds reality) n).

Definition IsAggregated (reality : Reality) : bool :=
  bool_decide (1 < size (parentRealityIds reality)).

Definition SetParentRealityIds (parentRealityIds : gset RealityId)
    (reality : Reality) : Reality :=
  mkReality (id reality) parentRealityIds (conflictIds reality)
    (transferOutputCount reality).

Definition AddConflictSet (conflictSetId : ConflictId) (reality : Reality) : Reality :=
  mkReality (id reality) (parentRealityIds reality)
    ({[conflictSetId]} ∪ conflictIds reality) (transferOutputCount reality).

(** The loop of [GetParentRealities] over the parent ids: a parent that
    cannot be loaded is a panic; a loaded parent is filed under its own id. *)
Fixpoint loadParentRealities (st : LedgerState) (parentIds : list RealityId)
    (parentRealities : gmap RealityId Reality) : Res (gmap RealityId Reality) :=
  match parentIds with
  | [] => Ok parentRealities
  | parentRealityId :: rest =>
      match realities st !! parentRealityId with
      | None => Panic
      | Some loadedParentReality =>
          loadParentRealities st rest
            (<[id loadedParentReality := loadedParentReality]> parentRealities)
      end
  end.

Definition GetParentRealities (st : LedgerState) (reality : Reality)
    : Res (gmap RealityId Reality) :=
  loadParentRealities st (elements (parentRealityIds reality)) ∅.

(** One turn of the outer loop of [GetAncestorRealities]: the parent, then
    every ancestor of the parent, is written into [result]. *)
Definition addAncestors (ancestorsOf : Reality → Res (gmap RealityId Reality))
    (result : Res (gmap RealityId Reality)) (entry : RealityId * Reality)
    : Res (gmap RealityId Reality) :=
  match result with
  | Ok result =>
      match ancestorsOf (snd entry) with
      | Ok ancestors => Ok (ancestors ∪ <[fst entry := snd entry]> result)
      | Err e => Err e
      | Panic => Panic
      | OutOfFuel => OutOfFuel
      end
  | other => other
  end.

Fixpoint GetAncestorRealities (fuel : nat) (st : LedgerState) (reality : Reality)
    : Res (gmap RealityId Reality) :=
  match fuel with
  | O => OutOfFuel
  | S fuel' =>
      match GetParentRealities st reality with
      | Ok parentRealities =>
          foldl (addAncestors (GetAncestorRealities fuel' st)) (Ok ∅)
            (map_to_list parentRealities)
      | other => other
      end
  end.

Definition DescendsFrom (fuel : nat) (st : LedgerState) (reality : Reality)
    (realityId : RealityId) : Res bool :=
  if decide (id reality = realityId) then Ok true
  else
    match GetAncestorRealities fuel st reality with
    | Ok ancestors =>
        Ok (foldl (fun descendsFromReality ancestorRealityId =>
                     if decide (ancestorRealityId = realityId) then true
                     else descendsFromReality)
              false (map fst (map_to_list ancestors)))
    | Err e => Err e
    | Panic => Panic
    | OutOfFuel => OutOfFuel
    end.

(** ** Verification of a transfer *)

(** [totalColoredBalances[color] += value] *)
Definition addBalance (totalColoredBalances : gmap Color Z) (balance : ColoredBalance)
    : gmap Color Z :=
  <[GetColor balance :=
      wrap64 (default 0%Z (totalColoredBalances !! GetColor balance) + GetValue balance)]>
    totalColoredBalances.

(** [totalColoredBalances[color] -= value], and the entry is deleted when it
    has become 0. *)
Definition subBalance (totalColoredBalances : gmap Color Z) (balance : ColoredBalance)
    : gmap Color Z :=
  let color := GetColor balance in
  let total :=
    wrap64 (default 0%Z (totalColoredBalances !! color) - GetValue balance) in
  if decide (total = 0%Z) then delete color totalColoredBalances
  else <[color := total]> totalColoredBalances.

(** The first loop of [verifyTransfer]: every input handle must exist and
    lie in a reality this one descends from. *)
Fixpoint verifyInputs (fuel : nat) (st : LedgerState) (reality : Reality)
    (inputs : list TransferOutputReference) (totalColoredBalances : gmap Color Z)
    : Res (gmap Color Z) :=
  match inputs with
  | [] => Ok totalColoredBalances
  | cachedInput :: rest =>
      match transferOutputs st !! cachedInput with
      | None => Err ErrMissingInput
      | Some transferOutput =>
          match DescendsFrom fuel st reality (realityId transferOutput) with
          | Ok true =>
              verifyInputs fuel st reality rest
                (foldl addBalance totalColoredBalances (balances transferOutput))
          | Ok false => Err ErrInputNotInReality
          | Err e => Err e
          | Panic => Panic
          | OutOfFuel => OutOfFuel
          end
      end
  end.

Definition subOutputs (totalColoredBalances : gmap Color Z)
    (outputs : list (AddressHash * list ColoredBalance)) : gmap Color Z :=
  foldl (fun total transferOutput => foldl subBalance total (snd transferOutput))
    totalColoredBalances outputs.

Definition verifyTransfer (fuel : nat) (st : LedgerState) (reality : Reality)
    (inputs : list TransferOutputReference)
    (outputs : list (AddressHash * list ColoredBalance)) : Res unit :=
  match verifyInputs fuel st reality inputs ∅ with
  | Ok totalColoredBalances =>
      if decide (size (subOutputs totalColoredBalances outputs) ≠ 0)
      then Err ErrUnbalancedTransfer
      else Ok tt
  | Err e => Err e
  | Panic => Panic
  | OutOfFuel => OutOfFuel
  end.

(** ** Booking

    A reality is stored under its id ([newReality] copies the id into the
    storage key), so a pointer to a stored reality is the id, and a pointer
    to a stored transfer output or conflict set is its storage key.  A
    mutation through a pointer is a mutation of the store at that key; on a
    key that is absent it changes an object the store no longer holds. *)

Section Booking.

(** Declared outside reality.go and taken as parameters: the sentinel of an
    output that was never booked, the hash that derives the id of a conflict
    set from the contested output, and the hash that derives the id of an
    aggregated reality from its parent set (section 3 and 4.F). *)
Variable emptyRealityId : RealityId.
Variable NewConflictSetId : TransferHash → AddressHash → ConflictId.
Variable aggregatedRealityId : gset RealityId → RealityId.

(** Declared outside reality.go and taken as a parameter: [addConsumer] of
    the transfer output (section 4.B).  It returns the output as the call
    has mutated it, and the consumers to elevate: [None] for the nil map of
    a first consumer. *)
Variable addConsumer :
  TransferOutput → TransferHash → list (AddressHash * list ColoredBalance) →
  TransferOutput * option (list (TransferHash * list AddressHash)).

(** Modelled from the spec: [GetReality] and [GetTransferOutput] of section
    6 load a handle from the store; [None] is a handle that does not exist. *)
Definition GetReality (realityId : RealityId) (st : LedgerState) : option Reality :=
  realities st !! realityId.

Definition GetTransferOutput (transferOutputReference : TransferOutputReference)
    (st : LedgerState) : option TransferOutput :=
  transferOutputs st !! transferOutputReference.

(** [CreateReality] stores [newReality(id, reality.id)]; the handle it
    returns is the id.  [Store] is declared outside reality.go; under an id
    that is already stored it is read here as replacing the stored reality,
    which matters only where a reality is created under an id in use. *)
Definition CreateReality (reality : RealityId) (id : RealityId) : M RealityId :=
  fun st => (Ok id, set_realities (insert id (newReality id {[reality]})) st).

(** Modelled from the spec: the constructor and the setter of the transfer
    output (section 4.B); a new output has no consumers. *)
Definition NewTransferOutput (realityId : RealityId) (transferHash : TransferHash)
    (addressHash : AddressHash) (coloredBalances : list ColoredBalance)
    : TransferOutput :=
  mkTransferOutput transferHash addressHash realityId coloredBalances [].

(** Modelled from the spec: [SetRealityId] of the transfer output; only
    the reality id and the consumers of an output mutate (section 3). *)
Definition SetRealityId (realityId : RealityId) (transferOutput : TransferOutput)
    : TransferOutput :=
  mkTransferOutput (transferHash transferOutput) (addressHash transferOutput)
    realityId (balances transferOutput) (consumers transferOutput).

(** Modelled from the spec: section 6, a transfer output is stored under
    TransferHash ‖ AddressHash. *)
Definition storageKey (transferOutput : TransferOutput) : TransferOutputReference :=
  (transferHash transferOutput, addressHash transferOutput).

(** Modelled from the spec: [storeTransferOutput] of the ledger state
    stores the output under its key (section 4.E, bookTransferOutput,
    step 1: assign current reality id, store). *)
Definition storeTransferOutput (transferOutput : TransferOutput)
    (st : LedgerState) : LedgerState :=
  set_transferOutputs (insert (storageKey transferOutput) transferOutput) st.

(** Modelled from the spec: a booking, and the storage key generated for
    it, is the tuple (RealityId, AddressHash, spentFlag, TransferHash) of
    section 3; its presence in the index is the datum. *)
Definition newTransferOutputBooking (realityId : RealityId)
    (addressHash : AddressHash) (spent : bool) (transferHash : TransferHash)
    : TransferOutputBooking :=
  (realityId, addressHash, spent, transferHash).

(** Modelled from the spec: [storeTransferOutputBooking] inserts the entry
    into the bookings index. *)
Definition storeTransferOutputBooking (booking : TransferOutputBooking)
    (st : LedgerState) : LedgerState :=
  set_transferOutputBookings (fun bookings => {[booking]} ∪ bookings) st.

(** The closure of line 401: the old reality loses one output and is
    deleted when its count has become 0. *)
Definition releaseOldReality (transferOutputRealityId : RealityId) : M unit :=
  fun st =>
    match GetReality transferOutputRealityId st with
    | None => (Panic, st)
    | Some object =>
        let '(count, object') := DecreaseTransferOutputCount object in
        let st' := set_realities (insert transferOutputRealityId object') st in
        if decide (count = 0%Z)
        then (Ok tt, set_realities (delete transferOutputRealityId) st')
        else (Ok tt, st')
    end.

Definition bookTransferOutput (reality : RealityId) (transferOutput : TransferOutput)
    : M unit :=
  let realityId' := reality in
  let transferOutputRealityId := realityId transferOutput in
  let transferOutputAddressHash := addressHash transferOutput in
  let transferOutputSpent := bool_decide (1 ≤ length (consumers transferOutput)) in
  let transferOutputTransferHash := transferHash transferOutput in
  (if decide (transferOutputRealityId = emptyRealityId) then
     modify (storeTransferOutput (SetRealityId realityId' transferOutput))
   else if decide (transferOutputRealityId ≠ realityId') then
     modify (set_transferOutputs
               (alter (SetRealityId realityId') (storageKey transferOutput))) ;;
     releaseOldReality transferOutputRealityId ;;
     modify (set_transferOutputBookings (fun bookings =>
               bookings ∖ {[newTransferOutputBooking transferOutputRealityId
                              transferOutputAddressHash
                              (bool_decide (1 ≤ length (consumers transferOutput)))
                              (transferHash transferOutput)]}))
   else ret tt) ;;
  (if decide (transferOutputRealityId ≠ realityId') then
     modify (storeTransferOutputBooking
               (newTransferOutputBooking realityId' transferOutputAddressHash
                  transferOutputSpent transferOutputTransferHash)) ;;
     modify (set_realities
               (alter (fun r => snd (IncreaseTransferOutputCount r)) realityId'))
   else ret tt).

(** A loop that returns at the first error. *)
Fixpoint forEach {A} (f : A → M unit) (l : list A) : M unit :=
  match l with
  | [] => ret tt
  | a :: l' => f a ;; forEach f l'
  end.

(** Modelled from the spec: [AggregateRealities] of section 4.F.  One
    parent short-circuits to that parent; otherwise the id is the hash of
    the parent set, the existing reality is returned if present, and else
    it is created with those parents and no conflict ids. *)
Definition AggregateRealities (parentRealities : gset RealityId) : M RealityId :=
  fun st =>
    match elements parentRealities with
    | [parent] => (Ok parent, st)
    | _ =>
        let aggregatedId := aggregatedRealityId parentRealities in
        match GetReality aggregatedId st with
        | Some _ => (Ok aggregatedId, st)
        | None =>
            (Ok aggregatedId,
             set_realities
               (insert aggregatedId (newReality aggregatedId parentRealities)) st)
        end
    end.

(** The three elevation methods call each other; [elevate] stands for
    [elevateTransferOutput] one level of recursion further down. *)
Section Elevation.
Variable elevate : RealityId → TransferOutputReference → RealityId → M unit.

Definition elevateTransferOutputOfCurrentReality (reality : RealityId)
    (transferOutput : TransferOutput) (newReality : RealityId) : M unit :=
  bookTransferOutput newReality transferOutput ;;
  forEach (fun consumer : TransferHash * list AddressHash =>
             forEach (fun addressHash =>
                        elevate reality
                          (NewTransferOutputReference (fst consumer) addressHash)
                          newReality)
               (snd consumer))
    (consumers transferOutput).

(** [reality] is the nested reality as it was loaded, stored under
    [realityKey]. *)
Definition elevateTransferOutputOfNestedReality (realityKey : RealityId)
    (reality : Reality) (transferOutput : TransferOutput)
    (oldParentRealityId newParentRealityId : RealityId) : M unit :=
  if negb (IsAggregated reality) then
    modify (set_realities
              (alter (fun r => SetParentRealityIds
                                 ((parentRealityIds r ∖ {[oldParentRealityId]})
                                    ∪ {[newParentRealityId]}) r)
                 realityKey))
  else
    let newParentRealities :=
      (parentRealityIds reality ∖ {[oldParentRealityId]})
        ∪ {[newParentRealityId]} in
    let* aggregated := AggregateRealities newParentRealities in
    fun st =>
      match GetReality aggregated st with
      | None => (Panic, st)
      | Some _ =>
          elevateTransferOutputOfCurrentReality realityKey transferOutput
            aggregated st
      end.
End Elevation.

Fixpoint elevateTransferOutput (fuel : nat) (reality : RealityId)
    (transferOutputReference : TransferOutputReference) (newReality : RealityId)
    : M unit :=
  match fuel with
  | O => fun st => (OutOfFuel, st)
  | S fuel' => fun st =>
      match GetTransferOutput transferOutputReference st with
      | None => (Err ErrElevate, st)
      | Some transferOutputToElevate =>
          if decide (realityId transferOutputToElevate = reality) then
            elevateTransferOutputOfCurrentReality (elevateTransferOutput fuel')
              reality transferOutputToElevate newReality st
          else
            match GetReality (realityId transferOutputToElevate) st with
            | None => (Panic, st)
            | Some nestedReality =>
                elevateTransferOutputOfNestedReality (elevateTransferOutput fuel')
                  (realityId transferOutputToElevate) nestedReality
                  transferOutputToElevate reality newReality st
            end
      end
  end.

(** Modelled from the spec: [newConflictSet] and [AddReality] of the
    conflict set (section 4.C: created with its [ConflictId], exposes an
    idempotent [AddReality]). *)
Definition newConflictSet (conflictSetId : ConflictId) : Conflict :=
  mkConflict conflictSetId ∅.

(** Modelled from the spec: [AddReality] of section 4.C adds the reality to
    the set; adding it twice changes nothing. *)
Definition AddReality (realityId : RealityId) (conflictSet : Conflict) : Conflict :=
  mkConflict (conflict_id conflictSet) ({[realityId]} ∪ conflict_realities conflictSet).

(** The inner loop of [createRealityForConflictingConsumers] (line 311):
    every call assigns the shared variable [err], and the closure returns
    at the first call that fails; the value of [err] is what is returned. *)
Fixpoint elevateAddresses (elevate : RealityId → TransferOutputReference → RealityId → M unit)
    (reality : RealityId) (transferHash : TransferHash)
    (addressHashes : list AddressHash) (elevatedReality : RealityId)
    (err : option Error) : M (option Error) :=
  match addressHashes with
  | [] => ret err
  | addressHash :: rest => fun st =>
      match elevate reality (NewTransferOutputReference transferHash addressHash)
              elevatedReality st with
      | (Ok _, st') =>
          elevateAddresses elevate reality transferHash rest elevatedReality None st'
      | (Err e, st') => (Ok (Some e), st')
      | (Panic, st') => (Panic, st')
      | (OutOfFuel, st') => (OutOfFuel, st')
      end
  end.

(** The outer loop goes on with the next consumer whatever [err] holds. *)
Fixpoint createRealityForConflictingConsumers
    (elevate : RealityId → TransferOutputReference → RealityId → M unit)
    (reality : RealityId)
    (conflictingConsumers : list (TransferHash * list AddressHash))
    (conflictSet : ConflictId) (err : option Error) : M (option Error) :=
  match conflictingConsumers with
  | [] => ret err
  | (transferHash, addressHashes) :: rest =>
      let elevatedRealityId := ToRealityId transferHash in
      let* elevatedReality := CreateReality reality elevatedRealityId in
      modify (set_conflictSets (alter (AddReality elevatedRealityId) conflictSet)) ;;
      modify (set_realities (alter (AddConflictSet conflictSet) elevatedReality)) ;;
      let* err' := elevateAddresses elevate reality transferHash addressHashes
                     elevatedReality err in
      createRealityForConflictingConsumers elevate reality rest conflictSet err'
  end.

Definition retrieveConflictSetForConflictingInput
    (elevate : RealityId → TransferOutputReference → RealityId → M unit)
    (reality : RealityId) (input : TransferOutput)
    (consumersToElevate : list (TransferHash * list AddressHash)) : M ConflictId :=
  let conflictSetId := NewConflictSetId (transferHash input) (addressHash input) in
  if bool_decide (1 ≤ length consumersToElevate) then
    modify (set_conflictSets (insert conflictSetId (newConflictSet conflictSetId))) ;;
    let* err := createRealityForConflictingConsumers elevate reality
                  consumersToElevate conflictSetId None in
    match err with
    | Some e => throw e
    | None => ret conflictSetId
    end
  else
    fun st =>
      match conflictSets st !! conflictSetId with
      | None => (Panic, st)
      | Some _ => (Ok conflictSetId, st)
      end.

Fixpoint consumeInputs
    (elevate : RealityId → TransferOutputReference → RealityId → M unit)
    (reality : RealityId) (inputs : list TransferOutputReference)
    (transferHash : TransferHash)
    (outputs : list (AddressHash * list ColoredBalance))
    (conflictSets : list ConflictId) : M (list ConflictId) :=
  match inputs with
  | [] => ret conflictSets
  | input :: rest => fun st =>
      match GetTransferOutput input st with
      | None => (Panic, st)
      | Some consumedTransferOutput =>
          let '(consumed, consumersToElevate) :=
            addConsumer consumedTransferOutput transferHash outputs in
          let st' := set_transferOutputs (insert input consumed) st in
          match consumersToElevate with
          | None =>
              consumeInputs elevate reality rest transferHash outputs conflictSets st'
          | Some consumersToElevate =>
              (let* conflictSet :=
                 retrieveConflictSetForConflictingInput elevate reality consumed
                   consumersToElevate in
               consumeInputs elevate reality rest transferHash outputs
                 (conflictSets ++ [conflictSet])) st'
          end
      end
  end.

(** The loop of line 184 for one conflict set. *)
Definition registerConflictSet (targetRealityId : RealityId)
    (cachedConflictSet : ConflictId) : M unit :=
  fun st =>
    match conflictSets st !! cachedConflictSet with
    | None => (Panic, st)
    | Some conflictSet =>
        (Ok tt,
         set_realities (alter (AddConflictSet (conflict_id conflictSet)) targetRealityId)
           (set_conflictSets (alter (AddReality targetRealityId) cachedConflictSet) st))
    end.

Definition bookOutputs (reality : RealityId) (transferHash : TransferHash)
    (outputs : list (AddressHash * list ColoredBalance)) : M unit :=
  forEach (fun output : AddressHash * list ColoredBalance =>
             bookTransferOutput reality
               (NewTransferOutput emptyRealityId transferHash (fst output) (snd output)))
    outputs.

Definition bookTransfer (fuel : nat) (reality : Reality) (transferHash : TransferHash)
    (inputs : list TransferOutputReference)
    (outputs : list (AddressHash * list ColoredBalance)) : M unit :=
  fun st =>
    match verifyTransfer fuel st reality inputs outputs with
    | Err e => (Err e, st)
    | Panic => (Panic, st)
    | OutOfFuel => (OutOfFuel, st)
    | Ok _ =>
        (let* conflictSets :=
           consumeInputs (elevateTransferOutput fuel) (id reality) inputs
             transferHash outputs [] in
         if bool_decide (1 ≤ length conflictSets) then
           let targetRealityId := ToRealityId transferHash in
           let* targetReality := CreateReality (id reality) targetRealityId in
           forEach (registerConflictSet targetReality) conflictSets ;;
           bookOutputs targetReality transferHash outputs
         else
           bookOutputs (id reality) transferHash outputs) st
    end.

(** Modelled from the spec: the transfer of section 6 (hash, input
    references, outputs per address), and [getTransferInputs], which loads
    a handle for every input reference. *)
Record Transfer := mkTransfer {
  GetHash : TransferHash;
  GetInputs : list TransferOutputReference;
  GetOutputs : list (AddressHash * list ColoredBalance)
}.

Definition getTransferInputs (transfer : Transfer) : list TransferOutputReference :=
  GetInputs transfer.

Definition BookTransfer (fuel : nat) (reality : Reality) (transfer : Transfer) : M unit :=
  bookTransfer fuel reality (GetHash transfer) (getTransferInputs transfer)
    (GetOutputs transfer).

End Booking.

(** ** Concrete ledgers for the examples *)

(** Modelled from the spec: section 8 fixes MAIN = 0x00…00; the declaration
    of [MAIN_REALITY_ID] is outside reality.go. *)
Definition MAIN_REALITY_ID : RealityId := 0%N.

(** The examples take the all-ones id for the sentinel of an unbooked
    output, and simple injective stand-ins for the two hash functions. *)
Definition EMPTY_REALITY_ID : RealityId := (2 ^ 256 - 1)%N.

Definition exampleConflictSetId (transferHash : TransferHash)
    (addressHash : AddressHash) : ConflictId :=
  (transferHash * 2 ^ 256 + addressHash)%N.

Definition exampleAggregatedRealityId (parentRealities : gset RealityId) : RealityId :=
  foldr (fun parent hash => (parent + 2 ^ 256 * hash)%N) 1%N (elements parentRealities).

Definition iota : Color := 1%N.

(** Modelled from the spec: [addConsumer] of the transfer output (section
    4.B): the consuming transfer is entered into the consumers map with
    the addresses of its outputs; the result is null for the first
    consumer and else the consumers recorded before. *)
Fixpoint putConsumer (consumer : TransferHash) (addressHashes : list AddressHash)
    (consumers : list (TransferHash * list AddressHash))
    : list (TransferHash * list AddressHash) :=
  match consumers with
  | [] => [(consumer, addressHashes)]
  | (transferHash, recorded) :: rest =>
      if decide (transferHash = consumer) then (consumer, addressHashes) :: rest
      else (transferHash, recorded) :: putConsumer consumer addressHashes rest
  end.

(** Modelled from the spec: [addConsumer], as described above
    [putConsumer]; the examples run with it. *)
Definition exampleAddConsumer (transferOutput : TransferOutput)
    (consumer : TransferHash) (outputs : list (AddressHash * list ColoredBalance))
    : TransferOutput * option (list (TransferHash * list AddressHash)) :=
  (mkTransferOutput (transferHash transferOutput) (addressHash transferOutput)
     (realityId transferOutput) (balances transferOutput)
     (putConsumer consumer (map fst outputs) (consumers transferOutput)),
   match consumers transferOutput with
   | [] => None
   | previous => Some previous
   end).

(** MAIN alone, with nothing booked. *)
Definition emptyLedger : LedgerState :=
  mkLedgerState {[ MAIN_REALITY_ID := newReality MAIN_REALITY_ID ∅ ]} ∅ ∅ ∅.

(** The genesis output G = (tx 10, address 1, 100 iota), booked into MAIN. *)
Definition genesisOutput : TransferOutput :=
  NewTransferOutput EMPTY_REALITY_ID 10%N 1%N [mkColoredBalance iota 100].

Definition genesisLedger : LedgerState :=
  snd (bookTransferOutput EMPTY_REALITY_ID MAIN_REALITY_ID genesisOutput emptyLedger).

(** [BookTransfer] on the reality loaded from the store under [reality]. *)
Definition exampleBookTransfer (reality : RealityId) (transferHash : TransferHash)
    (inputs : list TransferOutputReference)
    (outputs : list (AddressHash * list ColoredBalance)) (st : LedgerState)
    : Res unit * LedgerState :=
  match realities st !! reality with
  | Some r =>
      BookTransfer EMPTY_REALITY_ID exampleConflictSetId exampleAggregatedRealityId
        exampleAddConsumer 8 r (mkTransfer transferHash inputs outputs) st
  | None => (Panic, st)
  end.

(** Scenario 1: T1 (hash 11) spends G to address 2. *)
Definition spentLedger : LedgerState :=
  snd (exampleBookTransfer MAIN_REALITY_ID 11%N [(10%N, 1%N)]
         [(2%N, [mkColoredBalance iota 100])] genesisLedger).

(** Scenario 3: T3 (hash 13) spends the output of T1 to address 4. *)
Definition chainLedger : LedgerState :=
  snd (exampleBookTransfer MAIN_REALITY_ID 13%N [(11%N, 2%N)]
         [(4%N, [mkColoredBalance iota 100])] spentLedger).

(** A ledger in which MAIN owns a single output, (tx 10, address 1), and a
    child reality 11 of MAIN exists. *)
Definition loneOutput : TransferOutput :=
  mkTransferOutput 10%N 1%N MAIN_REALITY_ID [mkColoredBalance iota 100] [].

Definition loneLedger : LedgerState :=
  mkLedgerState
    {[ MAIN_REALITY_ID := mkReality MAIN_REALITY_ID ∅ ∅ 1;
       11%N := newReality 11%N {[ MAIN_REALITY_ID ]} ]}
    ∅
    {[ (10%N, 1%N) := loneOutput ]}
    {[ (MAIN_REALITY_ID, 1%N, false, 10%N) ]}.

(** A ledger with an output of 1 iota in MAIN, and one with an output in a
    reality 5 that MAIN does not descend from. *)
Definition unitOutput : TransferOutput :=
  mkTransferOutput 10%N 1%N MAIN_REALITY_ID [mkColoredBalance iota 1] [].

Definition unitLedger : LedgerState :=
  mkLedgerState {[ MAIN_REALITY_ID := mkReality MAIN_REALITY_ID ∅ ∅ 1 ]} ∅
    {[ (10%N, 1%N) := unitOutput ]} {[ (MAIN_REALITY_ID, 1%N, false, 10%N) ]}.

Definition foreignOutput : TransferOutput :=
  mkTransferOutput 10%N 1%N 5%N [mkColoredBalance iota 100] [].

Definition foreignLedger : LedgerState :=
  mkLedgerState
    {[ MAIN_REALITY_ID := mkReality MAIN_REALITY_ID ∅ ∅ 0;
       5%N := mkReality 5%N ∅ ∅ 1 ]}
    ∅
    {[ (10%N, 1%N) := foreignOutput ]}
    {[ (5%N, 1%N, false, 10%N) ]}.

(** A ledger whose only output carries a balance of 0 iota. *)
Definition zeroOutput : TransferOutput :=
  mkTransferOutput 10%N 1%N MAIN_REALITY_ID [mkColoredBalance iota 0] [].

Definition zeroLedger : LedgerState :=
  mkLedgerState {[ MAIN_REALITY_ID := mkReality MAIN_REALITY_ID ∅ ∅ 1 ]} ∅
    {[ (10%N, 1%N) := zeroOutput ]} {[ (MAIN_REALITY_ID, 1%N, false, 10%N) ]}.

(** ** The balance condition in exact arithmetic

    The sums the specification compares: per color, over unbounded
    integers. *)

Definition colorTotal (color : Color) (balances : list ColoredBalance) : Z :=
  foldr (fun balance total =>
           if decide (GetColor balance = color) then (GetValue balance + total)%Z
           else total)
    0%Z balances.

Definition inputTotal (st : LedgerState) (inputs : list TransferOutputReference)
    (color : Color) : Z :=
  foldr (fun input total =>
           match transferOutputs st !! input with
           | Some transferOutput => (colorTotal color (balances transferOutput) + total)%Z
           | None => total
           end)
    0%Z inputs.

Definition outputTotal (outputs : list (AddressHash * list ColoredBalance))
    (color : Color) : Z :=
  foldr (fun output total => (colorTotal color (snd output) + total)%Z) 0%Z outputs.

(** ** Ancestry, as the specification words it *)

(** [Ancestor st reality a]: [a] is reached from [reality] by following
    parent edges, the parents of a parent being read from the store. *)
Inductive Ancestor (st : LedgerState) : Reality → RealityId → Prop :=
  | ancestor_parent (reality : Reality) (parent : RealityId) :
      parent ∈ parentRealityIds reality →
      Ancestor st reality parent
  | ancestor_step (reality : Reality) (parentId : RealityId) (parent : Reality)
        (ancestor : RealityId) :
      parentId ∈ parentRealityIds reality →
      realities st !! parentId = Some parent →
      Ancestor st parent ancestor →
      Ancestor st reality ancestor.

(** The ancestor chain of a reality resolves within [depth] levels: every
    parent id loads a reality stored under its own id, whose chain resolves
    one level lower; a reality without parents (MAIN) ends the chain. *)
Fixpoint resolves (depth : nat) (st : LedgerState) (reality : Reality) : bool :=
  match depth with
  | O => false
  | S depth' =>
      forallb (fun parentId =>
                 match realities st !! parentId with
                 | Some parent =>
                     bool_decide (id parent = parentId) && resolves depth' st parent
                 | None => false
                 end)
        (elements (parentRealityIds reality))
  end.

(** Scenarios 2 and 3: T2 (hash 12) spends G a second time, after T1 and T3. *)
Definition doubleSpendLedger : LedgerState :=
  snd (exampleBookTransfer MAIN_REALITY_ID 12%N [(10%N, 1%N)]
         [(3%N, [mkColoredBalance iota 100])] chainLedger).

Definition exampleReality (st : LedgerState) (realityId : RealityId) : Reality :=
  default (newReality realityId ∅) (realities st !! realityId).

(** ** Relations between the ledger state before and after a computation *)

Definition preserves {A} (P : relation LedgerState) (m : M A) : Prop :=
  ∀ st r st', m st = (r, st') → P st st'.

Definition same_conflicts : relation LedgerState :=
  fun st st' => conflictSets st' = conflictSets st.

Definition conflicts_kept : relation LedgerState :=
  fun st st' => ∀ cid, is_Some (conflictSets st !! cid) → is_Some (conflictSets st' !! cid).

(** Every stored reality is still stored, with the same id, parents and
    conflict ids; its count may have changed. *)
Definition realities_kept : relation LedgerState :=
  fun st st' =>
    ∀ rid r, realities st !! rid = Some r →
      ∃ r', realities st' !! rid = Some r'
            ∧ id r' = id r
            ∧ parentRealityIds r' = parentRealityIds r
            ∧ conflictIds r' = conflictIds r.

(** The ledger state after one turn of the loop of [createRealityForConflictingConsumers], up to
    the elevation of the addresses: the reality of the consumer is created
    and registered with the conflict set. *)
Definition registerElevatedReality (reality : RealityId) (h : TransferHash)
    (conflictSet : ConflictId) (st : LedgerState) : LedgerState :=
  set_realities (alter (AddConflictSet conflictSet) (ToRealityId h))
    (set_conflictSets (alter (AddReality (ToRealityId h)) conflictSet)
       (set_realities
          (insert (ToRealityId h) (newReality (ToRealityId h) {[reality]})) st)).

(** Conflict sets and the reality [target] only gain members. *)
Definition registered (target : RealityId) : relation LedgerState :=
  fun st st' =>
    (∀ r, realities st !! target = Some r →
       ∃ r', realities st' !! target = Some r'
             ∧ id r' = id r
             ∧ parentRealityIds r' = parentRealityIds r
             ∧ conflictIds r ⊆ conflictIds r')
    ∧ (∀ cid c, conflictSets st !! cid = Some c →
         ∃ c', conflictSets st' !! cid = Some c'
               ∧ conflict_id c' = conflict_id c
               ∧ conflict_realities c ⊆ conflict_realities c').



(** Consuming the inputs of T2 in scenario 2. *)
Definition doubleSpendConsumed : Res (list ConflictId) * LedgerState :=
  consumeInputs exampleConflictSetId exampleAddConsumer
    (elevateTransferOutput EMPTY_REALITY_ID exampleAggregatedRealityId 8)
    MAIN_REALITY_ID [(10%N, 1%N)] 12%N [(3%N, [mkColoredBalance iota 100])] []
    chainLedger.

(** The balances of all inputs, and of all outputs, in the order in which
    [verifyTransfer] visits them. *)
Definition inputBalances (st : LedgerState) (inputs : list TransferOutputReference)
    : list ColoredBalance :=
  flat_map (fun input =>
              match transferOutputs st !! input with
              | Some transferOutput => balances transferOutput
              | None => []
              end)
    inputs.

Definition outputBalances (outputs : list (AddressHash * list ColoredBalance))
    : list ColoredBalance :=
  flat_map snd outputs.


(** ** Consumers whose outputs are unspent *)


(** * Tip selection

    A shallow embedding of [plugins/tipselection]: the tip set is the set
    of the keys of the Go map, the closure attached to the
    TransactionSolid event is a function on it. *)

Module Tipselection.

(** [trinary.Hash] is a string of trytes. *)
Definition Hash := string.

(** The closure of [configure]: the branch and the trunk of a solid
    transaction stop being tips, the transaction becomes one. *)
Definition onTransactionSolid (branchTransactionHash trunkTransactionHash hash : Hash)
    (tipSet : gset Hash) : gset Hash :=
  {[hash]} ∪ ((tipSet ∖ {[branchTransactionHash]}) ∖ {[trunkTransactionHash]}).

(** What [GetRandomTip] returns, or the panic after its loop. *)
Inductive TipResult :=
  | Tip (hash : Hash)
  | Unreachable.

(** The loop of [GetRandomTip] over the keys in the order in which the
    range statement yields them: the key reached with [i] at 0 is returned. *)
Fixpoint rangeTipSet (keys : list Hash) (i : nat) : TipResult :=
  match keys with
  | [] => Unreachable
  | k :: rest =>
      match i with
      | O => Tip k
      | S i' => rangeTipSet rest i'
      end
  end.

(** [keys] is the order of the iteration over the map and [i] the value of
    [rand.Intn(len(tipSet))]; [BRANCH_NULL_HASH] is declared in another
    package. *)
Definition GetRandomTip (BRANCH_NULL_HASH : Hash) (tipSet : gset Hash)
    (keys : list Hash) (i : nat) : TipResult :=
  if decide (size tipSet = 0) then Tip BRANCH_NULL_HASH
  else rangeTipSet keys i.

Definition GetTipsCount (tipSet : gset Hash) : nat := size tipSet.

End Tipselection.

(** * Stores whose objects sit under their own key *)

(** Every stored reality is stored under its id, as [newReality] and
    [Store] leave it. *)
Definition realities_keyed (st : LedgerState) : Prop :=
  map_Forall (fun realityId reality => id reality = realityId) (realities st).

(** Two realities that are each other's parent. *)
Definition cyclicLedger : LedgerState :=
  mkLedgerState
    {[ 1%N := mkReality 1%N {[ 2%N ]} ∅ 0;
       2%N := mkReality 2%N {[ 1%N ]} ∅ 0 ]}
    ∅ ∅ ∅.

(** * Counting the outputs of a reality *)

(** The number of transfer outputs in the store that a reality owns. *)
Definition ownedOutputs (outputs : gmap TransferOutputReference TransferOutput)
    (owner : RealityId) : nat :=
  size (filter (fun entry : TransferOutputReference * TransferOutput =>
                  realityId (snd entry) = owner) outputs).

(** The count of every stored reality is the number of outputs it owns, as
    a uint32. *)
Definition counts_consistent (st : LedgerState) : Prop :=
  map_Forall (fun realityId reality =>
                transferOutputCount reality
                = wrap32 (Z.of_nat (ownedOutputs (transferOutputs st) realityId)))
    (realities st).

(** * The outputs of a transfer, once booked *)

(** Between [st] and [st'] the outputs of the transfer [transferHash] have
    been booked into [target]: the bookings index has gained one unspent
    entry per output, every output is stored as a new output of [target],
    and no other transfer output has changed. *)
Definition outputs_booked (target : RealityId) (transferHash : TransferHash)
    (outputs : list (AddressHash * list ColoredBalance))
    (st st' : LedgerState) : Prop :=
  transferOutputBookings st'
  = list_to_set (map (fun output : AddressHash * list ColoredBalance =>
                        newTransferOutputBooking target (fst output) false transferHash)
                   outputs)
      ∪ transferOutputBookings st
  ∧ (∀ output, output ∈ outputs →
       transferOutputs st' !! (transferHash, fst output)
       = Some (NewTransferOutput target transferHash (fst output) (snd output)))
  ∧ (∀ k, (∀ output, output ∈ outputs → k ≠ (transferHash, fst output)) →
       transferOutputs st' !! k = transferOutputs st !! k).

(** * A consumer whose output is missing *)

(** The consumers of the genesis output in scenario 3, had it been spent
    by T1 (hash 11) and by a transfer 99 whose output was never stored, in
    the order in which the missing one comes first. *)
Definition missingFirst : list (TransferHash * list AddressHash) :=
  [(99%N, [1%N]); (11%N, [2%N])].

Definition exampleRetrieve (consumersToElevate : list (TransferHash * list AddressHash))
    : Res ConflictId * LedgerState :=
  retrieveConflictSetForConflictingInput exampleConflictSetId
    (elevateTransferOutput EMPTY_REALITY_ID exampleAggregatedRealityId 8)
    MAIN_REALITY_ID genesisOutput consumersToElevate chainLedger.

(** * Transfer outputs under elevation *)

(** Every stored transfer output is stored under its own key. *)
Definition outputs_keyed (st : LedgerState) : Prop :=
  map_Forall (fun key transferOutput => storageKey transferOutput = key)
    (transferOutputs st).

(** A transfer output with its reality id blanked. *)
Definition withoutRealityId (transferOutput : TransferOutput) : TransferOutput :=
  SetRealityId 0%N transferOutput.

(** From a store of outputs that sit under their own keys: the outputs
    still do, the same keys are stored, and an output differs from what it
    was in nothing but its reality id. *)
Definition outputs_rebooked : relation LedgerState :=
  fun st st' =>
    outputs_keyed st →
    outputs_keyed st'
    ∧ withoutRealityId <$> transferOutputs st' = withoutRealityId <$> transferOutputs st.

(** * The outputs that spend an output *)

(** The references to the outputs of the consumers of an output, in the
    order in which [elevateTransferOutputOfCurrentReality] visits them. *)
Definition consumerOutputs (transferOutput : TransferOutput)
    : list TransferOutputReference :=
  flat_map (fun consumer : TransferHash * list AddressHash =>
              map (NewTransferOutputReference (fst consumer)) (snd consumer))
    (consumers transferOutput).

(** * The bookings index *)

(** The entry of the bookings index that belongs to an output as it is:
    its reality, its address, whether it has a consumer, its transfer. *)
Definition bookingOf (transferOutput : TransferOutput) : TransferOutputBooking :=
  newTransferOutputBooking (realityId transferOutput) (addressHash transferOutput)
    (bool_decide (1 ≤ length (consumers transferOutput)))
    (transferHash transferOutput).

(** The bookings index holds the entry of every stored output, and no
    other entry. *)
Definition bookings_consistent (st : LedgerState) : Prop :=
  transferOutputBookings st
  = list_to_set (map (fun entry : TransferOutputReference * TransferOutput =>
                        bookingOf (snd entry))
                   (map_to_list (transferOutputs st))).

(** * An elevation that fails *)

(** MAIN with the genesis output, spent by a transfer 99 whose output was
    never stored. *)
Definition orphanedLedger : LedgerState :=
  mkLedgerState {[ MAIN_REALITY_ID := mkReality MAIN_REALITY_ID ∅ ∅ 1 ]} ∅
    {[ (10%N, 1%N) :=
         mkTransferOutput 10%N 1%N MAIN_REALITY_ID [mkColoredBalance iota 100]
           [(99%N, [1%N])] ]}
    {[ (MAIN_REALITY_ID, 1%N, true, 10%N) ]}.

(** * Properties *)

(** ** The transfer-output count *)

Lemma uint32_not_0 : uint32_not 0 = (2 ^ 32 - 1)%Z.
Proof. reflexivity. Qed.

Lemma DecreaseTransferOutputCount_fst (reality : Reality) :
  fst (DecreaseTransferOutputCount reality)
  = ((transferOutputCount reality + (2 ^ 32 - 1)) mod 2 ^ 32)%Z.
Proof. reflexivity. Qed.

Lemma wrap32_dec_zero (count : Z) :
  wrap32 (count + uint32_not 0) = 0%Z ↔ (count mod 2 ^ 32 = 1)%Z.
Proof.
  rewrite uint32_not_0. unfold wrap32.
  pose proof (Z.mod_pos_bound count (2 ^ 32) ltac:(lia)) as Hb.
  rewrite Zplus_mod. split; intros H.
  - change ((2 ^ 32 - 1) mod 2 ^ 32)%Z with (2 ^ 32 - 1)%Z in H.
    destruct (decide (count mod 2 ^ 32 = 0)%Z) as [E|E].
    + rewrite E in H. discriminate H.
    + rewrite <- (Z.mod_unique (count mod 2 ^ 32 + (2 ^ 32 - 1)) (2 ^ 32) 1
                    (count mod 2 ^ 32 - 1)) in H; lia.
  - rewrite H. reflexivity.
Qed.

Ltac unfold_M := unfold bind, ret, modify, throw, panic in *.

Section BookingFacts.

Variable emptyRealityId : RealityId.
Variable NewConflictSetId : TransferHash → AddressHash → ConflictId.
Variable aggregatedRealityId : gset RealityId → RealityId.

(** What [bookTransferOutput] does when it moves an output that is booked
    in another reality. *)
Lemma bookTransferOutput_move (reality : RealityId) (x : TransferOutput)
    (old : Reality) (st : LedgerState) :
  realityId x ≠ emptyRealityId →
  realityId x ≠ reality →
  realities st !! realityId x = Some old →
  bookTransferOutput emptyRealityId reality x st =
    (Ok tt,
     mkLedgerState
       (alter (fun r => snd (IncreaseTransferOutputCount r)) reality
          (if decide (fst (DecreaseTransferOutputCount old) = 0%Z)
           then delete (realityId x)
                  (<[realityId x := snd (DecreaseTransferOutputCount old)]>
                     (realities st))
           else <[realityId x := snd (DecreaseTransferOutputCount old)]>
                  (realities st)))
       (conflictSets st)
       (alter (SetRealityId reality) (storageKey x) (transferOutputs st))
       ({[newTransferOutputBooking reality (addressHash x)
            (bool_decide (1 ≤ length (consumers x))) (transferHash x)]}
          ∪ (transferOutputBookings st
               ∖ {[newTransferOutputBooking (realityId x) (addressHash x)
                     (bool_decide (1 ≤ length (consumers x))) (transferHash x)]}))).
Proof.
  intros Hempty Hne Hold.
  unfold bookTransferOutput, releaseOldReality, GetReality. unfold_M.
  rewrite (decide_False (P := realityId x = emptyRealityId)) by done.
  rewrite !(decide_True (P := realityId x ≠ reality)) by done.
  simpl. rewrite Hold. simpl.
  destruct (decide _); reflexivity.
Qed.

(** C10. The transfer-output count wraps on 32 bits: on a reality whose
    count is 0, [DecreaseTransferOutputCount] returns 2^32 - 1, not 0, so
    [bookTransferOutput] moving an output out of such a reality leaves the
    reality in the store, with the count 2^32 - 1. *)
Theorem DecreaseTransferOutputCount_empty_wraps (reality : RealityId)
    (x : TransferOutput) (old : Reality) (st : LedgerState) :
  transferOutputCount old = 0%Z →
  realityId x ≠ emptyRealityId →
  realityId x ≠ reality →
  realities st !! realityId x = Some old →
  fst (DecreaseTransferOutputCount old) = (2 ^ 32 - 1)%Z
  ∧ fst (DecreaseTransferOutputCount old) ≠ 0%Z
  ∧ ∃ st', bookTransferOutput emptyRealityId reality x st = (Ok tt, st')
      ∧ realities st' !! realityId x
        = Some (mkReality (id old) (parentRealityIds old) (conflictIds old)
                  (2 ^ 32 - 1)).
Proof.
  intros Hcount Hempty Hne Hold.
  assert (Hdec : DecreaseTransferOutputCount old
                 = ((2 ^ 32 - 1)%Z,
                    mkReality (id old) (parentRealityIds old) (conflictIds old)
                      (2 ^ 32 - 1))).
  { unfold DecreaseTransferOutputCount. rewrite Hcount. reflexivity. }
  rewrite Hdec. simpl. split; [reflexivity|]. split; [discriminate|].
  eexists. split.
  - apply bookTransferOutput_move; eassumption.
  - rewrite Hdec. simpl.
    rewrite lookup_alter_ne by done. apply lookup_insert_eq.
Qed.


(** ** Booking an output *)

Lemma SetRealityId_same (x : TransferOutput) : SetRealityId (realityId x) x = x.
Proof. destruct x; reflexivity. Qed.

(** C9. Booking an output into the reality that already owns it is a
    no-op: the realities (hence the count of R) and the bookings index are
    unchanged, and the output keeps its reality id; when the output is the
    stored one, the whole ledger state is unchanged. *)
Theorem bookTransferOutput_same_reality (reality : RealityId)
    (x : TransferOutput) (st : LedgerState) :
  realityId x = reality →
  ∃ st', bookTransferOutput emptyRealityId reality x st = (Ok tt, st')
    ∧ realities st' = realities st
    ∧ transferOutputBookings st' = transferOutputBookings st
    ∧ conflictSets st' = conflictSets st
    ∧ (transferOutputs st' = transferOutputs st
       ∨ transferOutputs st' = <[storageKey x := x]> (transferOutputs st))
    ∧ (transferOutputs st !! storageKey x = Some x → st' = st).
Proof.
  intros <-.
  unfold bookTransferOutput. unfold_M.
  rewrite !(decide_False (P := realityId x ≠ realityId x)) by (intros H; by apply H).
  destruct (decide (realityId x = emptyRealityId)) as [Hempty|Hempty].
  - rewrite SetRealityId_same. eexists. split; [reflexivity|].
    simpl. repeat split; [by right|].
    intros Hx. destruct st as [rs cs os bs].
    unfold storeTransferOutput, set_transferOutputs. simpl in *.
    f_equal. by apply insert_id.
  - exists st. repeat split; by left.
Qed.

(** C4, as the code has it. When [bookTransferOutput] moves an output out
    of a reality, that reality is deleted from the store exactly when its
    count drops to zero, whichever reality it is: there is no exception
    for MAIN.  Otherwise it stays, with the decreased count. *)
Theorem bookTransferOutput_deletes_emptied_reality (reality : RealityId)
    (x : TransferOutput) (old : Reality) (st : LedgerState) :
  realityId x ≠ emptyRealityId →
  realityId x ≠ reality →
  realities st !! realityId x = Some old →
  ∃ st', bookTransferOutput emptyRealityId reality x st = (Ok tt, st')
    ∧ (fst (DecreaseTransferOutputCount old) = 0%Z →
       realities st' !! realityId x = None)
    ∧ (fst (DecreaseTransferOutputCount old) ≠ 0%Z →
       realities st' !! realityId x = Some (snd (DecreaseTransferOutputCount old))).
Proof.
  intros Hempty Hne Hold.
  eexists. split; [by apply bookTransferOutput_move|].
  cbn [realities]. rewrite lookup_alter_ne by done.
  split; intros Hcount.
  - rewrite decide_True by done. apply lookup_delete_eq.
  - rewrite decide_False by done. apply lookup_insert_eq.
Qed.

End BookingFacts.

(** C4, against the claim: reality 11 books the only output of MAIN; the
    count of MAIN drops from 1 to 0 and MAIN is deleted from the store. *)
Lemma bookTransferOutput_deletes_MAIN :
  realityId loneOutput = MAIN_REALITY_ID
  ∧ (transferOutputCount <$> realities loneLedger !! MAIN_REALITY_ID) = Some 1%Z
  ∧ fst (bookTransferOutput EMPTY_REALITY_ID 11%N loneOutput loneLedger) = Ok tt
  ∧ realities (snd (bookTransferOutput EMPTY_REALITY_ID 11%N loneOutput loneLedger))
      !! MAIN_REALITY_ID = None.
Proof. vm_compute. repeat split. Qed.

Lemma bookTransferOutput_deletes_emptied_reality_witness :
  ∃ st', bookTransferOutput EMPTY_REALITY_ID 11%N loneOutput loneLedger = (Ok tt, st')
    ∧ (fst (DecreaseTransferOutputCount (mkReality MAIN_REALITY_ID ∅ ∅ 1)) = 0%Z →
       realities st' !! realityId loneOutput = None)
    ∧ (fst (DecreaseTransferOutputCount (mkReality MAIN_REALITY_ID ∅ ∅ 1)) ≠ 0%Z →
       realities st' !! realityId loneOutput
       = Some (snd (DecreaseTransferOutputCount (mkReality MAIN_REALITY_ID ∅ ∅ 1)))).
Proof.
  apply (bookTransferOutput_deletes_emptied_reality EMPTY_REALITY_ID 11%N loneOutput
           (mkReality MAIN_REALITY_ID ∅ ∅ 1) loneLedger).
  - vm_compute. discriminate.
  - vm_compute. discriminate.
  - vm_compute. reflexivity.
Defined.

Lemma bookTransferOutput_same_reality_witness :
  ∃ st', bookTransferOutput EMPTY_REALITY_ID MAIN_REALITY_ID loneOutput loneLedger
         = (Ok tt, st')
    ∧ realities st' = realities loneLedger
    ∧ transferOutputBookings st' = transferOutputBookings loneLedger
    ∧ conflictSets st' = conflictSets loneLedger
    ∧ (transferOutputs st' = transferOutputs loneLedger
       ∨ transferOutputs st' = <[storageKey loneOutput := loneOutput]>
                                 (transferOutputs loneLedger))
    ∧ (transferOutputs loneLedger !! storageKey loneOutput = Some loneOutput →
       st' = loneLedger).
Proof.
  apply (bookTransferOutput_same_reality EMPTY_REALITY_ID MAIN_REALITY_ID loneOutput
           loneLedger).
  reflexivity.
Defined.

Lemma DecreaseTransferOutputCount_empty_wraps_witness :
  fst (DecreaseTransferOutputCount (mkReality MAIN_REALITY_ID ∅ ∅ 0)) = (2 ^ 32 - 1)%Z
  ∧ fst (DecreaseTransferOutputCount (mkReality MAIN_REALITY_ID ∅ ∅ 0)) ≠ 0%Z
  ∧ ∃ st', bookTransferOutput EMPTY_REALITY_ID 5%N loneOutput foreignLedger = (Ok tt, st')
      ∧ realities st' !! realityId loneOutput
        = Some (mkReality MAIN_REALITY_ID ∅ ∅ (2 ^ 32 - 1)).
Proof.
  apply (DecreaseTransferOutputCount_empty_wraps EMPTY_REALITY_ID 5%N loneOutput
           (mkReality MAIN_REALITY_ID ∅ ∅ 0) foreignLedger).
  - reflexivity.
  - vm_compute. discriminate.
  - vm_compute. discriminate.
  - vm_compute. reflexivity.
Defined.

(** ** Verification *)

Lemma addAncestors_foldl_no_Err (ancestorsOf : Reality → Res (gmap RealityId Reality))
    (entries : list (RealityId * Reality)) (result : Res (gmap RealityId Reality)) :
  (∀ r e, ancestorsOf r ≠ Err e) →
  (∀ e, result ≠ Err e) →
  ∀ e, foldl (addAncestors ancestorsOf) result entries ≠ Err e.
Proof.
  intros Hanc. revert result.
  induction entries as [|entry entries IH]; intros result Hres e; simpl.
  - apply Hres.
  - apply IH. intros e'. unfold addAncestors.
    destruct result as [m|e0| |]; try done.
    destruct (ancestorsOf (snd entry)) as [anc|e1| |] eqn:E; try done.
    exfalso. by eapply Hanc.
Qed.

Lemma loadParentRealities_no_Err (st : LedgerState) (parentIds : list RealityId)
    (acc : gmap RealityId Reality) (e : Error) :
  loadParentRealities st parentIds acc ≠ Err e.
Proof.
  revert acc. induction parentIds as [|p ps IH]; intros acc; simpl; [done|].
  destruct (realities st !! p); [apply IH|done].
Qed.

Lemma GetAncestorRealities_no_Err (fuel : nat) (st : LedgerState) (reality : Reality)
    (e : Error) :
  GetAncestorRealities fuel st reality ≠ Err e.
Proof.
  revert reality e. induction fuel as [|fuel IH]; intros reality e; simpl; [done|].
  destruct (GetParentRealities st reality) as [ps|e0| |] eqn:E; try done.
  - apply addAncestors_foldl_no_Err; [apply IH|done].
  - exfalso. by eapply loadParentRealities_no_Err.
Qed.

Lemma DescendsFrom_no_Err (fuel : nat) (st : LedgerState) (reality : Reality)
    (realityId : RealityId) (e : Error) :
  DescendsFrom fuel st reality realityId ≠ Err e.
Proof.
  unfold DescendsFrom. destruct (decide _); [done|].
  destruct (GetAncestorRealities fuel st reality) eqn:E; try done.
  exfalso. by eapply GetAncestorRealities_no_Err.
Qed.

Lemma verifyInputs_Err (fuel : nat) (st : LedgerState) (reality : Reality)
    (inputs : list TransferOutputReference) (totals : gmap Color Z) (e : Error) :
  verifyInputs fuel st reality inputs totals = Err e →
  e = ErrMissingInput ∨ e = ErrInputNotInReality.
Proof.
  revert totals. induction inputs as [|input inputs IH]; intros totals; simpl; [done|].
  destruct (transferOutputs st !! input) as [x|]; [|intros [= <-]; by left].
  destruct (DescendsFrom fuel st reality (realityId x)) as [[]|e0| |] eqn:E; try done.
  - apply IH.
  - intros [= <-]. by right.
  - exfalso. by eapply DescendsFrom_no_Err.
Qed.

Lemma verifyTransfer_Err (fuel : nat) (st : LedgerState) (reality : Reality)
    (inputs : list TransferOutputReference)
    (outputs : list (AddressHash * list ColoredBalance)) (e : Error) :
  verifyTransfer fuel st reality inputs outputs = Err e →
  e = ErrMissingInput ∨ e = ErrInputNotInReality ∨ e = ErrUnbalancedTransfer.
Proof.
  unfold verifyTransfer.
  destruct (verifyInputs fuel st reality inputs ∅) as [totals|e0| |] eqn:E; try done.
  - destruct (decide _); [|done]. intros [= <-]. by right; right.
  - intros [= <-]. apply verifyInputs_Err in E. tauto.
Qed.

(** Inputs that exist and are reachable only add to the totals. *)
Lemma verifyInputs_app_ok (fuel : nat) (st : LedgerState) (reality : Reality)
    (pre rest : list TransferOutputReference) (totals : gmap Color Z) :
  (∀ input, input ∈ pre →
     ∃ x, transferOutputs st !! input = Some x
          ∧ DescendsFrom fuel st reality (realityId x) = Ok true) →
  ∃ totals', verifyInputs fuel st reality (pre ++ rest) totals
             = verifyInputs fuel st reality rest totals'.
Proof.
  revert totals. induction pre as [|input pre IH]; intros totals Hpre; simpl.
  - by exists totals.
  - destruct (Hpre input) as (x & Hx & Hreach); [by left|].
    rewrite Hx, Hreach. apply IH. intros i Hi. apply Hpre. by right.
Qed.

Lemma verifyInputs_missing_not_Ok (fuel : nat) (st : LedgerState) (reality : Reality)
    (pre post : list TransferOutputReference) (missing : TransferOutputReference)
    (totals totals' : gmap Color Z) :
  transferOutputs st !! missing = None →
  verifyInputs fuel st reality (pre ++ missing :: post) totals ≠ Ok totals'.
Proof.
  intros Hmissing. revert totals.
  induction pre as [|input pre IH]; intros totals; simpl.
  - by rewrite Hmissing.
  - destruct (transferOutputs st !! input) as [x|]; [|done].
    destruct (DescendsFrom fuel st reality (realityId x)) as [[]|e0| |];
      first [done | apply IH].
Qed.

(** C8, as the code has it. With a missing input, verification never
    succeeds.  Existence and reachability are checked input by input, in
    list order: the missing-input error is returned when every input before
    the first missing one exists and is reachable, and the
    input-not-in-reality error when an earlier input fails the reachability
    check. *)
Theorem verifyTransfer_first_failure (fuel : nat) (st : LedgerState)
    (reality : Reality) (pre post : list TransferOutputReference)
    (missing : TransferOutputReference)
    (outputs : list (AddressHash * list ColoredBalance)) :
  transferOutputs st !! missing = None →
  verifyTransfer fuel st reality (pre ++ missing :: post) outputs ≠ Ok tt
  ∧ ((∀ input, input ∈ pre →
        ∃ x, transferOutputs st !! input = Some x
             ∧ DescendsFrom fuel st reality (realityId x) = Ok true) →
     verifyTransfer fuel st reality (pre ++ missing :: post) outputs
     = Err ErrMissingInput)
  ∧ (∀ pre1 pre2 input x,
       pre = pre1 ++ input :: pre2 →
       (∀ input', input' ∈ pre1 →
          ∃ x', transferOutputs st !! input' = Some x'
                ∧ DescendsFrom fuel st reality (realityId x') = Ok true) →
       transferOutputs st !! input = Some x →
       DescendsFrom fuel st reality (realityId x) = Ok false →
       verifyTransfer fuel st reality (pre ++ missing :: post) outputs
       = Err ErrInputNotInReality).
Proof.
  intros Hmissing. unfold verifyTransfer. split; [|split].
  - destruct (verifyInputs fuel st reality (pre ++ missing :: post) ∅) eqn:E; try done.
    exfalso. by eapply verifyInputs_missing_not_Ok.
  - intros Hpre.
    destruct (verifyInputs_app_ok fuel st reality pre (missing :: post) ∅ Hpre)
      as [totals' ->].
    simpl. by rewrite Hmissing.
  - intros pre1 pre2 input x -> Hpre1 Hx Hreach.
    rewrite <- app_assoc.
    destruct (verifyInputs_app_ok fuel st reality pre1
                ((input :: pre2) ++ missing :: post) ∅ Hpre1) as [totals' ->].
    simpl. by rewrite Hx, Hreach.
Qed.

(** C8, against the claim: the first input exists in a reality that MAIN
    does not descend from, the second input is missing, and the error is
    the one of the reachability check. *)
Lemma verifyTransfer_missing_input_masked :
  transferOutputs foreignLedger !! (20%N, 1%N) = None
  ∧ verifyTransfer 1 foreignLedger (mkReality MAIN_REALITY_ID ∅ ∅ 0)
      [(10%N, 1%N); (20%N, 1%N)] []
    = Err ErrInputNotInReality.
Proof. vm_compute. split; reflexivity. Qed.

Lemma verifyTransfer_first_failure_witness :
  verifyTransfer 1 foreignLedger (mkReality 5%N ∅ ∅ 1)
    ([(10%N, 1%N)] ++ (20%N, 1%N) :: []) [] ≠ Ok tt
  ∧ ((∀ input, input ∈ [(10%N, 1%N)] →
        ∃ x, transferOutputs foreignLedger !! input = Some x
             ∧ DescendsFrom 1 foreignLedger (mkReality 5%N ∅ ∅ 1) (realityId x)
               = Ok true) →
     verifyTransfer 1 foreignLedger (mkReality 5%N ∅ ∅ 1)
       ([(10%N, 1%N)] ++ (20%N, 1%N) :: []) []
     = Err ErrMissingInput)
  ∧ (∀ pre1 pre2 input x,
       [(10%N, 1%N)] = pre1 ++ input :: pre2 →
       (∀ input', input' ∈ pre1 →
          ∃ x', transferOutputs foreignLedger !! input' = Some x'
                ∧ DescendsFrom 1 foreignLedger (mkReality 5%N ∅ ∅ 1) (realityId x')
                  = Ok true) →
       transferOutputs foreignLedger !! input = Some x →
       DescendsFrom 1 foreignLedger (mkReality 5%N ∅ ∅ 1) (realityId x) = Ok false →
       verifyTransfer 1 foreignLedger (mkReality 5%N ∅ ∅ 1)
         ([(10%N, 1%N)] ++ (20%N, 1%N) :: []) []
       = Err ErrInputNotInReality).
Proof.
  apply (verifyTransfer_first_failure 1 foreignLedger (mkReality 5%N ∅ ∅ 1)
           [(10%N, 1%N)] [] (20%N, 1%N) []).
  vm_compute. reflexivity.
Defined.

(** *** What the balance check computes *)

Lemma wrap64_add_l (a b : Z) : wrap64 (wrap64 a + b) = wrap64 (a + b).
Proof. unfold wrap64. apply Zplus_mod_idemp_l. Qed.

Lemma wrap64_sub_l (a b : Z) : wrap64 (wrap64 a - b) = wrap64 (a - b).
Proof. unfold wrap64. apply Zminus_mod_idemp_l. Qed.

Lemma colorTotal_cons (color : Color) (b : ColoredBalance) (bs : list ColoredBalance) :
  colorTotal color (b :: bs)
  = if decide (GetColor b = color) then (GetValue b + colorTotal color bs)%Z
    else colorTotal color bs.
Proof. reflexivity. Qed.

Lemma colorTotal_absent (color : Color) (bs : list ColoredBalance) :
  color ∉ map GetColor bs → colorTotal color bs = 0%Z.
Proof.
  induction bs as [|b bs IH]; [done|]. intros Hnin.
  rewrite colorTotal_cons, decide_False; [apply IH|]; set_solver.
Qed.

Lemma foldl_addBalance_lookup (bs : list ColoredBalance) (totals : gmap Color Z)
    (color : Color) :
  foldl addBalance totals bs !! color
  = if decide (color ∈ map GetColor bs)
    then Some (wrap64 (default 0%Z (totals !! color) + colorTotal color bs))
    else totals !! color.
Proof.
  revert totals. induction bs as [|b bs IH]; intros totals; cbn [foldl map].
  - destruct (decide _) as [H|]; [by apply not_elem_of_nil in H|done].
  - rewrite IH, colorTotal_cons. unfold addBalance.
    destruct (decide (GetColor b = color)) as [Heq|Hne].
    + rewrite Heq, lookup_insert_eq.
      rewrite (decide_True (P := color ∈ color :: _)) by (by left).
      cbn [default from_option]. unfold Datatypes.id.
      destruct (decide (color ∈ map GetColor bs)) as [Hin|Hnin].
      * rewrite wrap64_add_l. f_equal. f_equal. lia.
      * rewrite (colorTotal_absent _ _ Hnin). f_equal. f_equal. lia.
    + rewrite lookup_insert_ne by done.
      destruct (decide (color ∈ map GetColor bs)) as [Hin|Hnin].
      * rewrite decide_True; [done|by right].
      * rewrite decide_False; [done|]. set_solver.
Qed.

Lemma subBalance_lookup (totals : gmap Color Z) (b : ColoredBalance) (color : Color) :
  subBalance totals b !! color
  = if decide (GetColor b = color)
    then (if decide (wrap64 (default 0%Z (totals !! color) - GetValue b) = 0%Z)
          then None
          else Some (wrap64 (default 0%Z (totals !! color) - GetValue b)))
    else totals !! color.
Proof.
  unfold subBalance. destruct (decide (GetColor b = color)) as [<-|Hne].
  - destruct (decide _); [apply lookup_delete_eq|apply lookup_insert_eq].
  - destruct (decide _); [by apply lookup_delete_ne|by apply lookup_insert_ne].
Qed.

Lemma foldl_subBalance_lookup (bs : list ColoredBalance) (totals : gmap Color Z)
    (color : Color) :
  foldl subBalance totals bs !! color
  = if decide (color ∈ map GetColor bs)
    then (if decide (wrap64 (default 0%Z (totals !! color) - colorTotal color bs) = 0%Z)
          then None
          else Some (wrap64 (default 0%Z (totals !! color) - colorTotal color bs)))
    else totals !! color.
Proof.
  revert totals. induction bs as [|b bs IH]; intros totals; cbn [foldl map].
  - destruct (decide _) as [H|]; [by apply not_elem_of_nil in H|done].
  - rewrite IH, colorTotal_cons. clear IH. rewrite subBalance_lookup.
    destruct (decide (GetColor b = color)) as [Heq|Hne].
    + rewrite (decide_True (P := color ∈ GetColor b :: _)) by (rewrite Heq; by left).
      set (t1 := wrap64 (default 0%Z (totals !! color) - GetValue b)).
      assert (Hdef : default 0%Z (if decide (t1 = 0%Z) then None else Some t1) = t1).
      { by destruct (decide (t1 = 0%Z)) as [->|]. }
      destruct (decide (color ∈ map GetColor bs)) as [Hin|Hnin].
      * rewrite Hdef. unfold t1. rewrite wrap64_sub_l.
        by rewrite Z.sub_add_distr.
      * rewrite (colorTotal_absent _ _ Hnin), ?Z.add_0_r. reflexivity.
    + destruct (decide (color ∈ map GetColor bs)) as [Hin|Hnin].
      * by rewrite (decide_True (P := color ∈ GetColor b :: map GetColor bs))
          by (by right).
      * by rewrite (decide_False (P := color ∈ GetColor b :: map GetColor bs))
          by set_solver.
Qed.

Lemma subOutputs_flat (totals : gmap Color Z)
    (outputs : list (AddressHash * list ColoredBalance)) :
  subOutputs totals outputs = foldl subBalance totals (outputBalances outputs).
Proof.
  unfold subOutputs, outputBalances. revert totals.
  induction outputs as [|o outputs IH]; intros totals; simpl; [done|].
  by rewrite IH, foldl_app.
Qed.

Lemma verifyInputs_Ok_totals (fuel : nat) (st : LedgerState) (reality : Reality)
    (inputs : list TransferOutputReference) (totals totals' : gmap Color Z) :
  verifyInputs fuel st reality inputs totals = Ok totals' →
  totals' = foldl addBalance totals (inputBalances st inputs).
Proof.
  revert totals. induction inputs as [|input inputs IH]; intros totals; simpl.
  - by intros [= <-].
  - destruct (transferOutputs st !! input) as [x|]; [|done].
    destruct (DescendsFrom fuel st reality (realityId x)) as [[]|e| |]; try done.
    intros H. rewrite foldl_app. by apply IH.
Qed.

(** X1. The balance check of [verifyTransfer], for inputs that all exist and
    are reachable: it passes exactly when every color of an output has input
    and output totals that agree modulo 2^64, and every color of an input
    is also the color of some output. *)
Lemma verifyTransfer_balance_modular (fuel : nat) (st : LedgerState)
    (reality : Reality) (inputs : list TransferOutputReference)
    (outputs : list (AddressHash * list ColoredBalance)) (totals : gmap Color Z) :
  verifyInputs fuel st reality inputs ∅ = Ok totals →
  verifyTransfer fuel st reality inputs outputs = Ok tt
  ↔ ∀ color,
      (color ∈ map GetColor (outputBalances outputs) →
       wrap64 (colorTotal color (inputBalances st inputs)
               - colorTotal color (outputBalances outputs)) = 0%Z)
      ∧ (color ∈ map GetColor (inputBalances st inputs) →
         color ∈ map GetColor (outputBalances outputs)).
Proof.
  intros Hinputs. unfold verifyTransfer. rewrite Hinputs.
  apply verifyInputs_Ok_totals in Hinputs as ->.
  rewrite subOutputs_flat.
  set (ins := inputBalances st inputs). set (outs := outputBalances outputs).
  assert (Hlookup : ∀ color,
            foldl subBalance (foldl addBalance ∅ ins) outs !! color = None
            ↔ (color ∈ map GetColor outs →
               wrap64 (colorTotal color ins - colorTotal color outs) = 0%Z)
              ∧ (color ∈ map GetColor ins → color ∈ map GetColor outs)).
  { intros color. rewrite foldl_subBalance_lookup, foldl_addBalance_lookup.
    rewrite lookup_empty. simpl.
    destruct (decide (color ∈ map GetColor outs)) as [Hout|Hout].
    - destruct (decide (color ∈ map GetColor ins)) as [Hin|Hin]; simpl.
      + rewrite wrap64_sub_l. destruct (decide _); naive_solver.
      + rewrite (colorTotal_absent _ _ Hin). destruct (decide _); naive_solver.
    - destruct (decide (color ∈ map GetColor ins)) as [Hin|Hin]; naive_solver. }
  destruct (decide (size (foldl subBalance (foldl addBalance ∅ ins) outs) ≠ 0))
    as [Hsize|Hsize].
  - split; [done|]. intros Hall. exfalso. apply Hsize.
    apply map_size_empty_iff. apply map_eq. intros color.
    rewrite lookup_empty. by apply Hlookup.
  - split; [|done]. intros _ color. apply Hlookup.
    assert (Hempty : foldl subBalance (foldl addBalance ∅ ins) outs = ∅).
    { apply map_size_empty_iff. lia. }
    by rewrite Hempty.
Qed.

(** C5, at two failing inputs. A transfer that spends 1 iota and creates
    2^64 + 1 iota passes verification, because the totals are kept in 64
    bits; and a transfer that spends an output of 0 iota and creates nothing
    is rejected as unbalanced, because the entry the input loop made for the
    color is never removed. *)
Theorem verifyTransfer_not_exact :
  (verifyTransfer 1 unitLedger (mkReality MAIN_REALITY_ID ∅ ∅ 1) [(10%N, 1%N)]
     [(2%N, [mkColoredBalance iota (2 ^ 64 - 1); mkColoredBalance iota 2])] = Ok tt
   ∧ inputTotal unitLedger [(10%N, 1%N)] iota = 1%Z
   ∧ outputTotal [(2%N, [mkColoredBalance iota (2 ^ 64 - 1); mkColoredBalance iota 2])]
       iota = (2 ^ 64 + 1)%Z)
  ∧ (verifyTransfer 1 zeroLedger (mkReality MAIN_REALITY_ID ∅ ∅ 1) [(10%N, 1%N)] []
     = Err ErrUnbalancedTransfer
     ∧ ∀ color, inputTotal zeroLedger [(10%N, 1%N)] color = outputTotal [] color).
Proof.
  split; [vm_compute; repeat split|].
  split; [vm_compute; reflexivity|].
  intros color. unfold inputTotal, outputTotal, colorTotal. simpl.
  rewrite lookup_singleton_eq. simpl. destruct (decide (iota = color)); reflexivity.
Qed.

Section TransferFacts.

Variable emptyRealityId : RealityId.
Variable NewConflictSetId : TransferHash → AddressHash → ConflictId.
Variable aggregatedRealityId : gset RealityId → RealityId.
Variable addConsumer :
  TransferOutput → TransferHash → list (AddressHash * list ColoredBalance) →
  TransferOutput * option (list (TransferHash * list AddressHash)).

(** C7. A transfer rejected by verification (missing input, input not in
    reality, unbalanced) makes [bookTransfer] return that error with the
    ledger state it was given: no input was consumed, no conflict set or
    reality created, no output booked. *)
Theorem bookTransfer_rejected_unchanged (fuel : nat) (reality : Reality)
    (transferHash : TransferHash) (inputs : list TransferOutputReference)
    (outputs : list (AddressHash * list ColoredBalance)) (st : LedgerState)
    (e : Error) :
  verifyTransfer fuel st reality inputs outputs = Err e →
  bookTransfer emptyRealityId NewConflictSetId aggregatedRealityId addConsumer fuel
    reality transferHash inputs outputs st = (Err e, st)
  ∧ (e = ErrMissingInput ∨ e = ErrInputNotInReality ∨ e = ErrUnbalancedTransfer).
Proof.
  intros Hverify. split.
  - unfold bookTransfer. by rewrite Hverify.
  - by eapply verifyTransfer_Err.
Qed.

End TransferFacts.

(** Scenario 5 of the specification: inputs of 100 iota, outputs of 99. *)
Lemma bookTransfer_rejected_unchanged_witness :
  bookTransfer EMPTY_REALITY_ID exampleConflictSetId exampleAggregatedRealityId
    exampleAddConsumer 8 (mkReality MAIN_REALITY_ID ∅ ∅ 1) 11%N [(10%N, 1%N)]
    [(2%N, [mkColoredBalance iota 99])] genesisLedger
  = (Err ErrUnbalancedTransfer, genesisLedger)
  ∧ (ErrUnbalancedTransfer = ErrMissingInput
     ∨ ErrUnbalancedTransfer = ErrInputNotInReality
     ∨ ErrUnbalancedTransfer = ErrUnbalancedTransfer).
Proof.
  apply (bookTransfer_rejected_unchanged EMPTY_REALITY_ID exampleConflictSetId
           exampleAggregatedRealityId exampleAddConsumer 8 (mkReality MAIN_REALITY_ID ∅ ∅ 1) 11%N
           [(10%N, 1%N)] [(2%N, [mkColoredBalance iota 99])] genesisLedger
           ErrUnbalancedTransfer).
  vm_compute. reflexivity.
Defined.

(** ** Ancestry *)

Lemma resolves_parent (depth : nat) (st : LedgerState) (reality : Reality)
    (parentId : RealityId) :
  resolves (S depth) st reality = true →
  parentId ∈ parentRealityIds reality →
  ∃ parent, realities st !! parentId = Some parent
            ∧ id parent = parentId ∧ resolves depth st parent = true.
Proof.
  simpl. intros Hall Hin.
  rewrite forallb_forall in Hall.
  specialize (Hall parentId).
  destruct (realities st !! parentId) as [parent|].
  - exists parent.
    assert (H : bool_decide (id parent = parentId) && resolves depth st parent = true).
    { apply Hall. apply list_elem_of_In. by apply elem_of_elements. }
    apply andb_true_iff in H as [H1 H2].
    apply bool_decide_eq_true in H1. done.
  - exfalso. assert (false = true); [|done].
    apply Hall. apply list_elem_of_In. by apply elem_of_elements.
Qed.

Lemma loadParentRealities_spec (st : LedgerState) (parentIds : list RealityId)
    (acc : gmap RealityId Reality) :
  (∀ parentId, parentId ∈ parentIds →
     ∃ parent, realities st !! parentId = Some parent ∧ id parent = parentId) →
  ∃ m, loadParentRealities st parentIds acc = Ok m
       ∧ ∀ k r, m !! k = Some r ↔
                (k ∈ parentIds ∧ realities st !! k = Some r)
                ∨ ((k ∉ parentIds) ∧ acc !! k = Some r).
Proof.
  revert acc. induction parentIds as [|p ps IH]; intros acc Hall; simpl.
  - exists acc. split; [done|]. intros k r. split.
    + intros H. right. split; [apply not_elem_of_nil|done].
    + intros [[H _]|[_ H]]; [by apply not_elem_of_nil in H|done].
  - destruct (Hall p) as (parent & Hp & Hid); [by left|].
    rewrite Hp.
    destruct (IH (<[id parent := parent]> acc)) as (m & Hm & Hspec).
    { intros q Hq. apply Hall. by right. }
    exists m. split; [done|]. intros k r. rewrite Hspec, Hid. clear Hspec.
    rewrite !elem_of_cons.
    destruct (decide (k = p)) as [->|Hne].
    + rewrite lookup_insert_eq, Hp.
      destruct (decide (p ∈ ps)); naive_solver.
    + rewrite lookup_insert_ne by done. naive_solver.
Qed.

Lemma GetParentRealities_spec (st : LedgerState) (reality : Reality) :
  (∀ parentId, parentId ∈ parentRealityIds reality →
     ∃ parent, realities st !! parentId = Some parent ∧ id parent = parentId) →
  ∃ m, GetParentRealities st reality = Ok m
       ∧ ∀ k r, m !! k = Some r ↔
                k ∈ parentRealityIds reality ∧ realities st !! k = Some r.
Proof.
  intros Hall. unfold GetParentRealities.
  destruct (loadParentRealities_spec st (elements (parentRealityIds reality)) ∅)
    as (m & Hm & Hspec).
  { intros p Hp. apply Hall. by apply elem_of_elements. }
  exists m. split; [done|]. intros k r. rewrite Hspec, elem_of_elements.
  rewrite lookup_empty. naive_solver.
Qed.

Lemma addAncestors_foldl_spec (ancestorsOf : Reality → Res (gmap RealityId Reality))
    (entries : list (RealityId * Reality)) (acc : gmap RealityId Reality) :
  (∀ entry, entry ∈ entries → ∃ ancestors, ancestorsOf (snd entry) = Ok ancestors) →
  ∃ m, foldl (addAncestors ancestorsOf) (Ok acc) entries = Ok m
       ∧ ∀ a, a ∈ dom m ↔
              a ∈ dom acc
              ∨ ∃ entry, entry ∈ entries
                  ∧ (a = fst entry
                     ∨ ∃ ancestors, ancestorsOf (snd entry) = Ok ancestors
                                    ∧ a ∈ dom ancestors).
Proof.
  revert acc. induction entries as [|entry entries IH]; intros acc Hall; simpl.
  - exists acc. split; [done|]. intros a. split; [by left|].
    intros [H|(entry & H & _)]; [done|by apply not_elem_of_nil in H].
  - destruct (Hall entry) as [ancestors Hanc]; [by left|].
    rewrite Hanc.
    destruct (IH (ancestors ∪ <[entry.1 := entry.2]> acc)) as (m & Hm & Hspec).
    { intros e He. apply Hall. by right. }
    exists m. split; [done|]. intros a. rewrite Hspec. clear Hspec.
    rewrite dom_union, dom_insert, !elem_of_union, elem_of_singleton.
    split.
    + intros [[H|[H|H]]|(e & He & H)].
      * right. exists entry. split; [by left|]. right. by exists ancestors.
      * right. exists entry. split; [by left|]. by left.
      * by left.
      * right. exists e. split; [by right|done].
    + intros [H|(e & He & H)]; [by left; right; right|].
      apply elem_of_cons in He as [->|He].
      * left. destruct H as [->|(anc & Hanc' & H)]; [by right; left|].
        left. congruence.
      * right. by exists e.
Qed.

Lemma GetAncestorRealities_spec (depth fuel : nat) (st : LedgerState)
    (reality : Reality) :
  resolves depth st reality = true →
  depth ≤ fuel →
  ∃ m, GetAncestorRealities fuel st reality = Ok m
       ∧ ∀ a, a ∈ dom m ↔ Ancestor st reality a.
Proof.
  revert fuel reality.
  induction depth as [|depth IH]; intros fuel reality Hres Hfuel; [done|].
  destruct fuel as [|fuel]; [lia|]. simpl.
  destruct (GetParentRealities_spec st reality) as (ps & -> & Hps).
  { intros p Hp. destruct (resolves_parent _ _ _ _ Hres Hp) as (q & ? & ? & _).
    by exists q. }
  assert (Hentries : ∀ entry, entry ∈ map_to_list ps →
            entry.1 ∈ parentRealityIds reality
            ∧ realities st !! entry.1 = Some entry.2
            ∧ resolves depth st entry.2 = true).
  { intros [k p] Hin. apply elem_of_map_to_list in Hin. apply Hps in Hin as [Hk Hp].
    simpl. split; [done|]. split; [done|].
    destruct (resolves_parent _ _ _ _ Hres Hk) as (q & Hq & _ & Hr). congruence. }
  destruct (addAncestors_foldl_spec (GetAncestorRealities fuel st) (map_to_list ps) ∅)
    as (m & Hm & Hspec).
  { intros entry Hin. destruct (Hentries entry Hin) as (_ & _ & Hr).
    destruct (IH fuel entry.2 Hr ltac:(lia)) as (anc & Hanc & _). by exists anc. }
  exists m. split; [done|]. intros a. rewrite Hspec. clear Hspec. split.
  - intros [H|(entry & Hin & H)]; [by rewrite dom_empty in H|].
    destruct (Hentries entry Hin) as (Hk & Hp & Hr).
    destruct H as [->|(anc & Hanc & H)]; [by apply ancestor_parent|].
    destruct (IH fuel entry.2 Hr ltac:(lia)) as (anc' & Hanc' & Hdom).
    eapply ancestor_step; [done..|]. apply Hdom. congruence.
  - intros HA. right. inversion HA as [? ? Hin|? parentId parent ? Hin Hp Hanc]; subst.
    + destruct (resolves_parent _ _ _ _ Hres Hin) as (q & Hq & _ & _).
      exists (a, q). split; [|by left].
      apply elem_of_map_to_list. by apply Hps.
    + exists (parentId, parent). split.
      { apply elem_of_map_to_list. by apply Hps. }
      right. simpl.
      destruct (resolves_parent _ _ _ _ Hres Hin) as (q & Hq & _ & Hr).
      assert (q = parent) as -> by congruence.
      destruct (IH fuel parent Hr ltac:(lia)) as (anc & Hanc' & Hdom).
      exists anc. split; [done|]. by apply Hdom.
Qed.

Lemma descends_fold_spec (realityId : RealityId) (keys : list RealityId) (acc : bool) :
  foldl (fun descendsFromReality ancestorRealityId =>
           if decide (ancestorRealityId = realityId) then true
           else descendsFromReality) acc keys = true
  ↔ acc = true ∨ realityId ∈ keys.
Proof.
  revert acc. induction keys as [|k keys IH]; intros acc; simpl.
  - split; [by left|]. intros [H|H]; [done|by apply not_elem_of_nil in H].
  - rewrite IH, elem_of_cons. destruct (decide (k = realityId)); naive_solver.
Qed.

(** C6. For a reality whose ancestor chain resolves, with fuel for the
    depth of the chain, [DescendsFrom] returns, and it returns true exactly
    when the id is the reality's own or is reached from the reality by
    following parent edges. *)
Theorem DescendsFrom_iff_ancestor (depth fuel : nat) (st : LedgerState)
    (reality : Reality) (realityId : RealityId) :
  resolves depth st reality = true →
  depth ≤ fuel →
  ∃ b, DescendsFrom fuel st reality realityId = Ok b
       ∧ (b = true ↔ id reality = realityId ∨ Ancestor st reality realityId).
Proof.
  intros Hres Hfuel. unfold DescendsFrom.
  destruct (decide (id reality = realityId)) as [Heq|Hne].
  - exists true. split; [done|]. split; [by left|done].
  - destruct (GetAncestorRealities_spec depth fuel st reality Hres Hfuel)
      as (m & -> & Hdom).
    eexists. split; [reflexivity|].
    rewrite descends_fold_spec, <- Hdom, elem_of_dom.
    split.
    + intros [H|H]; [done|]. right.
      apply list_elem_of_fmap in H as ([k r] & -> & Hin).
      apply elem_of_map_to_list in Hin. by exists r.
    + intros [H|[r Hr]]; [done|]. right.
      apply list_elem_of_fmap. exists (realityId, r). split; [done|].
      by apply elem_of_map_to_list.
Qed.

Lemma DescendsFrom_iff_ancestor_witness :
  ∃ b, DescendsFrom 8 doubleSpendLedger (exampleReality doubleSpendLedger 11%N)
         MAIN_REALITY_ID = Ok b
       ∧ (b = true ↔
          id (exampleReality doubleSpendLedger 11%N) = MAIN_REALITY_ID
          ∨ Ancestor doubleSpendLedger (exampleReality doubleSpendLedger 11%N)
              MAIN_REALITY_ID).
Proof.
  apply (DescendsFrom_iff_ancestor 2 8 doubleSpendLedger
           (exampleReality doubleSpendLedger 11%N) MAIN_REALITY_ID).
  - vm_compute. reflexivity.
  - lia.
Defined.

(** ** Computations and what they preserve *)

Lemma bind_Ok_inv {A B} (m : M A) (k : A → M B) (st st' : LedgerState) (b : B) :
  bind m k st = (Ok b, st') →
  ∃ a st1, m st = (Ok a, st1) ∧ k a st1 = (Ok b, st').
Proof.
  unfold bind. destruct (m st) as [[a|e| |] st1]; try done.
  intros H. by exists a, st1.
Qed.

Lemma preserves_ret {A} (P : relation LedgerState) `{!Reflexive P} (a : A) :
  preserves P (ret a).
Proof. intros st r st' [= <- <-]. reflexivity. Qed.

Lemma preserves_throw {A} (P : relation LedgerState) `{!Reflexive P} (e : Error) :
  preserves P (throw (A := A) e).
Proof. intros st r st' [= <- <-]. reflexivity. Qed.

Lemma preserves_modify (P : relation LedgerState) (f : LedgerState → LedgerState) :
  (∀ st, P st (f st)) → preserves P (modify f).
Proof. intros Hf st r st' [= <- <-]. apply Hf. Qed.

Lemma preserves_bind {A B} (P : relation LedgerState) `{!Transitive P}
    (m : M A) (k : A → M B) :
  preserves P m → (∀ a, preserves P (k a)) → preserves P (bind m k).
Proof.
  intros Hm Hk st r st'. unfold bind.
  destruct (m st) as [[a|e| |] st1] eqn:E; intros H.
  - etransitivity; [by eapply Hm|by eapply Hk].
  - injection H as <- <-. by eapply Hm.
  - injection H as <- <-. by eapply Hm.
  - injection H as <- <-. by eapply Hm.
Qed.

Lemma preserves_forEach {A} (P : relation LedgerState) `{!Reflexive P}
    `{!Transitive P} (f : A → M unit) (l : list A) :
  (∀ a, preserves P (f a)) → preserves P (forEach f l).
Proof.
  intros Hf. induction l as [|a l IH]; simpl.
  - by apply preserves_ret.
  - apply preserves_bind; [done|apply Hf|]. intros _. apply IH.
Qed.

Lemma preserves_weaken {A} (P Q : relation LedgerState) (m : M A) :
  (∀ st st', P st st' → Q st st') → preserves P m → preserves Q m.
Proof. intros HPQ Hm st r st' H. apply HPQ. by eapply Hm. Qed.

#[local] Instance same_conflicts_refl : Reflexive same_conflicts.
Proof. by intros st. Qed.

#[local] Instance same_conflicts_trans : Transitive same_conflicts.
Proof. unfold same_conflicts. intros a b c H1 H2. congruence. Qed.

#[local] Instance conflicts_kept_refl : Reflexive conflicts_kept.
Proof. by intros st cid. Qed.

#[local] Instance conflicts_kept_trans : Transitive conflicts_kept.
Proof. intros a b c H1 H2 cid H. by apply H2, H1. Qed.

#[local] Instance realities_kept_refl : Reflexive realities_kept.
Proof. intros st rid r H. by exists r. Qed.

#[local] Instance realities_kept_trans : Transitive realities_kept.
Proof.
  intros a b c H1 H2 rid r H.
  destruct (H1 rid r H) as (r1 & Hr1 & ? & ? & ?).
  destruct (H2 rid r1 Hr1) as (r2 & Hr2 & ? & ? & ?).
  exists r2. repeat split; congruence.
Qed.

Lemma same_conflicts_kept (st st' : LedgerState) :
  same_conflicts st st' → conflicts_kept st st'.
Proof. unfold same_conflicts. intros H cid. by rewrite H. Qed.

Lemma releaseOldReality_same_conflicts (old : RealityId) :
  preserves same_conflicts (releaseOldReality old).
Proof.
  intros st r st'. unfold releaseOldReality, GetReality.
  destruct (realities st !! old) as [object|]; simpl.
  - destruct (decide _); intros [= <- <-]; reflexivity.
  - intros [= <- <-]; reflexivity.
Qed.

Lemma bookTransferOutput_same_conflicts (emptyRealityId reality : RealityId)
    (x : TransferOutput) :
  preserves same_conflicts (bookTransferOutput emptyRealityId reality x).
Proof.
  unfold bookTransferOutput.
  apply preserves_bind; [apply _| |intros _].
  - destruct (decide _); [by apply preserves_modify|].
    destruct (decide _); [|by apply preserves_ret].
    apply preserves_bind; [apply _|by apply preserves_modify|intros _].
    apply preserves_bind; [apply _|apply releaseOldReality_same_conflicts|intros _].
    by apply preserves_modify.
  - destruct (decide _); [|by apply preserves_ret].
    apply preserves_bind; [apply _|by apply preserves_modify|intros _].
    by apply preserves_modify.
Qed.

Lemma AggregateRealities_same_conflicts (aggregatedRealityId : gset RealityId → RealityId)
    (parentRealities : gset RealityId) :
  preserves same_conflicts (AggregateRealities aggregatedRealityId parentRealities).
Proof.
  intros st r st'. unfold AggregateRealities, GetReality.
  destruct (elements parentRealities) as [|p [|q l]];
    try (intros [= <- <-]; reflexivity);
    destruct (realities st !! aggregatedRealityId parentRealities);
    intros [= <- <-]; reflexivity.
Qed.

Lemma alter_present `{Countable K} {V} (f : V → V) (k : K) (v : V) (m : gmap K V) :
  m !! k = Some v → alter f k m = <[k := f v]> m.
Proof.
  intros Hk. apply map_eq. intros j. destruct (decide (k = j)) as [<-|Hne].
  - by rewrite lookup_alter_eq, lookup_insert_eq, Hk.
  - by rewrite lookup_alter_ne, lookup_insert_ne.
Qed.

Lemma bookTransferOutput_books (emptyRealityId reality : RealityId)
    (x : TransferOutput) (st : LedgerState) :
  realityId x = emptyRealityId ∨ realityId x = reality
    ∨ is_Some (realities st !! realityId x) →
  ∃ st', bookTransferOutput emptyRealityId reality x st = (Ok tt, st')
    ∧ (realityId x = emptyRealityId
       ∨ transferOutputs st !! storageKey x = Some x →
       realityId <$> transferOutputs st' !! storageKey x = Some reality).
Proof.
  intros Hold.
  unfold bookTransferOutput, releaseOldReality, GetReality. unfold_M.
  destruct (decide (realityId x = emptyRealityId)) as [Hempty|Hempty].
  - destruct (decide (realityId x ≠ reality)); eexists; (split; [reflexivity|]);
      intros _; simpl; by rewrite lookup_insert_eq.
  - destruct (decide (realityId x ≠ reality)) as [Hne|Heq].
    + destruct Hold as [?|[?|[old Hold]]]; [done..|].
      simpl. rewrite Hold. simpl.
      destruct (decide _); eexists; (split; [reflexivity|]);
        (intros [?|Hstored]; [done|]); simpl; by rewrite lookup_alter_eq, Hstored.
    + exists st. split; [done|]. intros [?|Hstored]; [done|].
      rewrite Hstored. simpl. f_equal.
      by destruct (decide (realityId x = reality)); [|exfalso; apply Heq].
Qed.

Section ElevationFacts.

Variable emptyRealityId : RealityId.
Variable aggregatedRealityId : gset RealityId → RealityId.

Lemma elevateCurrent_same_conflicts
    (elevate : RealityId → TransferOutputReference → RealityId → M unit)
    (reality : RealityId) (x : TransferOutput) (newRealityId : RealityId) :
  (∀ r ref n, preserves same_conflicts (elevate r ref n)) →
  preserves same_conflicts
    (elevateTransferOutputOfCurrentReality emptyRealityId elevate reality x newRealityId).
Proof.
  intros He. unfold elevateTransferOutputOfCurrentReality.
  apply preserves_bind; [apply _|apply bookTransferOutput_same_conflicts|intros _].
  apply preserves_forEach; try apply _. intros consumer.
  apply preserves_forEach; try apply _. intros a. apply He.
Qed.

Lemma elevateNested_same_conflicts
    (elevate : RealityId → TransferOutputReference → RealityId → M unit)
    (realityKey : RealityId) (reality : Reality) (x : TransferOutput)
    (oldParent newParent : RealityId) :
  (∀ r ref n, preserves same_conflicts (elevate r ref n)) →
  preserves same_conflicts
    (elevateTransferOutputOfNestedReality emptyRealityId aggregatedRealityId elevate
       realityKey reality x oldParent newParent).
Proof.
  intros He. unfold elevateTransferOutputOfNestedReality.
  destruct (negb _); [by apply preserves_modify|].
  apply preserves_bind; [apply _|apply AggregateRealities_same_conflicts|].
  intros aggregated st r st'.
  destruct (GetReality aggregated st).
  - by apply elevateCurrent_same_conflicts.
  - intros [= <- <-]. reflexivity.
Qed.

Lemma elevateTransferOutput_same_conflicts (fuel : nat) (reality : RealityId)
    (ref : TransferOutputReference) (newRealityId : RealityId) :
  preserves same_conflicts
    (elevateTransferOutput emptyRealityId aggregatedRealityId fuel reality ref
       newRealityId).
Proof.
  revert reality ref newRealityId.
  induction fuel as [|fuel IH]; intros reality ref newRealityId st r st'; simpl.
  - intros [= <- <-]. reflexivity.
  - destruct (GetTransferOutput ref st) as [x|]; [|intros [= <- <-]; reflexivity].
    destruct (decide _).
    + by apply elevateCurrent_same_conflicts.
    + destruct (GetReality (realityId x) st).
      * by apply elevateNested_same_conflicts.
      * intros [= <- <-]. reflexivity.
Qed.

(** Elevation of an output that the booking reality owns and that nobody
    has spent: the output is rebooked into the new reality, and that is
    all. *)
Lemma elevateTransferOutput_moves_unspent (fuel : nat) (reality : RealityId)
    (ref : TransferOutputReference) (newRealityId : RealityId) (st : LedgerState)
    (x : TransferOutput) :
  transferOutputs st !! ref = Some x →
  storageKey x = ref →
  realityId x = reality →
  consumers x = [] →
  is_Some (realities st !! reality) →
  ∃ st', elevateTransferOutput emptyRealityId aggregatedRealityId (S fuel) reality
           ref newRealityId st = (Ok tt, st')
    ∧ bookTransferOutput emptyRealityId newRealityId x st = (Ok tt, st')
    ∧ realityId <$> transferOutputs st' !! ref = Some newRealityId.
Proof.
  intros Hx Hkey Hreality Hconsumers Hexists.
  destruct (bookTransferOutput_books emptyRealityId newRealityId x st)
    as (st' & Hbook & Hbooked).
  { right; right. by rewrite Hreality. }
  exists st'. split; [|split; [done|]].
  - cbn [elevateTransferOutput]. unfold GetTransferOutput.
    rewrite Hx, decide_True by done.
    unfold elevateTransferOutputOfCurrentReality, bind.
    by rewrite Hbook, Hconsumers.
  - rewrite <- Hkey. apply Hbooked. right. by rewrite Hkey.
Qed.


(** ** Conflict sets *)

Variable NewConflictSetId : TransferHash → AddressHash → ConflictId.

Lemma elevateAddresses_same_conflicts
    (elevate : RealityId → TransferOutputReference → RealityId → M unit)
    (reality : RealityId) (h : TransferHash) (addressHashes : list AddressHash)
    (elevatedReality : RealityId) (err : option Error) :
  (∀ r ref n, preserves same_conflicts (elevate r ref n)) →
  preserves same_conflicts
    (elevateAddresses elevate reality h addressHashes elevatedReality err).
Proof.
  intros He. revert err.
  induction addressHashes as [|a l IH]; intros err st r st'; simpl.
  - intros [= <- <-]. reflexivity.
  - destruct (elevate reality (NewTransferOutputReference h a) elevatedReality st)
      as [[u|e| |] st1] eqn:E; intros H.
    + etransitivity; [by eapply He|by eapply IH].
    + injection H as <- <-. by eapply He.
    + injection H as <- <-. by eapply He.
    + injection H as <- <-. by eapply He.
Qed.

Lemma createRealityForConflictingConsumers_cons
    (elevate : RealityId → TransferOutputReference → RealityId → M unit)
    (reality : RealityId) (h : TransferHash) (addressHashes : list AddressHash)
    (rest : list (TransferHash * list AddressHash)) (conflictSet : ConflictId)
    (err : option Error) (st : LedgerState) :
  createRealityForConflictingConsumers elevate reality ((h, addressHashes) :: rest)
    conflictSet err st
  = bind (elevateAddresses elevate reality h addressHashes (ToRealityId h) err)
      (fun err' =>
         createRealityForConflictingConsumers elevate reality rest conflictSet err')
      (registerElevatedReality reality h conflictSet st).
Proof. reflexivity. Qed.

Lemma createRealityForConflictingConsumers_registers
    (elevate : RealityId → TransferOutputReference → RealityId → M unit)
    (reality : RealityId) (conflictingConsumers : list (TransferHash * list AddressHash))
    (conflictSet : ConflictId) (err : option Error) (st st' : LedgerState)
    (result : option Error) (c : Conflict) :
  (∀ r ref n, preserves same_conflicts (elevate r ref n)) →
  createRealityForConflictingConsumers elevate reality conflictingConsumers
    conflictSet err st = (Ok result, st') →
  conflictSets st !! conflictSet = Some c →
  ∃ c', conflictSets st' !! conflictSet = Some c'
        ∧ conflict_id c' = conflict_id c
        ∧ conflict_realities c ⊆ conflict_realities c'
        ∧ ∀ consumer, consumer ∈ conflictingConsumers →
            ToRealityId (fst consumer) ∈ conflict_realities c'.
Proof.
  intros He. revert err st c.
  induction conflictingConsumers as [|[h addressHashes] rest IH]; intros err st c.
  - simpl. intros [= <- <-] Hc. exists c. repeat split; [done..|].
    intros consumer H. by apply not_elem_of_nil in H.
  - rewrite createRealityForConflictingConsumers_cons. intros H Hc.
    apply bind_Ok_inv in H as (err' & st1 & Haddr & Hrest).
    apply (elevateAddresses_same_conflicts _ _ _ _ _ _ He) in Haddr.
    unfold same_conflicts in Haddr.
    assert (Hc1 : conflictSets st1 !! conflictSet = Some (AddReality (ToRealityId h) c)).
    { rewrite Haddr. unfold registerElevatedReality. simpl.
      by rewrite lookup_alter_eq, Hc. }
    destruct (IH _ _ _ Hrest Hc1) as (c' & Hc' & Hid & Hsub & Hall).
    exists c'. split; [done|]. split; [done|]. simpl in Hsub.
    split; [set_solver|].
    intros consumer [->|Hin]%elem_of_cons; [simpl; set_solver|by apply Hall].
Qed.

Lemma createRealityForConflictingConsumers_conflicts_kept
    (elevate : RealityId → TransferOutputReference → RealityId → M unit)
    (reality : RealityId) (conflictingConsumers : list (TransferHash * list AddressHash))
    (conflictSet : ConflictId) (err : option Error) :
  (∀ r ref n, preserves same_conflicts (elevate r ref n)) →
  preserves conflicts_kept
    (createRealityForConflictingConsumers elevate reality conflictingConsumers
       conflictSet err).
Proof.
  intros He. revert err.
  induction conflictingConsumers as [|[h addressHashes] rest IH]; intros err.
  - change (preserves conflicts_kept (ret err)). apply preserves_ret. apply _.
  - intros st r st'. rewrite createRealityForConflictingConsumers_cons. intros H.
    transitivity (registerElevatedReality reality h conflictSet st).
    + intros cid. unfold registerElevatedReality. simpl.
      rewrite lookup_alter. destruct (decide _); [|done].
      subst. intros [c ->]. by eexists.
    + revert H. apply preserves_bind; [apply _| |intros err'; apply IH].
      eapply preserves_weaken; [apply same_conflicts_kept|].
      by apply elevateAddresses_same_conflicts.
Qed.



Lemma retrieveConflictSet_conflicts_kept
    (elevate : RealityId → TransferOutputReference → RealityId → M unit)
    (reality : RealityId) (input : TransferOutput)
    (consumersToElevate : list (TransferHash * list AddressHash)) :
  (∀ r ref n, preserves same_conflicts (elevate r ref n)) →
  preserves conflicts_kept
    (retrieveConflictSetForConflictingInput NewConflictSetId elevate reality input
       consumersToElevate).
Proof.
  intros He. unfold retrieveConflictSetForConflictingInput.
  destruct (bool_decide _).
  - apply preserves_bind; [apply _| |intros _].
    { apply preserves_modify. intros st cid. simpl.
      rewrite lookup_insert. destruct (decide _); [by eexists|done]. }
    apply preserves_bind; [apply _| |intros err].
    { by apply createRealityForConflictingConsumers_conflicts_kept. }
    destruct err; [apply preserves_throw|apply preserves_ret]; apply _.
  - intros st r st'. destruct (conflictSets st !! _); intros [= <- <-]; reflexivity.
Qed.

Lemma retrieveConflictSet_result_exists
    (elevate : RealityId → TransferOutputReference → RealityId → M unit)
    (reality : RealityId) (input : TransferOutput)
    (consumersToElevate : list (TransferHash * list AddressHash))
    (st st' : LedgerState) (conflictSet : ConflictId) :
  (∀ r ref n, preserves same_conflicts (elevate r ref n)) →
  retrieveConflictSetForConflictingInput NewConflictSetId elevate reality input
    consumersToElevate st = (Ok conflictSet, st') →
  is_Some (conflictSets st' !! conflictSet).
Proof.
  intros He. unfold retrieveConflictSetForConflictingInput.
  destruct (bool_decide _).
  - intros H. apply bind_Ok_inv in H as (u & st0 & Hst0 & H).
    injection Hst0 as _ <-.
    apply bind_Ok_inv in H as (err & st1 & Hcreate & H).
    destruct err; [done|]. injection H as <- <-.
    eapply (createRealityForConflictingConsumers_conflicts_kept _ _ _ _ _ He);
      [exact Hcreate|].
    simpl. rewrite lookup_insert_eq. by eexists.
  - destruct (conflictSets st !! _) eqn:E; [|done]. intros [= <- <-]. by eexists.
Qed.

Variable addConsumer :
  TransferOutput → TransferHash → list (AddressHash * list ColoredBalance) →
  TransferOutput * option (list (TransferHash * list AddressHash)).

Lemma consumeInputs_conflicts_exist
    (elevate : RealityId → TransferOutputReference → RealityId → M unit)
    (reality : RealityId) (inputs : list TransferOutputReference)
    (h : TransferHash) (outputs : list (AddressHash * list ColoredBalance))
    (acc result : list ConflictId) (st st' : LedgerState) :
  (∀ r ref n, preserves same_conflicts (elevate r ref n)) →
  consumeInputs NewConflictSetId addConsumer elevate reality inputs h outputs acc st
  = (Ok result, st') →
  (∀ cid, cid ∈ acc → is_Some (conflictSets st !! cid)) →
  ∀ cid, cid ∈ result → is_Some (conflictSets st' !! cid).
Proof.
  intros He. revert acc st.
  induction inputs as [|input rest IH]; intros acc st; simpl.
  - intros [= <- <-]. done.
  - unfold GetTransferOutput.
    destruct (transferOutputs st !! input) as [x|]; [|done].
    destruct (addConsumer x h outputs) as [consumed [toElevate|]].
    1: { intros H Hacc. apply bind_Ok_inv in H as (c & st1 & Hretrieve & H).
      eapply IH; [exact H|].
      intros cid [Hin|Hin]%elem_of_app;
        [|apply list_elem_of_singleton in Hin as ->].
      * eapply (retrieveConflictSet_conflicts_kept _ _ _ _ He); [exact Hretrieve|].
        simpl. by apply Hacc.
      * by eapply retrieveConflictSet_result_exists. }
    intros H Hacc. eapply IH; [exact H|]. simpl. exact Hacc.
Qed.

(** ** Booking the outputs of a transfer *)

#[local] Instance registered_refl (target : RealityId) : Reflexive (registered target).
Proof.
  intros st. split.
  - intros r Hr. by exists r.
  - intros cid c Hc. by exists c.
Qed.

#[local] Instance registered_trans (target : RealityId) : Transitive (registered target).
Proof.
  intros a b c [R1 C1] [R2 C2]. split.
  - intros r Hr. destruct (R1 r Hr) as (r1 & Hr1 & ? & ? & ?).
    destruct (R2 r1 Hr1) as (r2 & Hr2 & ? & ? & ?).
    exists r2. repeat split; [done|congruence|congruence|set_solver].
  - intros cid x Hx. destruct (C1 cid x Hx) as (x1 & Hx1 & ? & ?).
    destruct (C2 cid x1 Hx1) as (x2 & Hx2 & ? & ?).
    exists x2. repeat split; [done|congruence|set_solver].
Qed.

Lemma registerConflictSet_registered (target : RealityId) (cid : ConflictId)
    (c : Conflict) (st : LedgerState) :
  conflictSets st !! cid = Some c →
  ∃ st', registerConflictSet target cid st = (Ok tt, st')
    ∧ registered target st st'
    ∧ transferOutputs st' = transferOutputs st
    ∧ conflictSets st' !! cid = Some (AddReality target c)
    ∧ realities st' !! target
      = AddConflictSet (conflict_id c) <$> realities st !! target.
Proof.
  intros Hc. unfold registerConflictSet. rewrite Hc. eexists. split; [reflexivity|].
  split; [split|].
  - intros r Hr. simpl. rewrite lookup_alter_eq, Hr. eexists. split; [reflexivity|].
    simpl. repeat split. set_solver.
  - intros cid' c' Hc'. simpl. rewrite lookup_alter.
    destruct (decide (cid = cid')) as [<-|].
    + rewrite Hc'. eexists. split; [reflexivity|]. simpl. split; [done|set_solver].
    + by exists c'.
  - simpl. by rewrite !lookup_alter_eq, Hc.
Qed.

Lemma registerConflictSets_spec (target : RealityId) (conflictSets' : list ConflictId)
    (st : LedgerState) (r0 : Reality) :
  realities st !! target = Some r0 →
  (∀ cid, cid ∈ conflictSets' → is_Some (conflictSets st !! cid)) →
  ∃ st', forEach (registerConflictSet target) conflictSets' st = (Ok tt, st')
    ∧ registered target st st'
    ∧ transferOutputs st' = transferOutputs st
    ∧ ∀ cid, cid ∈ conflictSets' →
        ∃ c tr, conflictSets st' !! cid = Some c
                ∧ realities st' !! target = Some tr
                ∧ target ∈ conflict_realities c
                ∧ conflict_id c ∈ conflictIds tr.
Proof.
  revert st r0. induction conflictSets' as [|cid rest IH]; intros st r0 Hr0 Hall.
  - exists st. split; [done|]. split; [reflexivity|]. split; [done|].
    intros cid H. by apply not_elem_of_nil in H.
  - destruct (Hall cid) as [c Hc]; [by left|].
    destruct (registerConflictSet_registered target cid c st Hc)
      as (st1 & Hstep & Hreg1 & Houts1 & Hc1 & Hr1).
    rewrite Hr0 in Hr1. simpl in Hr1.
    destruct (IH st1 _ Hr1) as (st' & Hloop & Hreg & Houts & Hpost).
    { intros cid' Hin. destruct Hreg1 as [_ HC].
      destruct (Hall cid') as [c' Hc']; [by right|].
      destruct (HC cid' c' Hc') as (c'' & -> & _). by eexists. }
    exists st'. split.
    { simpl. unfold bind. by rewrite Hstep. }
    split; [by etransitivity|]. split; [congruence|].
    intros cid' [->|Hin]%elem_of_cons; [|by apply Hpost].
    destruct Hreg as [HR HC].
    destruct (HR _ Hr1) as (tr & Htr & _ & _ & Hsub).
    destruct (HC _ _ Hc1) as (c' & Hc' & Hid & Hsub').
    exists c', tr. split; [done|]. split; [done|]. simpl in *.
    split; [set_solver|]. rewrite Hid. set_solver.
Qed.

Lemma bookTransferOutput_new (target : RealityId) (h : TransferHash)
    (a : AddressHash) (coloredBalances : list ColoredBalance) (st : LedgerState) :
  ∃ st', bookTransferOutput emptyRealityId target
           (NewTransferOutput emptyRealityId h a coloredBalances) st = (Ok tt, st')
    ∧ transferOutputs st'
      = <[(h, a) := NewTransferOutput target h a coloredBalances]> (transferOutputs st)
    ∧ conflictSets st' = conflictSets st
    ∧ realities_kept st st'.
Proof.
  unfold bookTransferOutput. unfold_M. simpl.
  rewrite decide_True by done.
  destruct (decide (emptyRealityId ≠ target)); eexists; (split; [reflexivity|]);
    simpl; (split; [done|]); (split; [done|]).
  - intros rid r Hr. simpl. rewrite lookup_alter. destruct (decide _) as [->|].
    + rewrite Hr. by eexists.
    + by exists r.
  - intros rid r Hr. by exists r.
Qed.

Lemma bookOutputs_spec (target : RealityId) (h : TransferHash)
    (outputs : list (AddressHash * list ColoredBalance)) (st : LedgerState) :
  ∃ st', bookOutputs emptyRealityId target h outputs st = (Ok tt, st')
    ∧ conflictSets st' = conflictSets st
    ∧ realities_kept st st'
    ∧ (∀ output, output ∈ outputs →
         ∃ x, transferOutputs st' !! (h, fst output) = Some x ∧ realityId x = target)
    ∧ (∀ k x, transferOutputs st !! k = Some x → realityId x = target →
         ∃ x', transferOutputs st' !! k = Some x' ∧ realityId x' = target).
Proof.
  unfold bookOutputs. revert st.
  induction outputs as [|[a coloredBalances] rest IH]; intros st.
  - exists st. split; [done|]. split; [done|]. split; [reflexivity|]. split.
    + intros o H. by apply not_elem_of_nil in H.
    + intros k x Hx Hr. by exists x.
  - destruct (bookTransferOutput_new target h a coloredBalances st)
      as (st1 & Hbook & Houts & Hcs & Hrs).
    destruct (IH st1) as (st' & Hloop & Hcs' & Hrs' & Hnew & Hold).
    exists st'. split.
    { simpl. unfold bind. simpl in Hbook. by rewrite Hbook. }
    split; [congruence|]. split; [by etransitivity|]. split.
    + intros o [->|Hin]%elem_of_cons; [|by apply Hnew].
      simpl. apply (Hold _ (NewTransferOutput target h a coloredBalances)); [|done].
      by rewrite Houts, lookup_insert_eq.
    + intros k x Hx Hr.
      destruct (decide (k = (h, a))) as [->|Hne].
      * apply (Hold _ (NewTransferOutput target h a coloredBalances)); [|done].
        by rewrite Houts, lookup_insert_eq.
      * apply (Hold _ x); [|done]. by rewrite Houts, lookup_insert_ne.
Qed.

(** C1. After verification has passed, [bookTransfer] books the outputs
    according to what consuming the inputs returned.  With at least one
    conflict set, every output is booked into the reality whose id is the
    transfer hash and whose only parent is the booking reality; every
    returned conflict set lists that reality, and that reality lists the id
    of every returned conflict set.  With no conflict set, every output is
    booked into the booking reality itself. *)
Theorem bookTransfer_books_outputs (fuel : nat) (reality : Reality)
    (h : TransferHash) (inputs : list TransferOutputReference)
    (outputs : list (AddressHash * list ColoredBalance))
    (st st1 : LedgerState) (returned : list ConflictId) :
  verifyTransfer fuel st reality inputs outputs = Ok tt →
  consumeInputs NewConflictSetId addConsumer
    (elevateTransferOutput emptyRealityId aggregatedRealityId fuel) (id reality)
    inputs h outputs [] st = (Ok returned, st1) →
  ∃ st2,
    bookTransfer emptyRealityId NewConflictSetId aggregatedRealityId addConsumer fuel
      reality h inputs outputs st = (Ok tt, st2)
    ∧ (returned ≠ [] →
       ∃ target,
         realities st2 !! ToRealityId h = Some target
         ∧ id target = ToRealityId h
         ∧ parentRealityIds target = {[id reality]}
         ∧ (∀ cid, cid ∈ returned →
              ∃ c, conflictSets st2 !! cid = Some c
                   ∧ ToRealityId h ∈ conflict_realities c
                   ∧ conflict_id c ∈ conflictIds target)
         ∧ ∀ output, output ∈ outputs →
             ∃ x, transferOutputs st2 !! (h, fst output) = Some x
                  ∧ realityId x = ToRealityId h)
    ∧ (returned = [] →
       ∀ output, output ∈ outputs →
         ∃ x, transferOutputs st2 !! (h, fst output) = Some x
              ∧ realityId x = id reality).
Proof.
  intros Hverify Hconsume.
  assert (Hexist : ∀ cid, cid ∈ returned → is_Some (conflictSets st1 !! cid)).
  { eapply consumeInputs_conflicts_exist; [|exact Hconsume|].
    - intros r ref n. apply elevateTransferOutput_same_conflicts.
    - intros cid H. by apply not_elem_of_nil in H. }
  unfold bookTransfer. rewrite Hverify. unfold bind at 1. rewrite Hconsume.
  destruct returned as [|cid0 rest].
  - simpl.
    destruct (bookOutputs_spec (id reality) h outputs st1)
      as (st2 & Hbook & _ & _ & Hnew & _).
    exists st2. split; [done|]. split; [done|]. intros _. exact Hnew.
  - rewrite bool_decide_eq_true_2 by (simpl; lia).
    unfold bind at 1. unfold CreateReality at 1.
    set (st1' := set_realities
                   (insert (ToRealityId h)
                      (newReality (ToRealityId h) {[id reality]})) st1).
    destruct (registerConflictSets_spec (ToRealityId h) (cid0 :: rest) st1'
                (newReality (ToRealityId h) {[id reality]}))
      as (st1'' & Hreg & [HR _] & _ & Hpost).
    { unfold st1'. simpl. by rewrite lookup_insert_eq. }
    { intros cid Hin. unfold st1'. simpl. by apply Hexist. }
    destruct (bookOutputs_spec (ToRealityId h) h outputs st1'')
      as (st2 & Hbook & Hcs & Hrs & Hnew & _).
    exists st2. split.
    { unfold bind. rewrite Hreg. exact Hbook. }
    split; [|done]. intros _.
    destruct (HR (newReality (ToRealityId h) {[id reality]}))
      as (tr & Htr & Hid & Hparents & _).
    { unfold st1'. simpl. by rewrite lookup_insert_eq. }
    destruct (Hrs _ _ Htr) as (target & Htarget & Hid' & Hparents' & Hcids).
    exists target. split; [done|]. split; [by rewrite Hid', Hid|].
    split; [by rewrite Hparents', Hparents|]. split; [|exact Hnew].
    intros cid Hin. destruct (Hpost cid Hin) as (c & tr' & Hc & Htr' & Hin1 & Hin2).
    exists c. split; [by rewrite Hcs|]. split; [done|].
    rewrite Hcids. congruence.
Qed.

End ElevationFacts.

(** Scenarios 2 and 3 of the specification, run on the model: after T2 has
    spent G a second time, the conflict set of G lists the realities of T1
    and T2, both children of MAIN; the output of T1 and the output of T3
    that spends it have moved from MAIN into the reality of T1; the output
    of T2 is in the reality of T2; G itself stays in MAIN. *)
Example double_spend_scenario :
  (conflict_realities <$>
     conflictSets doubleSpendLedger !! exampleConflictSetId 10%N 1%N)
  = Some {[ 11%N; 12%N ]}
  ∧ (parentRealityIds <$> realities doubleSpendLedger !! 11%N)
    = Some {[ MAIN_REALITY_ID ]}
  ∧ (parentRealityIds <$> realities doubleSpendLedger !! 12%N)
    = Some {[ MAIN_REALITY_ID ]}
  ∧ (realityId <$> transferOutputs doubleSpendLedger !! (11%N, 2%N)) = Some 11%N
  ∧ (realityId <$> transferOutputs doubleSpendLedger !! (13%N, 4%N)) = Some 11%N
  ∧ (realityId <$> transferOutputs doubleSpendLedger !! (12%N, 3%N)) = Some 12%N
  ∧ (realityId <$> transferOutputs doubleSpendLedger !! (10%N, 1%N))
    = Some MAIN_REALITY_ID
  ∧ (transferOutputCount <$> realities doubleSpendLedger !! MAIN_REALITY_ID)
    = Some 1%Z.
Proof. vm_compute. repeat split. Qed.

Lemma bookTransfer_books_outputs_witness :
  ∃ st2,
    bookTransfer EMPTY_REALITY_ID exampleConflictSetId exampleAggregatedRealityId
      exampleAddConsumer 8 (exampleReality chainLedger MAIN_REALITY_ID) 12%N [(10%N, 1%N)]
      [(3%N, [mkColoredBalance iota 100])] chainLedger = (Ok tt, st2)
    ∧ ([exampleConflictSetId 10%N 1%N] ≠ [] →
       ∃ target,
         realities st2 !! ToRealityId 12%N = Some target
         ∧ id target = ToRealityId 12%N
         ∧ parentRealityIds target = {[id (exampleReality chainLedger MAIN_REALITY_ID)]}
         ∧ (∀ cid, cid ∈ [exampleConflictSetId 10%N 1%N] →
              ∃ c, conflictSets st2 !! cid = Some c
                   ∧ ToRealityId 12%N ∈ conflict_realities c
                   ∧ conflict_id c ∈ conflictIds target)
         ∧ ∀ output, output ∈ [(3%N, [mkColoredBalance iota 100])] →
             ∃ x, transferOutputs st2 !! (12%N, fst output) = Some x
                  ∧ realityId x = ToRealityId 12%N)
    ∧ ([exampleConflictSetId 10%N 1%N] = [] →
       ∀ output, output ∈ [(3%N, [mkColoredBalance iota 100])] →
         ∃ x, transferOutputs st2 !! (12%N, fst output) = Some x
              ∧ realityId x = id (exampleReality chainLedger MAIN_REALITY_ID)).
Proof.
  apply (bookTransfer_books_outputs EMPTY_REALITY_ID exampleAggregatedRealityId
           exampleConflictSetId exampleAddConsumer 8 (exampleReality chainLedger MAIN_REALITY_ID)
           12%N [(10%N, 1%N)] [(3%N, [mkColoredBalance iota 100])] chainLedger
           (snd doubleSpendConsumed) [exampleConflictSetId 10%N 1%N]).
  - vm_compute. reflexivity.
  - vm_compute. reflexivity.
Defined.


(** * Further properties of the booking code *)

(** ** The balance check *)

Lemma verifyTransfer_balance_modular_witness :
  verifyTransfer 1 unitLedger (mkReality MAIN_REALITY_ID ∅ ∅ 1) [(10%N, 1%N)]
    [(2%N, [mkColoredBalance iota 1])] = Ok tt
  ↔ ∀ color,
      (color ∈ map GetColor (outputBalances [(2%N, [mkColoredBalance iota 1])]) →
       wrap64 (colorTotal color (inputBalances unitLedger [(10%N, 1%N)])
               - colorTotal color (outputBalances [(2%N, [mkColoredBalance iota 1])]))
       = 0%Z)
      ∧ (color ∈ map GetColor (inputBalances unitLedger [(10%N, 1%N)]) →
         color ∈ map GetColor (outputBalances [(2%N, [mkColoredBalance iota 1])])).
Proof.
  apply (verifyTransfer_balance_modular 1 unitLedger (mkReality MAIN_REALITY_ID ∅ ∅ 1)
           [(10%N, 1%N)] [(2%N, [mkColoredBalance iota 1])]
           {[ iota := 1%Z ]}).
  vm_compute. reflexivity.
Defined.

Lemma colorTotal_Permutation (color : Color) (bs bs' : list ColoredBalance) :
  bs ≡ₚ bs' → colorTotal color bs = colorTotal color bs'.
Proof.
  induction 1 as [|b bs bs' _ IH|b b' bs|bs bs' bs'' _ IH1 _ IH2].
  - done.
  - by rewrite !colorTotal_cons, IH.
  - rewrite !colorTotal_cons. repeat destruct (decide _); lia.
  - congruence.
Qed.

Lemma foldl_subBalance_Permutation (totals : gmap Color Z)
    (bs bs' : list ColoredBalance) :
  bs ≡ₚ bs' → foldl subBalance totals bs = foldl subBalance totals bs'.
Proof.
  intros Hperm. apply map_eq. intros color.
  rewrite !foldl_subBalance_lookup, (colorTotal_Permutation _ _ _ Hperm).
  assert (Hin : color ∈ map GetColor bs ↔ color ∈ map GetColor bs').
  { by rewrite (Permutation_map GetColor Hperm). }
  destruct (decide (color ∈ map GetColor bs)) as [H|H];
    destruct (decide (color ∈ map GetColor bs')) as [H'|H']; tauto.
Qed.

(** X2. The outputs of a transfer are a Go map, ranged over in no fixed order:
    the verdict of [verifyTransfer] is the same for every order. *)
Theorem verifyTransfer_outputs_order (fuel : nat) (st : LedgerState)
    (reality : Reality) (inputs : list TransferOutputReference)
    (outputs outputs' : list (AddressHash * list ColoredBalance)) :
  outputs ≡ₚ outputs' →
  verifyTransfer fuel st reality inputs outputs
  = verifyTransfer fuel st reality inputs outputs'.
Proof.
  intros Hperm. unfold verifyTransfer.
  destruct (verifyInputs fuel st reality inputs ∅) as [totals|e| |]; try done.
  rewrite !subOutputs_flat.
  rewrite (foldl_subBalance_Permutation totals (outputBalances outputs)
             (outputBalances outputs')); [done|].
  unfold outputBalances. by apply Permutation_flat_map.
Qed.

Lemma verifyTransfer_outputs_order_witness :
  verifyTransfer 1 unitLedger (mkReality MAIN_REALITY_ID ∅ ∅ 1) [(10%N, 1%N)]
    [(2%N, [mkColoredBalance iota (2 ^ 64 - 1)]); (3%N, [mkColoredBalance iota 2])]
  = verifyTransfer 1 unitLedger (mkReality MAIN_REALITY_ID ∅ ∅ 1) [(10%N, 1%N)]
      [(3%N, [mkColoredBalance iota 2]); (2%N, [mkColoredBalance iota (2 ^ 64 - 1)])].
Proof.
  apply (verifyTransfer_outputs_order 1 unitLedger (mkReality MAIN_REALITY_ID ∅ ∅ 1)
           [(10%N, 1%N)]).
  apply perm_swap.
Defined.

(** ** Parents and ancestors *)

Lemma loadParentRealities_Panic_iff (st : LedgerState) (parentIds : list RealityId)
    (acc : gmap RealityId Reality) :
  (loadParentRealities st parentIds acc = Panic
   ↔ ∃ parentId, parentId ∈ parentIds ∧ realities st !! parentId = None)
  ∧ (loadParentRealities st parentIds acc ≠ Panic →
     ∃ m, loadParentRealities st parentIds acc = Ok m).
Proof.
  revert acc. induction parentIds as [|p ps IH]; intros acc; simpl.
  - split; [|by eexists]. split; [done|].
    intros (q & Hq & _). by apply not_elem_of_nil in Hq.
  - destruct (realities st !! p) as [r|] eqn:Hp.
    + destruct (IH (<[id r := r]> acc)) as [IH1 IH2]. split; [|done].
      rewrite IH1. split.
      * intros (q & Hq & Hnone). exists q. split; [by right|done].
      * intros (q & [->|Hq]%elem_of_cons & Hnone); [congruence|by exists q].
    + split; [|done]. split; [|done]. intros _. exists p. split; [by left|done].
Qed.

(** X3. [GetParentRealities] panics exactly when some parent id is not in the
    store, and returns the loaded parents otherwise; with a parent missing,
    [DescendsFrom] panics for every id but the reality's own. *)
Theorem GetParentRealities_panics_iff_missing (st : LedgerState) (reality : Reality) :
  (GetParentRealities st reality = Panic
   ↔ ∃ parentId, parentId ∈ parentRealityIds reality
                 ∧ realities st !! parentId = None)
  ∧ (GetParentRealities st reality ≠ Panic →
     ∃ m, GetParentRealities st reality = Ok m)
  ∧ (GetParentRealities st reality = Panic →
     ∀ fuel realityId,
       DescendsFrom (S fuel) st reality realityId
       = if decide (id reality = realityId) then Ok true else Panic).
Proof.
  unfold GetParentRealities.
  destruct (loadParentRealities_Panic_iff st (elements (parentRealityIds reality)) ∅)
    as [H1 H2].
  split; [|split; [done|]].
  - rewrite H1. by setoid_rewrite elem_of_elements.
  - intros Hpanic fuel realityId. unfold DescendsFrom. simpl.
    unfold GetParentRealities. by rewrite Hpanic.
Qed.

(** ** The transfer-output count *)

(** X4. Increasing and then decreasing the count of a reality, or the other way
    round, gives back a count that is in the range of a uint32, also across
    the wrap at 0 and at 2^32 - 1. *)
Theorem transferOutputCount_round_trip (reality : Reality) :
  (0 ≤ transferOutputCount reality < 2 ^ 32)%Z →
  snd (DecreaseTransferOutputCount (snd (IncreaseTransferOutputCount reality)))
  = reality
  ∧ snd (IncreaseTransferOutputCount (snd (DecreaseTransferOutputCount reality)))
    = reality.
Proof.
  intros Hrange. destruct reality as [i ps cs c]. simpl in *.
  unfold DecreaseTransferOutputCount, IncreaseTransferOutputCount. simpl.
  rewrite uint32_not_0. unfold wrap32.
  split; f_equal.
  - rewrite Zplus_mod_idemp_l.
    replace (c + 1 + (2 ^ 32 - 1))%Z with (c + 1 * 2 ^ 32)%Z by lia.
    rewrite Z_mod_plus_full. by apply Z.mod_small.
  - rewrite Zplus_mod_idemp_l.
    replace (c + (2 ^ 32 - 1) + 1)%Z with (c + 1 * 2 ^ 32)%Z by lia.
    rewrite Z_mod_plus_full. by apply Z.mod_small.
Qed.

Lemma transferOutputCount_round_trip_witness :
  snd (DecreaseTransferOutputCount
         (snd (IncreaseTransferOutputCount
                 (mkReality MAIN_REALITY_ID ∅ ∅ (2 ^ 32 - 1)))))
  = mkReality MAIN_REALITY_ID ∅ ∅ (2 ^ 32 - 1)
  ∧ snd (IncreaseTransferOutputCount
           (snd (DecreaseTransferOutputCount
                   (mkReality MAIN_REALITY_ID ∅ ∅ (2 ^ 32 - 1)))))
    = mkReality MAIN_REALITY_ID ∅ ∅ (2 ^ 32 - 1).
Proof.
  apply (transferOutputCount_round_trip (mkReality MAIN_REALITY_ID ∅ ∅ (2 ^ 32 - 1))).
  simpl. lia.
Defined.

(** * Tip selection *)

Lemma rangeTipSet_lookup (keys : list Tipselection.Hash) (i : nat) :
  Tipselection.rangeTipSet keys i
  = match keys !! i with
    | Some k => Tipselection.Tip k
    | None => Tipselection.Unreachable
    end.
Proof.
  revert i. induction keys as [|k keys IH]; intros [|i]; simpl; first [done|apply IH].
Qed.

(** X5. The handler of a solid transaction: the transaction is a tip
    afterwards, so the tip set is never empty again; its branch and its
    trunk are no tips any more, unless the transaction names itself; every
    other tip is kept, and the set grows by at most one. *)
Theorem onTransactionSolid_tips (branch trunk hash : Tipselection.Hash)
    (tipSet : gset Tipselection.Hash) :
  let tipSet' := Tipselection.onTransactionSolid branch trunk hash tipSet in
  hash ∈ tipSet'
  ∧ 1 ≤ Tipselection.GetTipsCount tipSet'
  ∧ (branch ≠ hash → branch ∉ tipSet')
  ∧ (trunk ≠ hash → trunk ∉ tipSet')
  ∧ (∀ k, k ≠ branch → k ≠ trunk → k ≠ hash → (k ∈ tipSet' ↔ k ∈ tipSet))
  ∧ Tipselection.GetTipsCount tipSet' ≤ S (Tipselection.GetTipsCount tipSet).
Proof.
  unfold Tipselection.onTransactionSolid, Tipselection.GetTipsCount. simpl.
  split; [set_solver|]. split.
  { assert (H : size ({[hash]} : gset Tipselection.Hash)
                ≤ size ({[hash]} ∪ tipSet ∖ {[branch]} ∖ {[trunk]})).
    { apply subseteq_size. set_solver. }
    rewrite size_singleton in H. exact H. }
  split; [set_solver|]. split; [set_solver|]. split; [set_solver|].
  rewrite size_union_alt, size_singleton. simpl. apply le_n_S.
  apply subseteq_size. set_solver.
Qed.

(** X6. [GetRandomTip], for any order of the iteration over the tip set: on the
    empty set it returns the null hash; otherwise, with the index below the
    number of tips, it returns a tip (the panic after the loop is not
    reached), and every tip is returned for some index. *)
Theorem GetRandomTip_returns_tip (BRANCH_NULL_HASH : Tipselection.Hash)
    (tipSet : gset Tipselection.Hash) (keys : list Tipselection.Hash) :
  keys ≡ₚ elements tipSet →
  (tipSet = ∅ →
   ∀ i, Tipselection.GetRandomTip BRANCH_NULL_HASH tipSet keys i
        = Tipselection.Tip BRANCH_NULL_HASH)
  ∧ (∀ i, i < Tipselection.GetTipsCount tipSet →
       ∃ k, Tipselection.GetRandomTip BRANCH_NULL_HASH tipSet keys i
            = Tipselection.Tip k
            ∧ k ∈ tipSet)
  ∧ (∀ k, k ∈ tipSet →
       ∃ i, i < Tipselection.GetTipsCount tipSet
            ∧ Tipselection.GetRandomTip BRANCH_NULL_HASH tipSet keys i
              = Tipselection.Tip k).
Proof.
  intros Hkeys. unfold Tipselection.GetRandomTip, Tipselection.GetTipsCount.
  assert (Hlen : length keys = size tipSet).
  { by rewrite Hkeys. }
  assert (Hin : ∀ k, k ∈ keys ↔ k ∈ tipSet).
  { intros k. by rewrite Hkeys, elem_of_elements. }
  split; [|split].
  - intros -> i. by rewrite decide_True by apply size_empty.
  - intros i Hi. rewrite decide_False by lia. rewrite rangeTipSet_lookup.
    destruct (lookup_lt_is_Some_2 keys i) as [k Hk]; [lia|].
    rewrite Hk. exists k. split; [done|].
    apply Hin. by eapply list_elem_of_lookup_2.
  - intros k Hk. apply Hin in Hk as Hk'.
    apply list_elem_of_lookup_1 in Hk' as [i Hi].
    exists i. split.
    + rewrite <- Hlen. by eapply lookup_lt_Some.
    + rewrite decide_False.
      * by rewrite rangeTipSet_lookup, Hi.
      * intros Hsize. apply size_empty_inv in Hsize. set_solver.
Qed.

Lemma GetRandomTip_returns_tip_witness :
  (({[ "A"; "B" ]} : gset Tipselection.Hash) = ∅ →
   ∀ i, Tipselection.GetRandomTip "9" {[ "A"; "B" ]}
          (elements ({[ "A"; "B" ]} : gset Tipselection.Hash)) i
        = Tipselection.Tip "9")
  ∧ (∀ i, i < Tipselection.GetTipsCount {[ "A"; "B" ]} →
       ∃ k, Tipselection.GetRandomTip "9" {[ "A"; "B" ]}
              (elements ({[ "A"; "B" ]} : gset Tipselection.Hash)) i
            = Tipselection.Tip k
            ∧ k ∈ ({[ "A"; "B" ]} : gset Tipselection.Hash))
  ∧ (∀ k, k ∈ ({[ "A"; "B" ]} : gset Tipselection.Hash) →
       ∃ i, i < Tipselection.GetTipsCount {[ "A"; "B" ]}
            ∧ Tipselection.GetRandomTip "9" {[ "A"; "B" ]}
                (elements ({[ "A"; "B" ]} : gset Tipselection.Hash)) i
              = Tipselection.Tip k).
Proof.
  apply (GetRandomTip_returns_tip "9" {[ "A"; "B" ]}
           (elements ({[ "A"; "B" ]} : gset Tipselection.Hash))).
  reflexivity.
Defined.

(** X7. The handler and the selection together: straight after a transaction
    has become solid, [GetRandomTip] returns a tip, and neither the branch
    nor the trunk of that transaction. *)
Theorem GetRandomTip_after_solid (BRANCH_NULL_HASH branch trunk hash : Tipselection.Hash)
    (tipSet : gset Tipselection.Hash) (keys : list Tipselection.Hash) (i : nat) :
  let tipSet' := Tipselection.onTransactionSolid branch trunk hash tipSet in
  keys ≡ₚ elements tipSet' →
  i < Tipselection.GetTipsCount tipSet' →
  ∃ k, Tipselection.GetRandomTip BRANCH_NULL_HASH tipSet' keys i = Tipselection.Tip k
       ∧ (k = hash ∨ (k ∈ tipSet ∧ k ≠ branch ∧ k ≠ trunk)).
Proof.
  intros tipSet' Hkeys Hi.
  unfold Tipselection.GetRandomTip, Tipselection.GetTipsCount in *.
  rewrite decide_False by lia. rewrite rangeTipSet_lookup.
  destruct (lookup_lt_is_Some_2 keys i) as [k Hk].
  { assert (length keys = size tipSet') as -> by (by rewrite Hkeys). done. }
  rewrite Hk. exists k. split; [done|].
  assert (Hin : k ∈ tipSet').
  { apply elem_of_elements. rewrite <- Hkeys. by eapply list_elem_of_lookup_2. }
  unfold tipSet', Tipselection.onTransactionSolid in Hin. set_solver.
Qed.

Lemma GetRandomTip_after_solid_witness :
  ∃ k, Tipselection.GetRandomTip "9"
         (Tipselection.onTransactionSolid "A" "B" "C" {[ "A"; "B"; "D" ]})
         (elements (Tipselection.onTransactionSolid "A" "B" "C" {[ "A"; "B"; "D" ]}))
         1
       = Tipselection.Tip k
       ∧ (k = "C"
          ∨ (k ∈ ({[ "A"; "B"; "D" ]} : gset Tipselection.Hash) ∧ k ≠ "A" ∧ k ≠ "B")).
Proof.
  apply (GetRandomTip_after_solid "9" "A" "B" "C" {[ "A"; "B"; "D" ]}
           (elements (Tipselection.onTransactionSolid "A" "B" "C" {[ "A"; "B"; "D" ]}))
           1).
  - reflexivity.
  - vm_compute. lia.
Defined.

(** * Ancestry that does not resolve *)

Lemma loadParentRealities_Ok_inv (st : LedgerState) (parentIds : list RealityId)
    (acc m : gmap RealityId Reality) :
  realities_keyed st →
  loadParentRealities st parentIds acc = Ok m →
  ∀ parentId, parentId ∈ parentIds →
    ∃ parent, realities st !! parentId = Some parent ∧ id parent = parentId
              ∧ m !! parentId = Some parent.
Proof.
  intros Hkeyed Hload.
  assert (Hall : ∀ parentId, parentId ∈ parentIds →
            ∃ parent, realities st !! parentId = Some parent ∧ id parent = parentId).
  { intros p Hp. destruct (realities st !! p) as [parent|] eqn:E.
    - exists parent. split; [done|]. by apply (Hkeyed p parent).
    - exfalso.
      assert (Hpanic : loadParentRealities st parentIds acc = Panic).
      { apply loadParentRealities_Panic_iff. by exists p. }
      congruence. }
  destruct (loadParentRealities_spec st parentIds acc Hall) as (m' & Hm' & Hspec).
  assert (m' = m) as -> by congruence.
  intros p Hp. destruct (Hall p Hp) as (parent & Hparent & Hid).
  exists parent. split; [done|]. split; [done|]. apply Hspec. by left.
Qed.

Lemma addAncestors_foldl_Ok_inv (ancestorsOf : Reality → Res (gmap RealityId Reality))
    (entries : list (RealityId * Reality)) (acc : Res (gmap RealityId Reality))
    (m : gmap RealityId Reality) :
  foldl (addAncestors ancestorsOf) acc entries = Ok m →
  ∀ entry, entry ∈ entries → ∃ ancestors, ancestorsOf (snd entry) = Ok ancestors.
Proof.
  revert acc. induction entries as [|entry entries IH]; intros acc Hfold e He.
  - by apply not_elem_of_nil in He.
  - simpl in Hfold. apply elem_of_cons in He as [->|He]; [|by eapply IH].
    destruct acc as [result| | |].
    + simpl in Hfold. destruct (ancestorsOf entry.2) as [ancestors| | |] eqn:E;
        [by eexists|..]; exfalso; revert Hfold; clear;
        induction entries as [|x l IH']; simpl; done.
    + exfalso; revert Hfold; clear; induction entries as [|x l IH']; simpl; done.
    + exfalso; revert Hfold; clear; induction entries as [|x l IH']; simpl; done.
    + exfalso; revert Hfold; clear; induction entries as [|x l IH']; simpl; done.
Qed.

Lemma GetAncestorRealities_Ok_resolves (fuel : nat) (st : LedgerState)
    (reality : Reality) (m : gmap RealityId Reality) :
  realities_keyed st →
  GetAncestorRealities fuel st reality = Ok m →
  resolves fuel st reality = true.
Proof.
  intros Hkeyed. revert reality m.
  induction fuel as [|fuel IH]; intros reality m; [done|]. simpl.
  destruct (GetParentRealities st reality) as [ps| | |] eqn:Hps; try done.
  intros Hfold. apply forallb_forall. intros p Hp.
  apply list_elem_of_In, elem_of_elements in Hp.
  destruct (loadParentRealities_Ok_inv st _ _ _ Hkeyed Hps p) as (parent & Hparent & Hid & Hm).
  { by apply elem_of_elements. }
  rewrite Hparent. apply andb_true_iff. split; [by apply bool_decide_eq_true|].
  destruct (addAncestors_foldl_Ok_inv _ _ _ _ Hfold (p, parent)) as [anc Hanc].
  { by apply elem_of_map_to_list. }
  by eapply IH.
Qed.

Lemma resolves_Ancestor_lt (depth : nat) (st : LedgerState) (reality : Reality)
    (ancestorId : RealityId) (ancestor : Reality) :
  resolves depth st reality = true →
  Ancestor st reality ancestorId →
  realities st !! ancestorId = Some ancestor →
  ∃ depth', depth' < depth ∧ resolves depth' st ancestor = true.
Proof.
  intros Hres HA. revert depth Hres.
  induction HA as [reality parent Hin|reality parentId parent a Hin Hparent HA IH];
    intros [|depth] Hres Hanc; try done.
  - destruct (resolves_parent _ _ _ _ Hres Hin) as (q & Hq & _ & Hr).
    exists depth. split; [lia|]. congruence.
  - destruct (resolves_parent _ _ _ _ Hres Hin) as (q & Hq & _ & Hr).
    assert (q = parent) as -> by congruence.
    destruct (IH depth Hr Hanc) as (d' & Hlt & Hr').
    exists d'. split; [lia|done].
Qed.

Lemma resolves_acyclic (depth : nat) (st : LedgerState) (reality : Reality) :
  realities st !! id reality = Some reality →
  Ancestor st reality (id reality) →
  resolves depth st reality = false.
Proof.
  intros Hstored Hcycle.
  induction (lt_wf depth) as [depth _ IH].
  destruct (resolves depth st reality) eqn:Hres; [|done].
  destruct (resolves_Ancestor_lt _ _ _ _ _ Hres Hcycle Hstored) as (d' & Hlt & Hr').
  rewrite (IH d' Hlt) in Hr'. done.
Qed.

(** X8. A reality that is its own ancestor: the recursion of
    [GetAncestorRealities] has no end, so whatever the depth allowed it
    returns no result, and neither does [DescendsFrom] for any id but the
    reality's own. *)
Theorem GetAncestorRealities_cycle_no_result (fuel : nat) (st : LedgerState)
    (reality : Reality) :
  realities_keyed st →
  realities st !! id reality = Some reality →
  Ancestor st reality (id reality) →
  (∀ m, GetAncestorRealities fuel st reality ≠ Ok m)
  ∧ (∀ realityId b, realityId ≠ id reality →
       DescendsFrom fuel st reality realityId ≠ Ok b).
Proof.
  intros Hkeyed Hstored Hcycle.
  assert (Hno : ∀ m, GetAncestorRealities fuel st reality ≠ Ok m).
  { intros m Hm. apply GetAncestorRealities_Ok_resolves in Hm; [|done].
    by rewrite resolves_acyclic in Hm. }
  split; [done|]. intros realityId b Hne. unfold DescendsFrom.
  rewrite decide_False by done.
  destruct (GetAncestorRealities fuel st reality) as [m| | |] eqn:E; try done.
  by destruct (Hno m).
Qed.

Lemma GetAncestorRealities_cycle_no_result_witness :
  (∀ m, GetAncestorRealities 5 cyclicLedger (mkReality 1%N {[ 2%N ]} ∅ 0) ≠ Ok m)
  ∧ (∀ realityId b, realityId ≠ id (mkReality 1%N {[ 2%N ]} ∅ 0) →
       DescendsFrom 5 cyclicLedger (mkReality 1%N {[ 2%N ]} ∅ 0) realityId ≠ Ok b).
Proof.
  apply (GetAncestorRealities_cycle_no_result 5 cyclicLedger
           (mkReality 1%N {[ 2%N ]} ∅ 0)).
  - unfold realities_keyed. apply (bool_decide_unpack _). vm_compute. exact I.
  - vm_compute. reflexivity.
  - eapply (ancestor_step cyclicLedger _ 2%N (mkReality 2%N {[ 1%N ]} ∅ 0)).
    + simpl. set_solver.
    + vm_compute. reflexivity.
    + apply ancestor_parent. simpl. set_solver.
Defined.

Lemma GetAncestorRealities_self_parent (fuel : nat) (st : LedgerState)
    (reality : Reality) :
  realities st !! id reality = Some reality →
  parentRealityIds reality = {[id reality]} →
  GetAncestorRealities fuel st reality = OutOfFuel.
Proof.
  intros Hstored Hparents. induction fuel as [|fuel IH]; [done|]. simpl.
  unfold GetParentRealities. rewrite Hparents, elements_singleton. simpl.
  rewrite Hstored, insert_empty, map_to_list_singleton. simpl.
  by rewrite IH.
Qed.

Section Reelevation.

Variable emptyRealityId : RealityId.
Variable aggregatedRealityId : gset RealityId → RealityId.

Lemma elevateTransferOutput_nested_plain (fuel : nat) (reality : RealityId)
    (ref : TransferOutputReference) (newRealityId : RealityId) (st : LedgerState)
    (x : TransferOutput) (nested : Reality) :
  transferOutputs st !! ref = Some x →
  realityId x ≠ reality →
  realities st !! realityId x = Some nested →
  size (parentRealityIds nested) < 2 →
  elevateTransferOutput emptyRealityId aggregatedRealityId (S fuel) reality ref
    newRealityId st
  = (Ok tt,
     set_realities
       (alter (fun r => SetParentRealityIds
                          ((parentRealityIds r ∖ {[reality]}) ∪ {[newRealityId]}) r)
          (realityId x)) st).
Proof.
  intros Hx Hne Hnested Hsize. cbn [elevateTransferOutput].
  unfold GetTransferOutput. rewrite Hx, decide_False by done.
  unfold GetReality. rewrite Hnested.
  unfold elevateTransferOutputOfNestedReality, IsAggregated.
  rewrite bool_decide_eq_false_2 by lia. reflexivity.
Qed.

(** X9. Elevating an output into the reality that owns it.  When the
    output is owned by a reality other than the booking reality, whose only
    parent is the booking reality, and it is elevated into that very
    reality, the elevation swaps the parent for the reality itself and
    changes nothing else: the output stays where it is, the reality has
    become its own and only parent, and [DescendsFrom] on it finds no end
    for any id but its own. *)
Theorem elevateTransferOutput_into_owner (fuel : nat) (reality : RealityId)
    (ref : TransferOutputReference) (st : LedgerState) (x : TransferOutput)
    (owner : Reality) :
  transferOutputs st !! ref = Some x →
  realityId x ≠ reality →
  realities st !! realityId x = Some owner →
  id owner = realityId x →
  parentRealityIds owner = {[reality]} →
  ∃ st' owner',
    elevateTransferOutput emptyRealityId aggregatedRealityId (S fuel) reality ref
      (realityId x) st = (Ok tt, st')
    ∧ transferOutputs st' = transferOutputs st
    ∧ transferOutputBookings st' = transferOutputBookings st
    ∧ conflictSets st' = conflictSets st
    ∧ realities st' = <[realityId x := owner']> (realities st)
    ∧ id owner' = realityId x
    ∧ parentRealityIds owner' = {[realityId x]}
    ∧ conflictIds owner' = conflictIds owner
    ∧ transferOutputCount owner' = transferOutputCount owner
    ∧ ∀ fuel' realityId',
        realityId' ≠ realityId x →
        DescendsFrom fuel' st' owner' realityId' = OutOfFuel.
Proof.
  intros Hx Hne Howner Hid Hparents.
  set (owner' := SetParentRealityIds
                   ((parentRealityIds owner ∖ {[reality]}) ∪ {[realityId x]}) owner).
  assert (Hparents' : parentRealityIds owner' = {[realityId x]}).
  { unfold owner'. simpl. rewrite Hparents. set_solver. }
  exists (set_realities (insert (realityId x) owner') st), owner'.
  split.
  { rewrite (elevateTransferOutput_nested_plain fuel reality ref (realityId x) st x
               owner Hx Hne Howner).
    - unfold set_realities. by rewrite (alter_present _ _ owner).
    - rewrite Hparents, size_singleton. lia. }
  split; [done|]. split; [done|]. split; [done|]. split; [done|].
  split; [done|]. split; [done|]. split; [done|]. split; [done|].
  intros fuel' realityId' Hne'. unfold DescendsFrom.
  rewrite decide_False by (unfold owner'; simpl; congruence).
  rewrite GetAncestorRealities_self_parent; [done| |].
  - unfold owner'. simpl. rewrite Hid. apply lookup_insert_eq.
  - rewrite Hparents'. unfold owner'. simpl. by rewrite Hid.
Qed.

End Reelevation.

Lemma elevateTransferOutput_into_owner_witness :
  ∃ st' owner',
    elevateTransferOutput EMPTY_REALITY_ID exampleAggregatedRealityId 8
      MAIN_REALITY_ID (11%N, 2%N)
      (realityId (mkTransferOutput 11%N 2%N 11%N [mkColoredBalance iota 100]
                    [(13%N, [4%N])]))
      doubleSpendLedger = (Ok tt, st')
    ∧ transferOutputs st' = transferOutputs doubleSpendLedger
    ∧ transferOutputBookings st' = transferOutputBookings doubleSpendLedger
    ∧ conflictSets st' = conflictSets doubleSpendLedger
    ∧ realities st'
      = <[realityId (mkTransferOutput 11%N 2%N 11%N [mkColoredBalance iota 100]
                       [(13%N, [4%N])]) := owner']> (realities doubleSpendLedger)
    ∧ id owner'
      = realityId (mkTransferOutput 11%N 2%N 11%N [mkColoredBalance iota 100]
                     [(13%N, [4%N])])
    ∧ parentRealityIds owner'
      = {[realityId (mkTransferOutput 11%N 2%N 11%N [mkColoredBalance iota 100]
                       [(13%N, [4%N])])]}
    ∧ conflictIds owner' = conflictIds (exampleReality doubleSpendLedger 11%N)
    ∧ transferOutputCount owner'
      = transferOutputCount (exampleReality doubleSpendLedger 11%N)
    ∧ ∀ fuel' realityId',
        realityId' ≠ realityId (mkTransferOutput 11%N 2%N 11%N
                                  [mkColoredBalance iota 100] [(13%N, [4%N])]) →
        DescendsFrom fuel' st' owner' realityId' = OutOfFuel.
Proof.
  apply (elevateTransferOutput_into_owner EMPTY_REALITY_ID exampleAggregatedRealityId
           7 MAIN_REALITY_ID (11%N, 2%N) doubleSpendLedger
           (mkTransferOutput 11%N 2%N 11%N [mkColoredBalance iota 100] [(13%N, [4%N])])
           (exampleReality doubleSpendLedger 11%N)).
  - vm_compute. reflexivity.
  - discriminate.
  - vm_compute. reflexivity.
  - vm_compute. reflexivity.
  - vm_compute. reflexivity.
Defined.

(** * Creating a reality *)

Lemma loadParentRealities_insert_fresh (st : LedgerState) (k : RealityId) (v : Reality)
    (parentIds : list RealityId) (acc : gmap RealityId Reality) :
  realities st !! k = None →
  (∀ parentId, parentId ∈ parentIds → is_Some (realities st !! parentId)) →
  loadParentRealities (set_realities (insert k v) st) parentIds acc
  = loadParentRealities st parentIds acc.
Proof.
  intros Hfresh. revert acc.
  induction parentIds as [|p ps IH]; intros acc Hall; [done|]. simpl.
  destruct (Hall p) as [parent Hp]; [by left|].
  rewrite lookup_insert_ne by congruence. rewrite Hp.
  apply IH. intros q Hq. apply Hall. by right.
Qed.

Lemma addAncestors_foldl_ext (f g : Reality → Res (gmap RealityId Reality))
    (entries : list (RealityId * Reality)) (acc : Res (gmap RealityId Reality)) :
  (∀ entry, entry ∈ entries → f (snd entry) = g (snd entry)) →
  foldl (addAncestors f) acc entries = foldl (addAncestors g) acc entries.
Proof.
  revert acc. induction entries as [|entry entries IH]; intros acc Hext; [done|].
  simpl. rewrite IH by (intros e He; apply Hext; by right).
  f_equal. unfold addAncestors. destruct acc; [|done..].
  rewrite Hext by (by left). done.
Qed.

Lemma GetAncestorRealities_insert_fresh (depth fuel : nat) (st : LedgerState)
    (k : RealityId) (v : Reality) (reality : Reality) :
  realities st !! k = None →
  resolves depth st reality = true →
  depth ≤ fuel →
  GetAncestorRealities fuel (set_realities (insert k v) st) reality
  = GetAncestorRealities fuel st reality.
Proof.
  intros Hfresh. revert fuel reality.
  induction depth as [|depth IH]; intros fuel reality Hres Hfuel; [done|].
  destruct fuel as [|fuel]; [lia|]. simpl.
  unfold GetParentRealities. rewrite loadParentRealities_insert_fresh; [|done|].
  2: { intros p Hp. apply elem_of_elements in Hp.
       destruct (resolves_parent _ _ _ _ Hres Hp) as (q & -> & _). by eexists. }
  destruct (GetParentRealities_spec st reality) as (ps & Hps & Hspec).
  { intros p Hp. destruct (resolves_parent _ _ _ _ Hres Hp) as (q & ? & ? & _).
    by exists q. }
  unfold GetParentRealities in Hps. rewrite Hps.
  apply addAncestors_foldl_ext. intros [p parent] Hin. simpl.
  apply elem_of_map_to_list, Hspec in Hin as [Hp Hparent].
  destruct (resolves_parent _ _ _ _ Hres Hp) as (q & Hq & _ & Hr).
  assert (q = parent) as -> by congruence.
  apply IH; [done|lia].
Qed.

(** X10. A reality created under a fresh id: it is stored with one parent, no
    conflict set and the count 0, every other reality is as it was, and its
    ancestors are its creator and the ancestors of its creator, so that it
    descends from exactly itself, its creator and what its creator descends
    from. *)
Theorem CreateReality_child_ancestors (depth fuel : nat) (creatorId newId : RealityId)
    (st : LedgerState) (creator : Reality) :
  realities st !! newId = None →
  realities st !! creatorId = Some creator →
  id creator = creatorId →
  resolves depth st creator = true →
  depth ≤ fuel →
  ∃ st' child ancestors,
    CreateReality creatorId newId st = (Ok newId, st')
    ∧ realities st' !! newId = Some child
    ∧ (∀ k, k ≠ newId → realities st' !! k = realities st !! k)
    ∧ id child = newId
    ∧ IsAggregated child = false
    ∧ GetTransferOutputCount child = 0%Z
    ∧ conflictIds child = ∅
    ∧ GetAncestorRealities fuel st creator = Ok ancestors
    ∧ GetAncestorRealities (S fuel) st' child = Ok (ancestors ∪ {[creatorId := creator]})
    ∧ ∀ realityId,
        DescendsFrom (S fuel) st' child realityId
        = Ok (bool_decide (realityId = newId ∨ realityId = creatorId
                           ∨ realityId ∈ dom ancestors)).
Proof.
  intros Hfresh Hcreator Hid Hres Hfuel.
  destruct (GetAncestorRealities_spec depth fuel st creator Hres Hfuel)
    as (ancestors & Hanc & _).
  set (st' := set_realities (insert newId (newReality newId {[creatorId]})) st).
  assert (Hne : creatorId ≠ newId) by congruence.
  assert (Hchild : GetAncestorRealities (S fuel) st' (newReality newId {[creatorId]})
                   = Ok (ancestors ∪ {[creatorId := creator]})).
  { cbn [GetAncestorRealities]. unfold GetParentRealities.
    cbn [parentRealityIds newReality]. rewrite elements_singleton.
    cbn [loadParentRealities]. unfold st' at 1. cbn [realities set_realities].
    rewrite lookup_insert_ne by done. rewrite Hcreator, Hid, insert_empty.
    rewrite map_to_list_singleton. cbn [foldl addAncestors snd fst].
    unfold st'. rewrite (GetAncestorRealities_insert_fresh depth) by done.
    by rewrite Hanc, insert_empty. }
  exists st', (newReality newId {[creatorId]}), ancestors.
  split; [done|]. split; [by apply lookup_insert_eq|].
  split; [intros k Hk; by apply lookup_insert_ne|].
  split; [done|]. split.
  { unfold IsAggregated. cbn [parentRealityIds newReality].
    by rewrite size_singleton. }
  split; [done|]. split; [done|]. split; [done|]. split; [done|].
  intros realityId. unfold DescendsFrom. cbn [id newReality].
  destruct (decide (newId = realityId)) as [<-|Hne'].
  { by rewrite bool_decide_eq_true_2 by (by left). }
  rewrite Hchild. f_equal.
  match goal with |- ?b = _ => destruct b eqn:E end; symmetry.
  - apply bool_decide_eq_true_2. apply descends_fold_spec in E as [E|E]; [done|].
    apply list_elem_of_fmap in E as ([k r] & -> & Hin).
    apply elem_of_map_to_list in Hin. simpl.
    apply lookup_union_Some_raw in Hin as [Hin|[_ Hin]].
    + right. right. by apply elem_of_dom.
    + right. left. apply lookup_singleton_Some in Hin as [<- _]. done.
  - apply bool_decide_eq_false_2. intros [H|H]; [done|].
    assert (Htrue : foldl (fun descendsFromReality ancestorRealityId =>
                       if decide (ancestorRealityId = realityId) then true
                       else descendsFromReality) false
                      (map fst (map_to_list (ancestors ∪ {[creatorId := creator]})))
                    = true); [|congruence].
    apply descends_fold_spec. right.
    assert (Hdom : realityId ∈ dom (ancestors ∪ {[creatorId := creator]})).
    { rewrite dom_union, dom_singleton. set_solver. }
    apply elem_of_dom in Hdom as [r Hr].
    apply list_elem_of_fmap. exists (realityId, r). split; [done|].
    by apply elem_of_map_to_list.
Qed.

Lemma CreateReality_child_ancestors_witness :
  ∃ st' child ancestors,
    CreateReality MAIN_REALITY_ID 11%N genesisLedger = (Ok 11%N, st')
    ∧ realities st' !! 11%N = Some child
    ∧ (∀ k, k ≠ 11%N → realities st' !! k = realities genesisLedger !! k)
    ∧ id child = 11%N
    ∧ IsAggregated child = false
    ∧ GetTransferOutputCount child = 0%Z
    ∧ conflictIds child = ∅
    ∧ GetAncestorRealities 3 genesisLedger (mkReality MAIN_REALITY_ID ∅ ∅ 1)
      = Ok ancestors
    ∧ GetAncestorRealities 4 st' child
      = Ok (ancestors ∪ {[MAIN_REALITY_ID := mkReality MAIN_REALITY_ID ∅ ∅ 1]})
    ∧ ∀ realityId,
        DescendsFrom 4 st' child realityId
        = Ok (bool_decide (realityId = 11%N ∨ realityId = MAIN_REALITY_ID
                           ∨ realityId ∈ dom ancestors)).
Proof.
  apply (CreateReality_child_ancestors 1 3 MAIN_REALITY_ID 11%N genesisLedger
           (mkReality MAIN_REALITY_ID ∅ ∅ 1)).
  - vm_compute. reflexivity.
  - vm_compute. reflexivity.
  - reflexivity.
  - vm_compute. reflexivity.
  - lia.
Defined.

(** * The count of a reality and the outputs it owns *)

Lemma ownedOutputs_insert (outputs : gmap TransferOutputReference TransferOutput)
    (key : TransferOutputReference) (y : TransferOutput) (owner : RealityId) :
  Z.of_nat (ownedOutputs (<[key := y]> outputs) owner)
  = (Z.of_nat (ownedOutputs outputs owner)
     - match outputs !! key with
       | Some x => if decide (realityId x = owner) then 1 else 0
       | None => 0
       end
     + (if decide (realityId y = owner) then 1 else 0))%Z.
Proof.
  unfold ownedOutputs.
  set (P := fun entry : TransferOutputReference * TransferOutput =>
              realityId (snd entry) = owner).
  assert (Hlookup : filter P outputs !! key
                    = match outputs !! key with
                      | Some x => if decide (realityId x = owner) then Some x else None
                      | None => None
                      end).
  { destruct (outputs !! key) as [x|] eqn:Hx.
    - destruct (decide (realityId x = owner)) as [Hown|Hown].
      + by apply map_lookup_filter_Some.
      + apply map_lookup_filter_None. right. intros x' Hx'.
        assert (x' = x) as -> by congruence. done.
    - apply map_lookup_filter_None. by left. }
  destruct (decide (realityId y = owner)) as [Hy|Hy].
  - rewrite map_filter_insert_True by done.
    rewrite map_size_insert, Hlookup.
    destruct (outputs !! key) as [x|]; [destruct (decide _)|]; simpl; lia.
  - rewrite map_filter_insert_False by done.
    rewrite map_filter_delete, map_size_delete, Hlookup.
    destruct (outputs !! key) as [x|] eqn:Hx; [destruct (decide _) as [Hown|Hown]|];
      simpl; try lia.
    assert (Hsize : size (filter P outputs) ≠ 0).
    { apply (map_size_ne_0_lookup_2 _ key). rewrite Hlookup. by eexists. }
    lia.
Qed.

Lemma wrap32_succ (n : Z) : wrap32 (wrap32 n + 1) = wrap32 (n + 1).
Proof. unfold wrap32. apply Zplus_mod_idemp_l. Qed.

Lemma wrap32_pred (n : Z) : wrap32 (wrap32 n + uint32_not 0) = wrap32 (n - 1).
Proof.
  rewrite uint32_not_0. unfold wrap32. rewrite Zplus_mod_idemp_l.
  replace (n + (2 ^ 32 - 1))%Z with (n - 1 + 1 * 2 ^ 32)%Z by lia.
  apply Z_mod_plus_full.
Qed.

Section Counts.

Variable emptyRealityId : RealityId.

Lemma bookTransferOutput_fresh (reality : RealityId) (x : TransferOutput)
    (st : LedgerState) :
  realityId x = emptyRealityId →
  reality ≠ emptyRealityId →
  bookTransferOutput emptyRealityId reality x st
  = (Ok tt,
     mkLedgerState
       (alter (fun r => snd (IncreaseTransferOutputCount r)) reality (realities st))
       (conflictSets st)
       (<[storageKey x := SetRealityId reality x]> (transferOutputs st))
       ({[newTransferOutputBooking reality (addressHash x)
            (bool_decide (1 ≤ length (consumers x))) (transferHash x)]}
          ∪ transferOutputBookings st)).
Proof.
  intros Hempty Hreality. unfold bookTransferOutput. unfold_M.
  rewrite (decide_True (P := realityId x = emptyRealityId)) by done.
  rewrite (decide_True (P := realityId x ≠ reality)) by congruence.
  reflexivity.
Qed.

Lemma bookTransferOutput_counts_kept (reality : RealityId)
    (x : TransferOutput) (st : LedgerState) :
  counts_consistent st →
  (realityId x = emptyRealityId ∧ reality ≠ emptyRealityId
   ∧ transferOutputs st !! storageKey x = None)
  ∨ (realityId x ≠ emptyRealityId
     ∧ transferOutputs st !! storageKey x = Some x
     ∧ is_Some (realities st !! realityId x)) →
  ∃ st', bookTransferOutput emptyRealityId reality x st = (Ok tt, st')
         ∧ counts_consistent st'.
Proof.
  intros Hcounts [(Hempty & Hreality & Hfresh)|(Hempty & Hstored & [old Hold])].
  - exists (mkLedgerState
              (alter (fun r => snd (IncreaseTransferOutputCount r)) reality
                 (realities st))
              (conflictSets st)
              (<[storageKey x := SetRealityId reality x]> (transferOutputs st))
              ({[newTransferOutputBooking reality (addressHash x)
                   (bool_decide (1 ≤ length (consumers x))) (transferHash x)]}
                 ∪ transferOutputBookings st)).
    split.
    { unfold bookTransferOutput. unfold_M.
      rewrite (decide_True (P := realityId x = emptyRealityId)) by done.
      rewrite (decide_True (P := realityId x ≠ reality)) by congruence.
      reflexivity. }
    intros rid r' Hr'. cbn [realities transferOutputs] in *.
    rewrite ownedOutputs_insert, Hfresh. cbn [realityId SetRealityId].
    rewrite lookup_alter in Hr'. destruct (decide (reality = rid)) as [<-|Hne].
    + destruct (realities st !! reality) as [r|] eqn:Hr; [|done].
      injection Hr' as <-. cbn [snd IncreaseTransferOutputCount transferOutputCount].
      rewrite (Hcounts _ _ Hr), wrap32_succ. f_equal. lia.
    + rewrite (Hcounts _ _ Hr'). f_equal. lia.
  - destruct (decide (realityId x = reality)) as [Hsame|Hne].
    { exists st. split; [|done].
      unfold bookTransferOutput. unfold_M.
      rewrite (decide_False (P := realityId x = emptyRealityId)) by done.
      rewrite !(decide_False (P := realityId x ≠ reality)) by (intros H; by apply H).
      reflexivity. }
    eexists. split; [by apply bookTransferOutput_move|].
    intros rid r' Hr'. cbn [realities transferOutputs] in *.
    rewrite (alter_present _ _ x) by done.
    rewrite ownedOutputs_insert, Hstored. cbn [realityId SetRealityId].
    rewrite lookup_alter in Hr'. destruct (decide (reality = rid)) as [<-|Hne'].
    + assert (Hr : ∃ r, realities st !! reality = Some r
                        ∧ r' = snd (IncreaseTransferOutputCount r)).
      { destruct (decide _) in Hr'.
        - rewrite lookup_delete_ne, lookup_insert_ne in Hr' by done.
          destruct (realities st !! reality) as [r|]; [|done].
          exists r. split; [done|]. by injection Hr' as <-.
        - rewrite lookup_insert_ne in Hr' by done.
          destruct (realities st !! reality) as [r|]; [|done].
          exists r. split; [done|]. by injection Hr' as <-. }
      destruct Hr as (r & Hr & ->).
      cbn [snd IncreaseTransferOutputCount transferOutputCount].
      rewrite (Hcounts _ _ Hr), wrap32_succ.
      rewrite decide_False by done. f_equal. lia.
    + destruct (decide (realityId x = rid)) as [<-|Hne''].
      * assert (r' = snd (DecreaseTransferOutputCount old)) as ->.
        { destruct (decide _) in Hr'.
          - by rewrite lookup_delete_eq in Hr'.
          - rewrite lookup_insert_eq in Hr'. by injection Hr' as <-. }
        cbn [snd DecreaseTransferOutputCount transferOutputCount].
        rewrite (Hcounts _ _ Hold), wrap32_pred. f_equal. lia.
      * assert (Hr : realities st !! rid = Some r').
        { destruct (decide _) in Hr'.
          - by rewrite lookup_delete_ne, lookup_insert_ne in Hr'.
          - by rewrite lookup_insert_ne in Hr'. }
        rewrite (Hcounts _ _ Hr). f_equal. lia.
Qed.

(** X11. [bookTransferOutput] keeps the counts in step with the store, for an
    output that is new (not yet stored, booked into a reality other than
    the sentinel) or that is the stored output of a stored reality.  The
    output is stored with the booking reality as its owner.  Unless the
    booking reality owned it already, in which case nothing changes, the
    booking reality owns one output more and its count is increased; the
    reality that owned it owns one output less, and is deleted when its
    decreased count is 0 and left with the decreased count otherwise; no
    other reality changes.  If the count of every stored reality was the
    number of outputs it owns, then so it is afterwards. *)
Theorem bookTransferOutput_counts_consistent (reality : RealityId)
    (x : TransferOutput) (st : LedgerState) :
  counts_consistent st →
  (realityId x = emptyRealityId ∧ reality ≠ emptyRealityId
   ∧ transferOutputs st !! storageKey x = None)
  ∨ (realityId x ≠ emptyRealityId
     ∧ transferOutputs st !! storageKey x = Some x
     ∧ is_Some (realities st !! realityId x)) →
  ∃ st', bookTransferOutput emptyRealityId reality x st = (Ok tt, st')
    ∧ counts_consistent st'
    ∧ transferOutputs st'
      = <[storageKey x := SetRealityId reality x]> (transferOutputs st)
    ∧ (realityId x = reality → st' = st)
    ∧ (realityId x ≠ reality →
       realities st' !! reality
       = (fun r => snd (IncreaseTransferOutputCount r)) <$> realities st !! reality
       ∧ Z.of_nat (ownedOutputs (transferOutputs st') reality)
         = (Z.of_nat (ownedOutputs (transferOutputs st) reality) + 1)%Z)
    ∧ (realityId x ≠ reality → realityId x ≠ emptyRealityId →
       ∀ old, realities st !! realityId x = Some old →
         Z.of_nat (ownedOutputs (transferOutputs st') (realityId x))
         = (Z.of_nat (ownedOutputs (transferOutputs st) (realityId x)) - 1)%Z
         ∧ realities st' !! realityId x
           = if decide (fst (DecreaseTransferOutputCount old) = 0%Z) then None
             else Some (snd (DecreaseTransferOutputCount old)))
    ∧ (∀ k, k ≠ reality → k ≠ realityId x →
         realities st' !! k = realities st !! k).
Proof.
  intros Hcounts Hcase.
  destruct (bookTransferOutput_counts_kept reality x st Hcounts Hcase)
    as (st' & Hbook & Hcounts').
  exists st'. split; [done|]. split; [done|].
  destruct Hcase as [(Hempty & Hreality & Hfresh)|(Hempty & Hstored & [old Hold])].
  - rewrite bookTransferOutput_fresh in Hbook by done. injection Hbook as <-.
    cbn [transferOutputs realities].
    split; [done|]. split; [intros Hsame; congruence|]. split.
    { intros _. split; [apply lookup_alter_eq|].
      rewrite ownedOutputs_insert, Hfresh. cbn [realityId SetRealityId].
      rewrite decide_True by done. lia. }
    split; [intros _ Hne; by destruct Hne|].
    intros k Hk _. by apply lookup_alter_ne.
  - destruct (decide (realityId x = reality)) as [Hsame|Hne].
    + assert (st' = st) as ->.
      { revert Hbook. unfold bookTransferOutput. unfold_M.
        rewrite (decide_False (P := realityId x = emptyRealityId)) by done.
        rewrite !(decide_False (P := realityId x ≠ reality))
          by (intros H; by apply H).
        by intros [= <-]. }
      split.
      { rewrite <- Hsame, SetRealityId_same. symmetry. by apply insert_id. }
      split; [done|]. split; [intros H; by destruct H|].
      split; [intros H; by destruct H|]. done.
    + rewrite (bookTransferOutput_move emptyRealityId reality x old st) in Hbook
        by done.
      injection Hbook as <-. cbn [transferOutputs realities].
      rewrite (alter_present _ _ x) by done.
      split; [done|]. split; [done|]. split.
      { intros _. split.
        - rewrite lookup_alter_eq. f_equal.
          destruct (decide _);
            [by rewrite lookup_delete_ne, lookup_insert_ne
            |by rewrite lookup_insert_ne].
        - rewrite ownedOutputs_insert, Hstored. cbn [realityId SetRealityId].
          rewrite decide_False, decide_True by done. lia. }
      split.
      { intros _ _ old' Hold'. assert (old' = old) as -> by congruence. split.
        - rewrite ownedOutputs_insert, Hstored. cbn [realityId SetRealityId].
          rewrite decide_True, decide_False by done. lia.
        - rewrite lookup_alter_ne by done.
          destruct (decide _); [apply lookup_delete_eq|apply lookup_insert_eq]. }
      intros k Hk1 Hk2. rewrite lookup_alter_ne by done.
      destruct (decide _);
        [by rewrite lookup_delete_ne, lookup_insert_ne|by rewrite lookup_insert_ne].
Qed.

End Counts.

Lemma bookTransferOutput_counts_consistent_witness :
  ∃ st', bookTransferOutput EMPTY_REALITY_ID 11%N loneOutput loneLedger = (Ok tt, st')
    ∧ counts_consistent st'
    ∧ transferOutputs st'
      = <[storageKey loneOutput := SetRealityId 11%N loneOutput]>
          (transferOutputs loneLedger)
    ∧ (realityId loneOutput = 11%N → st' = loneLedger)
    ∧ (realityId loneOutput ≠ 11%N →
       realities st' !! 11%N
       = (fun r => snd (IncreaseTransferOutputCount r)) <$> realities loneLedger !! 11%N
       ∧ Z.of_nat (ownedOutputs (transferOutputs st') 11%N)
         = (Z.of_nat (ownedOutputs (transferOutputs loneLedger) 11%N) + 1)%Z)
    ∧ (realityId loneOutput ≠ 11%N → realityId loneOutput ≠ EMPTY_REALITY_ID →
       ∀ old, realities loneLedger !! realityId loneOutput = Some old →
         Z.of_nat (ownedOutputs (transferOutputs st') (realityId loneOutput))
         = (Z.of_nat (ownedOutputs (transferOutputs loneLedger) (realityId loneOutput))
            - 1)%Z
         ∧ realities st' !! realityId loneOutput
           = if decide (fst (DecreaseTransferOutputCount old) = 0%Z) then None
             else Some (snd (DecreaseTransferOutputCount old)))
    ∧ (∀ k, k ≠ 11%N → k ≠ realityId loneOutput →
         realities st' !! k = realities loneLedger !! k).
Proof.
  apply (bookTransferOutput_counts_consistent EMPTY_REALITY_ID 11%N loneOutput
           loneLedger).
  - unfold counts_consistent. apply (bool_decide_unpack _). vm_compute. exact I.
  - right. split; [discriminate|]. split; [vm_compute; reflexivity|].
    vm_compute. by eexists.
Defined.

(** * The books after a transfer *)

Lemma wrap32_range (n : Z) : (0 ≤ wrap32 n < 2 ^ 32)%Z.
Proof. unfold wrap32. apply Z.mod_pos_bound. lia. Qed.

Lemma wrap32_small (n : Z) : (0 ≤ n < 2 ^ 32)%Z → wrap32 n = n.
Proof. unfold wrap32. apply Z.mod_small. Qed.

Lemma wrap32_add_l (a b : Z) : wrap32 (wrap32 a + b) = wrap32 (a + b).
Proof. unfold wrap32. apply Zplus_mod_idemp_l. Qed.

Section Accounting.

Variable emptyRealityId : RealityId.

(** The state after the loop that books the outputs of a transfer. *)
Lemma bookOutputs_state (target : RealityId) (h : TransferHash)
    (outputs : list (AddressHash * list ColoredBalance)) (st : LedgerState)
    (r : Reality) :
  target ≠ emptyRealityId →
  NoDup (map fst outputs) →
  realities st !! target = Some r →
  (0 ≤ transferOutputCount r < 2 ^ 32)%Z →
  ∃ st', bookOutputs emptyRealityId target h outputs st = (Ok tt, st')
    ∧ realities st'
      = <[target := mkReality (id r) (parentRealityIds r) (conflictIds r)
                      (wrap32 (transferOutputCount r + Z.of_nat (length outputs)))]>
          (realities st)
    ∧ conflictSets st' = conflictSets st
    ∧ transferOutputBookings st'
      = list_to_set (map (fun output : AddressHash * list ColoredBalance =>
                            newTransferOutputBooking target (fst output) false h)
                       outputs)
          ∪ transferOutputBookings st
    ∧ (∀ output, output ∈ outputs →
         transferOutputs st' !! (h, fst output)
         = Some (NewTransferOutput target h (fst output) (snd output)))
    ∧ (∀ k, (∀ output, output ∈ outputs → k ≠ (h, fst output)) →
         transferOutputs st' !! k = transferOutputs st !! k).
Proof.
  intros Htarget. revert st r.
  induction outputs as [|[a bs] rest IH]; intros st r Hnodup Hr Hrange.
  - exists st. split; [done|]. split.
    { simpl. rewrite Z.add_0_r, wrap32_small by done.
      destruct r. symmetry. by apply insert_id. }
    split; [done|]. split; [set_solver|]. split; [|done].
    intros o Ho. by apply not_elem_of_nil in Ho.
  - apply NoDup_cons in Hnodup as [Hnotin Hnodup].
    pose proof (bookTransferOutput_fresh emptyRealityId target
                  (NewTransferOutput emptyRealityId h a bs) st eq_refl Htarget) as Hbook.
    set (st1 := mkLedgerState
                  (alter (fun r => snd (IncreaseTransferOutputCount r)) target
                     (realities st))
                  (conflictSets st)
                  (<[(h, a) := NewTransferOutput target h a bs]> (transferOutputs st))
                  ({[newTransferOutputBooking target a false h]}
                     ∪ transferOutputBookings st)).
    change (bookTransferOutput emptyRealityId target
              (NewTransferOutput emptyRealityId h a bs) st = (Ok tt, st1)) in Hbook.
    destruct (IH st1 (snd (IncreaseTransferOutputCount r)) Hnodup)
      as (st' & Hloop & Hrs & Hcs & Hbs & Hnew & Hold).
    { unfold st1. simpl. by rewrite lookup_alter_eq, Hr. }
    { simpl. apply wrap32_range. }
    exists st'. split.
    { unfold bookOutputs in *. cbn [forEach]. unfold bind. cbn [fst snd].
      by rewrite Hbook. }
    split.
    { rewrite Hrs. unfold st1. cbn [realities]. apply map_eq. intros k.
      destruct (decide (k = target)) as [->|Hk].
      - rewrite !lookup_insert_eq. simpl. f_equal. f_equal.
        rewrite wrap32_add_l. f_equal. lia.
      - by rewrite !lookup_insert_ne, lookup_alter_ne. }
    split; [by rewrite Hcs|]. split.
    { rewrite Hbs. unfold st1. cbn [transferOutputBookings map list_to_set fst].
      set_solver. }
    split.
    + intros o [->|Ho]%elem_of_cons; [|by apply Hnew].
      cbn [fst snd]. rewrite Hold.
      * unfold st1. cbn [transferOutputs]. by rewrite lookup_insert_eq.
      * intros o Ho [= Heq]. apply Hnotin. rewrite Heq.
        apply list_elem_of_fmap. by exists o.
    + intros k Hk. rewrite Hold.
      * unfold st1. cbn [transferOutputs]. rewrite lookup_insert_ne; [done|].
        intros <-. by apply (Hk (a, bs)); [left|].
      * intros o Ho. apply Hk. by right.
Qed.

End Accounting.

Lemma registerConflictSets_realities (target : RealityId) (conflictSets' : list ConflictId)
    (st st' : LedgerState) :
  forEach (registerConflictSet target) conflictSets' st = (Ok tt, st') →
  transferOutputBookings st' = transferOutputBookings st
  ∧ transferOutputs st' = transferOutputs st
  ∧ (∀ k, k ≠ target → realities st' !! k = realities st !! k)
  ∧ (∀ r, realities st !! target = Some r →
       ∃ r', realities st' !! target = Some r'
             ∧ transferOutputCount r' = transferOutputCount r).
Proof.
  revert st. induction conflictSets' as [|cid rest IH]; intros st; simpl.
  - intros [= <-]. split; [done|]. split; [done|]. split; [done|].
    intros r Hr. by exists r.
  - intros H. apply bind_Ok_inv in H as ([] & st1 & Hstep & Hrest).
    unfold registerConflictSet in Hstep.
    destruct (conflictSets st !! cid) as [c|]; [|done].
    injection Hstep as <-.
    destruct (IH _ Hrest) as (Hbs & Hos & Hother & Htarget).
    split; [by rewrite Hbs|]. split; [by rewrite Hos|]. split.
    + intros k Hk. rewrite Hother by done. simpl. by rewrite lookup_alter_ne.
    + intros r Hr. destruct (Htarget (AddConflictSet (conflict_id c) r))
        as (r' & Hr' & Hcount).
      { simpl. by rewrite lookup_alter_eq, Hr. }
      by exists r'.
Qed.

Section TransferAccounting.

Variable emptyRealityId : RealityId.
Variable NewConflictSetId : TransferHash → AddressHash → ConflictId.
Variable aggregatedRealityId : gset RealityId → RealityId.
Variable addConsumer :
  TransferOutput → TransferHash → list (AddressHash * list ColoredBalance) →
  TransferOutput * option (list (TransferHash * list AddressHash)).

(** X12. The books after [bookTransfer], from the state in which consuming the
    inputs has left the ledger.  Without a conflict, the count of the
    booking reality has grown by the number of outputs and no reality or
    conflict set has been created or removed.  With a conflict, the reality
    of the transfer counts exactly the outputs of the transfer and every
    other reality is as consuming the inputs left it.  Either way the
    bookings index has gained one unspent entry per output, each output is
    stored as a new output, and no other output has changed. *)
Theorem bookTransfer_accounting (fuel : nat) (reality : Reality)
    (h : TransferHash) (inputs : list TransferOutputReference)
    (outputs : list (AddressHash * list ColoredBalance))
    (st st1 : LedgerState) (returned : list ConflictId) :
  verifyTransfer fuel st reality inputs outputs = Ok tt →
  consumeInputs NewConflictSetId addConsumer
    (elevateTransferOutput emptyRealityId aggregatedRealityId fuel) (id reality)
    inputs h outputs [] st = (Ok returned, st1) →
  NoDup (map fst outputs) →
  ∃ st2,
    bookTransfer emptyRealityId NewConflictSetId aggregatedRealityId addConsumer fuel
      reality h inputs outputs st = (Ok tt, st2)
    ∧ (returned = [] → id reality ≠ emptyRealityId →
       ∀ r, realities st1 !! id reality = Some r →
            (0 ≤ transferOutputCount r < 2 ^ 32)%Z →
         realities st2
         = <[id reality := mkReality (id r) (parentRealityIds r) (conflictIds r)
                             (wrap32 (transferOutputCount r
                                      + Z.of_nat (length outputs)))]>
             (realities st1)
         ∧ conflictSets st2 = conflictSets st1
         ∧ outputs_booked (id reality) h outputs st1 st2)
    ∧ (returned ≠ [] → ToRealityId h ≠ emptyRealityId →
       (∃ target, realities st2 !! ToRealityId h = Some target
                  ∧ transferOutputCount target = wrap32 (Z.of_nat (length outputs)))
       ∧ (∀ k, k ≠ ToRealityId h → realities st2 !! k = realities st1 !! k)
       ∧ outputs_booked (ToRealityId h) h outputs st1 st2).
Proof.
  intros Hverify Hconsume Hnodup.
  assert (Hexist : ∀ cid, cid ∈ returned → is_Some (conflictSets st1 !! cid)).
  { eapply consumeInputs_conflicts_exist; [|exact Hconsume|].
    - intros r ref n. apply elevateTransferOutput_same_conflicts.
    - intros cid H. by apply not_elem_of_nil in H. }
  unfold bookTransfer. rewrite Hverify. unfold bind at 1. rewrite Hconsume.
  destruct returned as [|cid0 rest].
  - cbn [length bool_decide]. rewrite bool_decide_eq_false_2 by (simpl; lia).
    destruct (bookOutputs_spec emptyRealityId (id reality) h outputs st1)
      as (st2 & Hbook & _).
    exists st2. split; [done|]. split; [|done].
    intros _ Hne r Hr Hrange.
    destruct (bookOutputs_state emptyRealityId (id reality) h outputs st1 r
                Hne Hnodup Hr Hrange) as (st2' & Hbook' & Hrs & Hcs & Hbooked).
    assert (st2' = st2) as -> by congruence.
    done.
  - rewrite bool_decide_eq_true_2 by (simpl; lia).
    unfold bind at 1. unfold CreateReality at 1.
    set (st1' := set_realities
                   (insert (ToRealityId h)
                      (newReality (ToRealityId h) {[id reality]})) st1).
    destruct (registerConflictSets_spec NewConflictSetId (ToRealityId h)
                (cid0 :: rest) st1' (newReality (ToRealityId h) {[id reality]}))
      as (st1'' & Hreg & _).
    { unfold st1'. simpl. by rewrite lookup_insert_eq. }
    { intros cid Hin. unfold st1'. simpl. by apply Hexist. }
    destruct (registerConflictSets_realities _ _ _ _ Hreg)
      as (Hbs & Hos & Hother & Htarget).
    destruct (Htarget (newReality (ToRealityId h) {[id reality]}))
      as (r' & Hr' & Hcount).
    { unfold st1'. simpl. by rewrite lookup_insert_eq. }
    destruct (bookOutputs_spec emptyRealityId (ToRealityId h) h outputs st1'')
      as (st2 & Hbook & _).
    exists st2. split.
    { unfold bind. rewrite Hreg. exact Hbook. }
    split; [done|]. intros _ Hne.
    destruct (bookOutputs_state emptyRealityId (ToRealityId h) h outputs st1'' r'
                Hne Hnodup Hr') as (st2' & Hbook' & Hrs & Hcs & Hbk & Hnew & Hold).
    { rewrite Hcount. simpl. lia. }
    assert (st2' = st2) as -> by congruence.
    split; [|split].
    + eexists. split; [rewrite Hrs; apply lookup_insert_eq|].
      simpl. rewrite Hcount. simpl. done.
    + intros k Hk. rewrite Hrs, lookup_insert_ne by done.
      rewrite Hother by done. unfold st1'. simpl. by rewrite lookup_insert_ne.
    + split; [by rewrite Hbk, Hbs|]. split; [done|].
      intros k Hk. rewrite Hold by done. by rewrite Hos.
Qed.

End TransferAccounting.

Lemma bookTransfer_accounting_witness :
  ∃ st2,
    bookTransfer EMPTY_REALITY_ID exampleConflictSetId exampleAggregatedRealityId
      exampleAddConsumer 8 (exampleReality chainLedger MAIN_REALITY_ID) 12%N
      [(10%N, 1%N)] [(3%N, [mkColoredBalance iota 100])] chainLedger = (Ok tt, st2)
    ∧ ([exampleConflictSetId 10%N 1%N] = [] →
       id (exampleReality chainLedger MAIN_REALITY_ID) ≠ EMPTY_REALITY_ID →
       ∀ r, realities (snd doubleSpendConsumed)
              !! id (exampleReality chainLedger MAIN_REALITY_ID) = Some r →
            (0 ≤ transferOutputCount r < 2 ^ 32)%Z →
         realities st2
         = <[id (exampleReality chainLedger MAIN_REALITY_ID) :=
               mkReality (id r) (parentRealityIds r) (conflictIds r)
                 (wrap32 (transferOutputCount r
                          + Z.of_nat (length [(3%N, [mkColoredBalance iota 100])])))]>
             (realities (snd doubleSpendConsumed))
         ∧ conflictSets st2 = conflictSets (snd doubleSpendConsumed)
         ∧ outputs_booked (id (exampleReality chainLedger MAIN_REALITY_ID)) 12%N
             [(3%N, [mkColoredBalance iota 100])] (snd doubleSpendConsumed) st2)
    ∧ ([exampleConflictSetId 10%N 1%N] ≠ [] → ToRealityId 12%N ≠ EMPTY_REALITY_ID →
       (∃ target, realities st2 !! ToRealityId 12%N = Some target
                  ∧ transferOutputCount target
                    = wrap32 (Z.of_nat (length [(3%N, [mkColoredBalance iota 100])])))
       ∧ (∀ k, k ≠ ToRealityId 12%N →
            realities st2 !! k = realities (snd doubleSpendConsumed) !! k)
       ∧ outputs_booked (ToRealityId 12%N) 12%N [(3%N, [mkColoredBalance iota 100])]
           (snd doubleSpendConsumed) st2).
Proof.
  apply (bookTransfer_accounting EMPTY_REALITY_ID exampleConflictSetId
           exampleAggregatedRealityId exampleAddConsumer 8
           (exampleReality chainLedger MAIN_REALITY_ID)
           12%N [(10%N, 1%N)] [(3%N, [mkColoredBalance iota 100])] chainLedger
           (snd doubleSpendConsumed) [exampleConflictSetId 10%N 1%N]).
  - vm_compute. reflexivity.
  - vm_compute. reflexivity.
  - apply NoDup_singleton.
Defined.

Section FirstSpend.

Variable emptyRealityId : RealityId.
Variable NewConflictSetId : TransferHash → AddressHash → ConflictId.
Variable aggregatedRealityId : gset RealityId → RealityId.
Variable addConsumer :
  TransferOutput → TransferHash → list (AddressHash * list ColoredBalance) →
  TransferOutput * option (list (TransferHash * list AddressHash)).

(** Consuming inputs none of which has a consumer yet: every input is
    stored as [addConsumer] has left it, and nothing else happens. *)
Lemma consumeInputs_unspent
    (elevate : RealityId → TransferOutputReference → RealityId → M unit)
    (reality : RealityId) (inputs : list TransferOutputReference)
    (h : TransferHash) (outputs : list (AddressHash * list ColoredBalance))
    (acc : list ConflictId) (st : LedgerState) :
  NoDup inputs →
  (∀ input, input ∈ inputs →
     ∃ x, transferOutputs st !! input = Some x
          ∧ snd (addConsumer x h outputs) = None) →
  ∃ st1,
    consumeInputs NewConflictSetId addConsumer elevate reality inputs h outputs acc st
    = (Ok acc, st1)
    ∧ realities st1 = realities st
    ∧ conflictSets st1 = conflictSets st
    ∧ transferOutputBookings st1 = transferOutputBookings st
    ∧ (∀ input x, input ∈ inputs → transferOutputs st !! input = Some x →
         transferOutputs st1 !! input = Some (fst (addConsumer x h outputs)))
    ∧ (∀ k, k ∉ inputs → transferOutputs st1 !! k = transferOutputs st !! k).
Proof.
  revert st. induction inputs as [|input rest IH]; intros st Hnodup Hall.
  - exists st. split; [done|]. repeat split; try done.
    intros input x Hin. by apply not_elem_of_nil in Hin.
  - apply NoDup_cons in Hnodup as [Hnotin Hnodup].
    destruct (Hall input) as (x & Hx & Hnone); [by left|].
    cbn [consumeInputs]. unfold GetTransferOutput. rewrite Hx.
    destruct (addConsumer x h outputs) as [consumed toElevate] eqn:Hadd.
    simpl in Hnone. subst toElevate.
    destruct (IH (set_transferOutputs (insert input consumed) st) Hnodup)
      as (st1 & Hloop & Hrs & Hcs & Hbs & Hin & Hout).
    { intros input' Hin'. destruct (Hall input') as (x' & Hx' & Hnone'); [by right|].
      exists x'. split; [|done]. simpl. rewrite lookup_insert_ne; [done|].
      intros <-. by apply Hnotin. }
    exists st1. split; [done|]. split; [done|]. split; [done|]. split; [done|].
    split.
    + intros input' x' [->|Hin']%elem_of_cons Hx'.
      * assert (x' = x) as -> by congruence. rewrite Hadd. simpl.
        rewrite Hout by done. simpl. by rewrite lookup_insert_eq.
      * apply Hin; [done|]. simpl. rewrite lookup_insert_ne; [done|].
        intros <-. by apply Hnotin.
    + intros k Hk. apply not_elem_of_cons in Hk as [Hne Hk].
      rewrite Hout by done. simpl. by rewrite lookup_insert_ne.
Qed.

(** X13. A transfer that spends outputs nobody has spent before.  [BookTransfer]
    returns without error; no reality and no conflict set is created or
    removed; the count of the booking reality grows by the number of
    outputs; every input is stored as [addConsumer] has left it; every
    output is stored as a new output of the booking reality; the bookings
    index gains one unspent entry per output, and the entries of the inputs
    stay as they were. *)
Theorem BookTransfer_first_spend (fuel : nat) (reality : Reality)
    (transfer : Transfer) (st : LedgerState) (r : Reality) :
  verifyTransfer fuel st reality (GetInputs transfer) (GetOutputs transfer) = Ok tt →
  NoDup (GetInputs transfer) →
  NoDup (map fst (GetOutputs transfer)) →
  (∀ input, input ∈ GetInputs transfer →
     ∃ x, transferOutputs st !! input = Some x
          ∧ snd (addConsumer x (GetHash transfer) (GetOutputs transfer)) = None) →
  id reality ≠ emptyRealityId →
  realities st !! id reality = Some r →
  (0 ≤ transferOutputCount r < 2 ^ 32)%Z →
  ∃ st2,
    BookTransfer emptyRealityId NewConflictSetId aggregatedRealityId addConsumer fuel
      reality transfer st = (Ok tt, st2)
    ∧ realities st2
      = <[id reality := mkReality (id r) (parentRealityIds r) (conflictIds r)
                          (wrap32 (transferOutputCount r
                                   + Z.of_nat (length (GetOutputs transfer))))]>
          (realities st)
    ∧ conflictSets st2 = conflictSets st
    ∧ transferOutputBookings st2
      = list_to_set (map (fun output : AddressHash * list ColoredBalance =>
                            newTransferOutputBooking (id reality) (fst output) false
                              (GetHash transfer))
                       (GetOutputs transfer))
          ∪ transferOutputBookings st
    ∧ (∀ output, output ∈ GetOutputs transfer →
         transferOutputs st2 !! (GetHash transfer, fst output)
         = Some (NewTransferOutput (id reality) (GetHash transfer)
                   (fst output) (snd output)))
    ∧ (∀ input x, input ∈ GetInputs transfer →
         transferOutputs st !! input = Some x →
         (∀ output, output ∈ GetOutputs transfer →
            input ≠ (GetHash transfer, fst output)) →
         transferOutputs st2 !! input
         = Some (fst (addConsumer x (GetHash transfer) (GetOutputs transfer))))
    ∧ (∀ k, k ∉ GetInputs transfer →
         (∀ output, output ∈ GetOutputs transfer →
            k ≠ (GetHash transfer, fst output)) →
         transferOutputs st2 !! k = transferOutputs st !! k).
Proof.
  intros Hverify Hinputs Houtputs Hunspent Hne Hr Hrange.
  destruct transfer as [h inputs outputs]. cbn [GetHash GetInputs GetOutputs] in *.
  destruct (consumeInputs_unspent
              (elevateTransferOutput emptyRealityId aggregatedRealityId fuel)
              (id reality) inputs h outputs [] st Hinputs Hunspent)
    as (st1 & Hconsume & Hrs1 & Hcs1 & Hbs1 & Hin1 & Hout1).
  destruct (bookOutputs_state emptyRealityId (id reality) h outputs st1 r Hne Houtputs)
    as (st2 & Hbook & Hrs2 & Hcs2 & Hbs2 & Hnew2 & Hold2); [by rewrite Hrs1|done|].
  exists st2. split.
  { unfold BookTransfer, bookTransfer, getTransferInputs.
    cbn [GetHash GetInputs GetOutputs]. rewrite Hverify.
    unfold bind at 1. rewrite Hconsume. cbn [length].
    by rewrite bool_decide_eq_false_2 by lia. }
  split; [by rewrite Hrs2, Hrs1|]. split; [by rewrite Hcs2, Hcs1|].
  split; [by rewrite Hbs2, Hbs1|]. split; [done|]. split.
  - intros input x Hin Hx Hnot. rewrite Hold2 by done. by apply Hin1.
  - intros k Hk Hnot. rewrite Hold2 by done. by apply Hout1.
Qed.

End FirstSpend.

Lemma BookTransfer_first_spend_witness :
  ∃ st2,
    BookTransfer EMPTY_REALITY_ID exampleConflictSetId exampleAggregatedRealityId
      exampleAddConsumer 8 (mkReality MAIN_REALITY_ID ∅ ∅ 1)
      (mkTransfer 11%N [(10%N, 1%N)] [(2%N, [mkColoredBalance iota 100])])
      genesisLedger = (Ok tt, st2)
    ∧ realities st2
      = <[id (mkReality MAIN_REALITY_ID ∅ ∅ 1) :=
            mkReality MAIN_REALITY_ID ∅ ∅
              (wrap32 (1 + Z.of_nat (length [(2%N, [mkColoredBalance iota 100])])))]>
          (realities genesisLedger)
    ∧ conflictSets st2 = conflictSets genesisLedger
    ∧ transferOutputBookings st2
      = list_to_set (map (fun output : AddressHash * list ColoredBalance =>
                            newTransferOutputBooking MAIN_REALITY_ID (fst output) false
                              11%N)
                       [(2%N, [mkColoredBalance iota 100])])
          ∪ transferOutputBookings genesisLedger
    ∧ (∀ output, output ∈ [(2%N, [mkColoredBalance iota 100])] →
         transferOutputs st2 !! (11%N, fst output)
         = Some (NewTransferOutput MAIN_REALITY_ID 11%N (fst output) (snd output)))
    ∧ (∀ input x, input ∈ [(10%N, 1%N)] →
         transferOutputs genesisLedger !! input = Some x →
         (∀ output, output ∈ [(2%N, [mkColoredBalance iota 100])] →
            input ≠ (11%N, fst output)) →
         transferOutputs st2 !! input
         = Some (fst (exampleAddConsumer x 11%N [(2%N, [mkColoredBalance iota 100])])))
    ∧ (∀ k, k ∉ [(10%N, 1%N)] →
         (∀ output, output ∈ [(2%N, [mkColoredBalance iota 100])] →
            k ≠ (11%N, fst output)) →
         transferOutputs st2 !! k = transferOutputs genesisLedger !! k).
Proof.
  apply (BookTransfer_first_spend EMPTY_REALITY_ID exampleConflictSetId
           exampleAggregatedRealityId exampleAddConsumer 8
           (mkReality MAIN_REALITY_ID ∅ ∅ 1)
           (mkTransfer 11%N [(10%N, 1%N)] [(2%N, [mkColoredBalance iota 100])])
           genesisLedger (mkReality MAIN_REALITY_ID ∅ ∅ 1)).
  - vm_compute. reflexivity.
  - apply NoDup_singleton.
  - apply NoDup_singleton.
  - intros input Hin. apply list_elem_of_singleton in Hin as ->.
    eexists. split; [vm_compute; reflexivity|reflexivity].
  - discriminate.
  - vm_compute. reflexivity.
  - simpl. lia.
Defined.

(** * Errors of an elevation *)

Lemma elevateAddresses_forgets
    (elevate : RealityId → TransferOutputReference → RealityId → M unit)
    (reality : RealityId) (h : TransferHash) (addressHashes : list AddressHash)
    (elevatedReality : RealityId) (err : option Error) (st : LedgerState) :
  addressHashes ≠ [] →
  elevateAddresses elevate reality h addressHashes elevatedReality err st
  = elevateAddresses elevate reality h addressHashes elevatedReality None st.
Proof. by destruct addressHashes. Qed.

Lemma createRealityForConflictingConsumers_app
    (elevate : RealityId → TransferOutputReference → RealityId → M unit)
    (reality : RealityId) (pre post : list (TransferHash * list AddressHash))
    (conflictSet : ConflictId) (err : option Error) (st : LedgerState) :
  createRealityForConflictingConsumers elevate reality (pre ++ post) conflictSet err st
  = bind (createRealityForConflictingConsumers elevate reality pre conflictSet err)
      (fun err' =>
         createRealityForConflictingConsumers elevate reality post conflictSet err')
      st.
Proof.
  revert err st. induction pre as [|[h addressHashes] pre IH]; intros err st.
  - reflexivity.
  - rewrite <- app_comm_cons, createRealityForConflictingConsumers_cons.
    unfold bind at 2. rewrite createRealityForConflictingConsumers_cons.
    unfold bind.
    destruct (elevateAddresses _ _ _ _ _ _ _) as [[err'| | |] st1];
      first [exact (IH err' st1)|done].
Qed.

Section ElevationErrors.

Variable NewConflictSetId : TransferHash → AddressHash → ConflictId.

(** X14. The error of an elevation is kept in one variable that every later
    elevation assigns.  When the elevation of an earlier consumer fails and
    the elevation of the last consumer succeeds,
    [retrieveConflictSetForConflictingInput] returns the conflict set and
    no error; the same consumers without the last one make it return the
    error. *)
Theorem retrieveConflictSet_error_overwritten
    (elevate : RealityId → TransferOutputReference → RealityId → M unit)
    (reality : RealityId) (input : TransferOutput)
    (pre : list (TransferHash * list AddressHash)) (h : TransferHash)
    (addressHashes : list AddressHash) (st st1 st2 : LedgerState) (e : Error) :
  let conflictSetId := NewConflictSetId (transferHash input) (addressHash input) in
  addressHashes ≠ [] →
  createRealityForConflictingConsumers elevate reality pre conflictSetId None
    (set_conflictSets (insert conflictSetId (newConflictSet conflictSetId)) st)
  = (Ok (Some e), st1) →
  createRealityForConflictingConsumers elevate reality [(h, addressHashes)]
    conflictSetId None st1 = (Ok None, st2) →
  retrieveConflictSetForConflictingInput NewConflictSetId elevate reality input pre st
  = (Err e, st1)
  ∧ retrieveConflictSetForConflictingInput NewConflictSetId elevate reality input
      (pre ++ [(h, addressHashes)]) st
    = (Ok conflictSetId, st2).
Proof.
  intros conflictSetId Haddr Hpre Hlast.
  unfold retrieveConflictSetForConflictingInput. fold conflictSetId. split.
  - destruct pre as [|c pre]; [discriminate Hpre|].
    rewrite bool_decide_eq_true_2 by (simpl; lia).
    unfold bind at 1. unfold modify at 1. unfold bind. by rewrite Hpre.
  - rewrite bool_decide_eq_true_2 by (rewrite length_app; simpl; lia).
    unfold bind at 1. unfold modify at 1. unfold bind at 1.
    rewrite createRealityForConflictingConsumers_app. unfold bind at 1.
    rewrite Hpre.
    rewrite createRealityForConflictingConsumers_cons in Hlast |- *.
    unfold bind at 1. unfold bind at 1 in Hlast.
    rewrite elevateAddresses_forgets by done.
    destruct (elevateAddresses _ _ _ _ _ _ _) as [[err'| | |] st3]; try done.
    cbn [createRealityForConflictingConsumers] in *. unfold ret in *.
    by injection Hlast as -> ->.
Qed.

End ElevationErrors.

Lemma retrieveConflictSet_error_overwritten_witness :
  exampleRetrieve [(99%N, [1%N])]
  = (Err ErrElevate,
     snd (createRealityForConflictingConsumers
            (elevateTransferOutput EMPTY_REALITY_ID exampleAggregatedRealityId 8)
            MAIN_REALITY_ID [(99%N, [1%N])] (exampleConflictSetId 10%N 1%N) None
            (set_conflictSets
               (insert (exampleConflictSetId 10%N 1%N)
                  (newConflictSet (exampleConflictSetId 10%N 1%N))) chainLedger)))
  ∧ exampleRetrieve ([(99%N, [1%N])] ++ [(11%N, [2%N])])
    = (Ok (exampleConflictSetId 10%N 1%N), snd (exampleRetrieve missingFirst)).
Proof.
  apply (retrieveConflictSet_error_overwritten exampleConflictSetId
           (elevateTransferOutput EMPTY_REALITY_ID exampleAggregatedRealityId 8)
           MAIN_REALITY_ID genesisOutput [(99%N, [1%N])] 11%N [2%N] chainLedger).
  - discriminate.
  - vm_compute. reflexivity.
  - vm_compute. reflexivity.
Defined.

(** * What an elevation leaves alone *)

#[local] Instance outputs_rebooked_refl : Reflexive outputs_rebooked.
Proof. by intros st Hkeyed. Qed.

#[local] Instance outputs_rebooked_trans : Transitive outputs_rebooked.
Proof.
  intros a b c H1 H2 Hkeyed.
  destruct (H1 Hkeyed) as [Hb Hab]. destruct (H2 Hb) as [Hc Hbc].
  split; [done|congruence].
Qed.

Lemma outputs_rebooked_same (st st' : LedgerState) :
  transferOutputs st' = transferOutputs st → outputs_rebooked st st'.
Proof. intros H Hkeyed. unfold outputs_keyed. by rewrite H. Qed.

Lemma outputs_rebooked_insert (st st' : LedgerState) (x : TransferOutput)
    (reality : RealityId) :
  transferOutputs st !! storageKey x = Some x →
  transferOutputs st' = <[storageKey x := SetRealityId reality x]> (transferOutputs st) →
  outputs_rebooked st st'.
Proof.
  intros Hx Hst' Hkeyed. unfold outputs_keyed. rewrite Hst'. split.
  - apply map_Forall_insert_2; [done|exact Hkeyed].
  - rewrite fmap_insert. apply insert_id.
    rewrite lookup_fmap, Hx. by destruct x.
Qed.

Section ElevationKeeps.

Variable emptyRealityId : RealityId.
Variable aggregatedRealityId : gset RealityId → RealityId.

Lemma bookTransferOutput_rebooked (reality : RealityId) (x : TransferOutput)
    (st st' : LedgerState) (res : Res unit) :
  transferOutputs st !! storageKey x = Some x →
  bookTransferOutput emptyRealityId reality x st = (res, st') →
  outputs_rebooked st st'.
Proof.
  intros Hx. unfold bookTransferOutput, releaseOldReality, GetReality. unfold_M.
  destruct (decide (realityId x = emptyRealityId)) as [Hempty|Hempty].
  - destruct (decide (realityId x ≠ reality)); intros [= <- <-];
      by apply (outputs_rebooked_insert _ _ x reality).
  - destruct (decide (realityId x ≠ reality)) as [Hne|Heq].
    + simpl. destruct (realities st !! realityId x) as [old|]; simpl.
      * destruct (decide _); intros [= <- <-];
          apply (outputs_rebooked_insert _ _ x reality); [done| |done|];
          simpl; by apply alter_present.
      * intros [= <- <-]. apply (outputs_rebooked_insert _ _ x reality); [done|].
        simpl. by apply alter_present.
    + intros [= <- <-]. reflexivity.
Qed.

Lemma elevateCurrent_rebooked
    (elevate : RealityId → TransferOutputReference → RealityId → M unit)
    (reality : RealityId) (x : TransferOutput) (newRealityId : RealityId)
    (st st' : LedgerState) (res : Res unit) :
  (∀ r ref n, preserves outputs_rebooked (elevate r ref n)) →
  transferOutputs st !! storageKey x = Some x →
  elevateTransferOutputOfCurrentReality emptyRealityId elevate reality x newRealityId st
  = (res, st') →
  outputs_rebooked st st'.
Proof.
  intros He Hx. unfold elevateTransferOutputOfCurrentReality, bind.
  destruct (bookTransferOutput emptyRealityId newRealityId x st) as [[[]|e| |] st1]
    eqn:Hbook.
  - intros Hloop. etransitivity; [by eapply bookTransferOutput_rebooked|].
    revert Hloop. apply preserves_forEach; try apply _. intros consumer.
    apply preserves_forEach; try apply _. intros a. apply He.
  - intros [= <- <-]. by eapply bookTransferOutput_rebooked.
  - intros [= <- <-]. by eapply bookTransferOutput_rebooked.
  - intros [= <- <-]. by eapply bookTransferOutput_rebooked.
Qed.

Lemma elevateNested_rebooked
    (elevate : RealityId → TransferOutputReference → RealityId → M unit)
    (realityKey : RealityId) (reality : Reality) (x : TransferOutput)
    (oldParent newParent : RealityId) (st st' : LedgerState) (res : Res unit) :
  (∀ r ref n, preserves outputs_rebooked (elevate r ref n)) →
  transferOutputs st !! storageKey x = Some x →
  elevateTransferOutputOfNestedReality emptyRealityId aggregatedRealityId elevate
    realityKey reality x oldParent newParent st = (res, st') →
  outputs_rebooked st st'.
Proof.
  intros He Hx. unfold elevateTransferOutputOfNestedReality.
  destruct (negb _).
  { intros [= <- <-]. by apply outputs_rebooked_same. }
  unfold bind, AggregateRealities, GetReality.
  destruct (elements _) as [|p [|q l]].
  - destruct (realities st !! aggregatedRealityId _) eqn:Hagg.
    + rewrite Hagg. by apply elevateCurrent_rebooked.
    + simpl. rewrite lookup_insert_eq. intros H.
      transitivity (set_realities
                      (insert (aggregatedRealityId
                                 ((parentRealityIds reality ∖ {[oldParent]})
                                    ∪ {[newParent]}))
                         (newReality
                            (aggregatedRealityId
                               ((parentRealityIds reality ∖ {[oldParent]})
                                  ∪ {[newParent]}))
                            ((parentRealityIds reality ∖ {[oldParent]})
                               ∪ {[newParent]}))) st).
      { by apply outputs_rebooked_same. }
      revert H. by apply elevateCurrent_rebooked.
  - destruct (realities st !! p).
    + by apply elevateCurrent_rebooked.
    + intros [= <- <-]. reflexivity.
  - destruct (realities st !! aggregatedRealityId _) eqn:Hagg.
    + rewrite Hagg. by apply elevateCurrent_rebooked.
    + simpl. rewrite lookup_insert_eq. intros H.
      transitivity (set_realities
                      (insert (aggregatedRealityId
                                 ((parentRealityIds reality ∖ {[oldParent]})
                                    ∪ {[newParent]}))
                         (newReality
                            (aggregatedRealityId
                               ((parentRealityIds reality ∖ {[oldParent]})
                                  ∪ {[newParent]}))
                            ((parentRealityIds reality ∖ {[oldParent]})
                               ∪ {[newParent]}))) st).
      { by apply outputs_rebooked_same. }
      revert H. by apply elevateCurrent_rebooked.
Qed.

Lemma elevateTransferOutput_rebooked (fuel : nat) (reality : RealityId)
    (ref : TransferOutputReference) (newRealityId : RealityId) :
  preserves outputs_rebooked
    (elevateTransferOutput emptyRealityId aggregatedRealityId fuel reality ref
       newRealityId).
Proof.
  revert reality ref newRealityId.
  induction fuel as [|fuel IH]; intros reality ref newRealityId st res st'; simpl.
  - intros [= <- <-]. reflexivity.
  - unfold GetTransferOutput.
    destruct (transferOutputs st !! ref) as [x|] eqn:Hx;
      [|intros [= <- <-]; reflexivity].
    intros H Hkeyed. revert H.
    assert (Hstored : transferOutputs st !! storageKey x = Some x).
    { by rewrite (Hkeyed ref x Hx). }
    destruct (decide _).
    + intros H. by apply (elevateCurrent_rebooked _ _ _ _ _ _ _ IH Hstored H).
    + unfold GetReality. destruct (realities st !! realityId x) as [nested|].
      * intros H. by apply (elevateNested_rebooked _ _ _ _ _ _ _ _ _ IH Hstored H).
      * by intros [= <- <-].
Qed.

(** X15. An elevation books outputs into other realities and does nothing else
    to them.  From a store in which every output sits under its own key,
    and whatever the elevation returns: the same keys are stored
    afterwards, every output has the transfer hash, address, balances and
    consumers it had, and the conflict sets are untouched. *)
Theorem elevateTransferOutput_keeps_outputs (fuel : nat) (reality : RealityId)
    (ref : TransferOutputReference) (newRealityId : RealityId)
    (st st' : LedgerState) (res : Res unit) :
  outputs_keyed st →
  elevateTransferOutput emptyRealityId aggregatedRealityId fuel reality ref
    newRealityId st = (res, st') →
  outputs_keyed st'
  ∧ dom (transferOutputs st') = dom (transferOutputs st)
  ∧ (∀ key x, transferOutputs st !! key = Some x →
       ∃ x', transferOutputs st' !! key = Some x'
             ∧ transferHash x' = transferHash x
             ∧ addressHash x' = addressHash x
             ∧ balances x' = balances x
             ∧ consumers x' = consumers x)
  ∧ conflictSets st' = conflictSets st.
Proof.
  intros Hkeyed Helevate.
  destruct (elevateTransferOutput_rebooked _ _ _ _ _ _ _ Helevate Hkeyed)
    as [Hkeyed' Hsame].
  split; [done|]. split; [|split].
  - apply (f_equal dom) in Hsame. by rewrite !dom_fmap_L in Hsame.
  - intros key x Hx.
    assert (Hlookup : (withoutRealityId <$> transferOutputs st') !! key
                      = Some (withoutRealityId x)).
    { by rewrite Hsame, lookup_fmap, Hx. }
    rewrite lookup_fmap in Hlookup.
    destruct (transferOutputs st' !! key) as [x'|]; [|done].
    exists x'. split; [done|]. injection Hlookup as H1 H2 H3 H4.
    done.
  - by eapply elevateTransferOutput_same_conflicts.
Qed.

End ElevationKeeps.

Lemma elevateTransferOutput_keeps_outputs_witness :
  outputs_keyed
    (snd (elevateTransferOutput EMPTY_REALITY_ID exampleAggregatedRealityId 8
            MAIN_REALITY_ID (11%N, 2%N) 11%N chainLedger))
  ∧ dom (transferOutputs
           (snd (elevateTransferOutput EMPTY_REALITY_ID exampleAggregatedRealityId 8
                   MAIN_REALITY_ID (11%N, 2%N) 11%N chainLedger)))
    = dom (transferOutputs chainLedger)
  ∧ (∀ key x, transferOutputs chainLedger !! key = Some x →
       ∃ x', transferOutputs
               (snd (elevateTransferOutput EMPTY_REALITY_ID
                       exampleAggregatedRealityId 8 MAIN_REALITY_ID (11%N, 2%N) 11%N
                       chainLedger)) !! key = Some x'
             ∧ transferHash x' = transferHash x
             ∧ addressHash x' = addressHash x
             ∧ balances x' = balances x
             ∧ consumers x' = consumers x)
  ∧ conflictSets
      (snd (elevateTransferOutput EMPTY_REALITY_ID exampleAggregatedRealityId 8
              MAIN_REALITY_ID (11%N, 2%N) 11%N chainLedger))
    = conflictSets chainLedger.
Proof.
  apply (elevateTransferOutput_keeps_outputs EMPTY_REALITY_ID
           exampleAggregatedRealityId 8 MAIN_REALITY_ID (11%N, 2%N) 11%N chainLedger
           _ (fst (elevateTransferOutput EMPTY_REALITY_ID exampleAggregatedRealityId 8
                     MAIN_REALITY_ID (11%N, 2%N) 11%N chainLedger))).
  - unfold outputs_keyed. apply (bool_decide_unpack _). vm_compute. exact I.
  - vm_compute. reflexivity.
Defined.

(** * Elevation along the chain of spends *)

Lemma forEach_consumers_flat (g : TransferOutputReference → M unit)
    (consumers' : list (TransferHash * list AddressHash)) (st : LedgerState) :
  forEach (fun consumer : TransferHash * list AddressHash =>
             forEach (fun addressHash =>
                        g (NewTransferOutputReference (fst consumer) addressHash))
               (snd consumer))
    consumers' st
  = forEach g
      (flat_map (fun consumer : TransferHash * list AddressHash =>
                   map (NewTransferOutputReference (fst consumer)) (snd consumer))
         consumers') st.
Proof.
  revert st. induction consumers' as [|[h addressHashes] rest IH]; intros st; [done|].
  cbn [forEach flat_map fst snd].
  revert st. induction addressHashes as [|a l IHl]; intros st.
  - simpl. unfold bind, ret. apply IH.
  - cbn [forEach map app]. unfold bind in *.
    destruct (g (NewTransferOutputReference h a) st) as [[[]|e| |] st1];
      first [apply IHl|done].
Qed.

Lemma DecreaseTransferOutputCount_positive (r : Reality) :
  (1 ≤ transferOutputCount r < 2 ^ 32)%Z →
  DecreaseTransferOutputCount r
  = ((transferOutputCount r - 1)%Z,
     mkReality (id r) (parentRealityIds r) (conflictIds r)
       (transferOutputCount r - 1)).
Proof.
  intros Hrange. unfold DecreaseTransferOutputCount.
  assert (Hdec : wrap32 (transferOutputCount r + uint32_not 0)
                 = (transferOutputCount r - 1)%Z).
  { rewrite uint32_not_0. unfold wrap32.
    replace (transferOutputCount r + (2 ^ 32 - 1))%Z
      with (transferOutputCount r - 1 + 1 * 2 ^ 32)%Z by lia.
    rewrite Z_mod_plus_full. apply Z.mod_small. lia. }
  by rewrite Hdec.
Qed.

Section SpendChain.

Variable emptyRealityId : RealityId.
Variable aggregatedRealityId : gset RealityId → RealityId.

(** Moving one output out of a reality that counts at least one. *)
Lemma bookTransferOutput_move_positive (reality newRealityId : RealityId)
    (y : TransferOutput) (r : Reality) (st : LedgerState) :
  transferOutputs st !! storageKey y = Some y →
  realityId y = reality →
  reality ≠ newRealityId →
  reality ≠ emptyRealityId →
  realities st !! reality = Some r →
  (1 ≤ transferOutputCount r < 2 ^ 32)%Z →
  ∃ st', bookTransferOutput emptyRealityId newRealityId y st = (Ok tt, st')
    ∧ transferOutputs st'
      = <[storageKey y := SetRealityId newRealityId y]> (transferOutputs st)
    ∧ realities st' !! reality
      = (if decide (transferOutputCount r = 1%Z) then None
         else Some (mkReality (id r) (parentRealityIds r) (conflictIds r)
                      (transferOutputCount r - 1)))
    ∧ realities st' !! newRealityId
      = (fun r => snd (IncreaseTransferOutputCount r))
          <$> realities st !! newRealityId
    ∧ (∀ k, k ≠ reality → k ≠ newRealityId →
         realities st' !! k = realities st !! k).
Proof.
  intros Hy Hreality Hne Hempty Hr Hrange. subst reality.
  eexists. split; [by apply bookTransferOutput_move|].
  cbn [transferOutputs realities]. split; [by apply alter_present|].
  rewrite lookup_alter_ne by done. rewrite lookup_alter_eq.
  rewrite DecreaseTransferOutputCount_positive by done. cbn [fst snd].
  destruct (decide (transferOutputCount r = 1%Z)) as [Hone|Hone].
  - rewrite decide_True by lia. split; [apply lookup_delete_eq|].
    split; [by rewrite lookup_delete_ne, lookup_insert_ne|].
    intros k Hk1 Hk2.
    by rewrite lookup_alter_ne, lookup_delete_ne, lookup_insert_ne.
  - rewrite decide_False by lia. split; [apply lookup_insert_eq|].
    split; [by rewrite lookup_insert_ne|].
    intros k Hk1 Hk2. by rewrite lookup_alter_ne, lookup_insert_ne.
Qed.

Lemma elevateTransferOutput_unspent_loop (fuel : nat) (reality newRealityId : RealityId)
    (refs : list TransferOutputReference) (st : LedgerState) :
  reality ≠ newRealityId →
  reality ≠ emptyRealityId →
  NoDup refs →
  (∀ ref, ref ∈ refs →
     ∃ y, transferOutputs st !! ref = Some y ∧ storageKey y = ref
          ∧ realityId y = reality ∧ consumers y = []) →
  (refs ≠ [] →
   ∃ r, realities st !! reality = Some r
        ∧ (Z.of_nat (length refs) ≤ transferOutputCount r < 2 ^ 32)%Z) →
  ∃ st',
    forEach (fun ref =>
               elevateTransferOutput emptyRealityId aggregatedRealityId (S fuel)
                 reality ref newRealityId)
      refs st = (Ok tt, st')
    ∧ (∀ ref, ref ∈ refs → realityId <$> transferOutputs st' !! ref = Some newRealityId)
    ∧ (∀ k, k ∉ refs → transferOutputs st' !! k = transferOutputs st !! k)
    ∧ (∀ r, realities st !! reality = Some r →
         (Z.of_nat (length refs) < transferOutputCount r < 2 ^ 32)%Z →
         realities st' !! reality
         = Some (mkReality (id r) (parentRealityIds r) (conflictIds r)
                   (transferOutputCount r - Z.of_nat (length refs))))
    ∧ (∀ n, realities st !! newRealityId = Some n →
         ∃ n', realities st' !! newRealityId = Some n'
               ∧ id n' = id n
               ∧ parentRealityIds n' = parentRealityIds n
               ∧ conflictIds n' = conflictIds n)
    ∧ (∀ n, realities st !! newRealityId = Some n →
         (0 ≤ transferOutputCount n < 2 ^ 32)%Z →
         ∃ n', realities st' !! newRealityId = Some n'
               ∧ transferOutputCount n'
                 = wrap32 (transferOutputCount n + Z.of_nat (length refs)))
    ∧ (∀ k, k ≠ reality → k ≠ newRealityId →
         realities st' !! k = realities st !! k).
Proof.
  intros Hne Hempty. revert st.
  induction refs as [|ref rest IH]; intros st Hnodup Hall Hstored.
  - exists st. split; [done|]. split.
    { intros ref Hin. by apply not_elem_of_nil in Hin. }
    split; [done|]. split.
    { intros r Hr _. rewrite Hr. destruct r. simpl. by rewrite Z.sub_0_r. }
    split; [intros n Hn; by exists n|]. split; [|done].
    intros n Hn Hrange. exists n. split; [done|]. simpl.
    by rewrite Z.add_0_r, wrap32_small.
  - apply NoDup_cons in Hnodup as [Hnotin Hnodup].
    destruct (Hall ref) as (y & Hy & Hkey & Hreality & Hconsumers); [by left|].
    destruct Hstored as (r & Hr & Hrange); [done|]. cbn [length] in Hrange.
    destruct (bookTransferOutput_move_positive reality newRealityId y r st)
      as (st1 & Hbook & Hos1 & Hrs1 & Hnew1 & Hother1); try done;
      [by rewrite Hkey|lia|].
    assert (Hstep : elevateTransferOutput emptyRealityId aggregatedRealityId (S fuel)
                      reality ref newRealityId st = (Ok tt, st1)).
    { cbn [elevateTransferOutput]. unfold GetTransferOutput.
      rewrite Hy, decide_True by done.
      unfold elevateTransferOutputOfCurrentReality, bind.
      by rewrite Hbook, Hconsumers. }
    rewrite Hkey in Hos1.
    destruct (IH st1 Hnodup)
      as (st' & Hloop & Hmoved & Hkept & Hcount & Hnew & Hnewcount & Hother).
    { intros ref' Hin. destruct (Hall ref') as (y' & Hy' & Hrest); [by right|].
      exists y'. split; [|done]. rewrite Hos1, lookup_insert_ne; [done|].
      intros <-. by apply Hnotin. }
    { intros Hrest. rewrite Hrs1.
      assert (1 ≤ length rest) by (destruct rest; [done|simpl; lia]).
      rewrite decide_False by lia. eexists. split; [done|]. simpl. lia. }
    exists st'. split.
    { cbn [forEach]. unfold bind. by rewrite Hstep. }
    split; [|split; [|split; [|split; [|split]]]]; cycle 3.
    { intros n Hn. rewrite Hn in Hnew1. simpl in Hnew1.
      destruct (Hnew _ Hnew1) as (n' & Hn' & Hid & Hparents & Hcids).
      by exists n'. }
    { intros n Hn Hrange0. rewrite Hn in Hnew1. simpl in Hnew1.
      destruct (Hnewcount _ Hnew1) as (n' & Hn' & Hcount').
      { simpl. apply wrap32_range. }
      exists n'. split; [done|]. rewrite Hcount'. simpl.
      rewrite wrap32_add_l. f_equal. lia. }
    { intros k Hk1 Hk2. rewrite Hother by done. by apply Hother1. }
    + intros ref' [->|Hin]%elem_of_cons; [|by apply Hmoved].
      rewrite Hkept by done. by rewrite Hos1, lookup_insert_eq.
    + intros k Hk. apply not_elem_of_cons in Hk as [Hk1 Hk2].
      rewrite Hkept by done. by rewrite Hos1, lookup_insert_ne.
    + intros r0 Hr0 Hrange0. assert (r0 = r) as -> by congruence.
      cbn [length] in Hrange0.
      rewrite (Hcount (mkReality (id r) (parentRealityIds r) (conflictIds r)
                         (transferOutputCount r - 1))).
      * simpl. do 2 f_equal. lia.
      * rewrite Hrs1. rewrite decide_False by lia. done.
      * simpl. lia.
Qed.

(** X16. Elevation follows the spends.  When an output of the booking reality is
    elevated and the outputs of its consumers are unspent outputs of that
    reality too, the output and every output of a consumer end up in the
    new reality, no other output is touched, and the booking reality, which
    counted at least these outputs, counts them no more. *)
Theorem elevateTransferOutput_moves_consumers (fuel : nat)
    (reality newRealityId : RealityId) (st : LedgerState) (x : TransferOutput)
    (r : Reality) :
  transferOutputs st !! storageKey x = Some x →
  realityId x = reality →
  reality ≠ newRealityId →
  reality ≠ emptyRealityId →
  NoDup (storageKey x :: consumerOutputs x) →
  (∀ ref, ref ∈ consumerOutputs x →
     ∃ y, transferOutputs st !! ref = Some y ∧ storageKey y = ref
          ∧ realityId y = reality ∧ consumers y = []) →
  realities st !! reality = Some r →
  (1 + Z.of_nat (length (consumerOutputs x)) ≤ transferOutputCount r < 2 ^ 32)%Z →
  ∃ st',
    elevateTransferOutput emptyRealityId aggregatedRealityId (S (S fuel)) reality
      (storageKey x) newRealityId st = (Ok tt, st')
    ∧ (∀ ref, ref ∈ storageKey x :: consumerOutputs x →
         realityId <$> transferOutputs st' !! ref = Some newRealityId)
    ∧ (∀ k, k ∉ storageKey x :: consumerOutputs x →
         transferOutputs st' !! k = transferOutputs st !! k)
    ∧ ((1 + Z.of_nat (length (consumerOutputs x)) < transferOutputCount r)%Z →
       realities st' !! reality
       = Some (mkReality (id r) (parentRealityIds r) (conflictIds r)
                 (transferOutputCount r
                  - (1 + Z.of_nat (length (consumerOutputs x)))))).
Proof.
  intros Hx Hreality Hne Hempty Hnodup Hall Hr Hrange.
  apply NoDup_cons in Hnodup as [Hnotin Hnodup].
  destruct (bookTransferOutput_move_positive reality newRealityId x r st)
    as (st0 & Hbook & Hos0 & Hrs0 & _); try done; [lia|].
  destruct (elevateTransferOutput_unspent_loop fuel reality newRealityId
              (consumerOutputs x) st0 Hne Hempty Hnodup)
    as (st' & Hloop & Hmoved & Hkept & Hcount & _).
  { intros ref Hin. destruct (Hall ref Hin) as (y & Hy & Hrest).
    exists y. split; [|done]. rewrite Hos0, lookup_insert_ne; [done|].
    intros <-. by apply Hnotin. }
  { intros Hrefs. rewrite Hrs0.
    assert (1 ≤ length (consumerOutputs x))
      by (destruct (consumerOutputs x); [done|simpl; lia]).
    rewrite decide_False by lia. eexists. split; [done|]. simpl. lia. }
  exists st'. split.
  { cbn [elevateTransferOutput]. unfold GetTransferOutput.
    rewrite Hx, decide_True by done.
    unfold elevateTransferOutputOfCurrentReality, bind. rewrite Hbook.
    rewrite (forEach_consumers_flat
               (fun ref => elevateTransferOutput emptyRealityId aggregatedRealityId
                             (S fuel) reality ref newRealityId)).
    exact Hloop. }
  split; [|split].
  - intros ref [->|Hin]%elem_of_cons; [|by apply Hmoved].
    rewrite Hkept by done. by rewrite Hos0, lookup_insert_eq.
  - intros k Hk. apply not_elem_of_cons in Hk as [Hk1 Hk2].
    rewrite Hkept by done. by rewrite Hos0, lookup_insert_ne.
  - intros Hmore.
    rewrite (Hcount (mkReality (id r) (parentRealityIds r) (conflictIds r)
                       (transferOutputCount r - 1))).
    + simpl. do 2 f_equal. lia.
    + rewrite Hrs0. rewrite decide_False by lia. done.
    + simpl. lia.
Qed.

End SpendChain.

Lemma elevateTransferOutput_moves_consumers_witness :
  ∃ st',
    elevateTransferOutput EMPTY_REALITY_ID exampleAggregatedRealityId 8
      MAIN_REALITY_ID
      (storageKey (mkTransferOutput 11%N 2%N MAIN_REALITY_ID
                     [mkColoredBalance iota 100] [(13%N, [4%N])]))
      11%N chainLedger = (Ok tt, st')
    ∧ (∀ ref,
         ref ∈ storageKey (mkTransferOutput 11%N 2%N MAIN_REALITY_ID
                             [mkColoredBalance iota 100] [(13%N, [4%N])])
               :: consumerOutputs (mkTransferOutput 11%N 2%N MAIN_REALITY_ID
                                     [mkColoredBalance iota 100] [(13%N, [4%N])]) →
         realityId <$> transferOutputs st' !! ref = Some 11%N)
    ∧ (∀ k,
         k ∉ storageKey (mkTransferOutput 11%N 2%N MAIN_REALITY_ID
                           [mkColoredBalance iota 100] [(13%N, [4%N])])
             :: consumerOutputs (mkTransferOutput 11%N 2%N MAIN_REALITY_ID
                                   [mkColoredBalance iota 100] [(13%N, [4%N])]) →
         transferOutputs st' !! k = transferOutputs chainLedger !! k)
    ∧ ((1 + Z.of_nat
              (length (consumerOutputs
                         (mkTransferOutput 11%N 2%N MAIN_REALITY_ID
                            [mkColoredBalance iota 100] [(13%N, [4%N])])))
        < transferOutputCount (mkReality MAIN_REALITY_ID ∅ ∅ 3))%Z →
       realities st' !! MAIN_REALITY_ID
       = Some (mkReality (id (mkReality MAIN_REALITY_ID ∅ ∅ 3))
                 (parentRealityIds (mkReality MAIN_REALITY_ID ∅ ∅ 3))
                 (conflictIds (mkReality MAIN_REALITY_ID ∅ ∅ 3))
                 (transferOutputCount (mkReality MAIN_REALITY_ID ∅ ∅ 3)
                  - (1 + Z.of_nat
                           (length (consumerOutputs
                                      (mkTransferOutput 11%N 2%N MAIN_REALITY_ID
                                         [mkColoredBalance iota 100]
                                         [(13%N, [4%N])]))))))).
Proof.
  apply (elevateTransferOutput_moves_consumers EMPTY_REALITY_ID
           exampleAggregatedRealityId 6 MAIN_REALITY_ID 11%N chainLedger
           (mkTransferOutput 11%N 2%N MAIN_REALITY_ID [mkColoredBalance iota 100]
              [(13%N, [4%N])])
           (mkReality MAIN_REALITY_ID ∅ ∅ 3)).
  - vm_compute. reflexivity.
  - reflexivity.
  - discriminate.
  - discriminate.
  - apply (bool_decide_unpack _). vm_compute. exact I.
  - intros ref Hin. apply list_elem_of_singleton in Hin as ->.
    eexists. split; [vm_compute; reflexivity|]. repeat split.
  - vm_compute. reflexivity.
  - simpl. lia.
Defined.

(** * The depth of the recursion *)

Lemma addAncestors_foldl_stuck (f : Reality → Res (gmap RealityId Reality))
    (entries : list (RealityId * Reality)) (acc : Res (gmap RealityId Reality)) :
  (∀ m, acc ≠ Ok m) →
  foldl (addAncestors f) acc entries = acc.
Proof.
  intros Hacc. induction entries as [|entry entries IH]; [done|]. simpl.
  destruct acc as [m| | |]; [by destruct (Hacc m)|exact IH..].
Qed.

Lemma addAncestors_foldl_more (f g : Reality → Res (gmap RealityId Reality))
    (entries : list (RealityId * Reality)) (acc : Res (gmap RealityId Reality)) :
  (∀ entry, entry ∈ entries → f (snd entry) ≠ OutOfFuel →
     g (snd entry) = f (snd entry)) →
  foldl (addAncestors f) acc entries ≠ OutOfFuel →
  foldl (addAncestors g) acc entries = foldl (addAncestors f) acc entries.
Proof.
  revert acc. induction entries as [|entry entries IH]; intros acc Hfg Hres; [done|].
  cbn [foldl] in *.
  assert (Hrest : ∀ e, e ∈ entries → f (snd e) ≠ OutOfFuel → g (snd e) = f (snd e)).
  { intros e He. apply Hfg. by right. }
  destruct acc as [m|e| |]; [|by apply IH..].
  cbn [addAncestors] in *.
  destruct (f (snd entry)) as [anc|e| |] eqn:Hf.
  - rewrite (Hfg entry), Hf; [by apply IH|by left|by rewrite Hf].
  - rewrite (Hfg entry), Hf; [by apply IH|by left|by rewrite Hf].
  - rewrite (Hfg entry), Hf; [by apply IH|by left|by rewrite Hf].
  - exfalso. apply Hres. by apply addAncestors_foldl_stuck.
Qed.

Lemma GetAncestorRealities_more_fuel (fuel extra : nat) (st : LedgerState)
    (reality : Reality) :
  GetAncestorRealities fuel st reality ≠ OutOfFuel →
  GetAncestorRealities (fuel + extra) st reality
  = GetAncestorRealities fuel st reality.
Proof.
  revert reality. induction fuel as [|fuel IH]; intros reality; [done|].
  cbn [Nat.add GetAncestorRealities].
  destruct (GetParentRealities st reality) as [ps| | |]; try done.
  apply addAncestors_foldl_more. intros entry _. apply IH.
Qed.

(** X17. The depth allowed to the recursion is no part of the result: when
    [GetAncestorRealities] or [DescendsFrom] comes to an end within some
    depth, by returning or by a panic, it does the same within every
    greater depth. *)
Theorem DescendsFrom_depth_irrelevant (fuel extra : nat) (st : LedgerState)
    (reality : Reality) (realityId : RealityId) :
  DescendsFrom fuel st reality realityId ≠ OutOfFuel →
  DescendsFrom (fuel + extra) st reality realityId
  = DescendsFrom fuel st reality realityId
  ∧ (id reality ≠ realityId →
     GetAncestorRealities (fuel + extra) st reality
     = GetAncestorRealities fuel st reality).
Proof.
  unfold DescendsFrom. destruct (decide (id reality = realityId)) as [Heq|Hne].
  - intros _. split; [done|]. intros H. by destruct H.
  - intros Hres.
    assert (Hanc : GetAncestorRealities fuel st reality ≠ OutOfFuel).
    { intros H. by rewrite H in Hres. }
    rewrite (GetAncestorRealities_more_fuel fuel extra st reality Hanc). done.
Qed.

Lemma DescendsFrom_depth_irrelevant_witness :
  DescendsFrom (2 + 5) doubleSpendLedger (exampleReality doubleSpendLedger 11%N)
    MAIN_REALITY_ID
  = DescendsFrom 2 doubleSpendLedger (exampleReality doubleSpendLedger 11%N)
      MAIN_REALITY_ID
  ∧ (id (exampleReality doubleSpendLedger 11%N) ≠ MAIN_REALITY_ID →
     GetAncestorRealities (2 + 5) doubleSpendLedger
       (exampleReality doubleSpendLedger 11%N)
     = GetAncestorRealities 2 doubleSpendLedger
         (exampleReality doubleSpendLedger 11%N)).
Proof.
  apply (DescendsFrom_depth_irrelevant 2 5 doubleSpendLedger
           (exampleReality doubleSpendLedger 11%N) MAIN_REALITY_ID).
  vm_compute. discriminate.
Defined.

(** * The bookings index and the store *)

Lemma bookings_consistent_iff (st : LedgerState) :
  bookings_consistent st
  ↔ ∀ booking, booking ∈ transferOutputBookings st
               ↔ ∃ key x, transferOutputs st !! key = Some x ∧ bookingOf x = booking.
Proof.
  unfold bookings_consistent.
  assert (Hin : ∀ booking,
            booking ∈ (list_to_set
                         (map (fun entry : TransferOutputReference * TransferOutput =>
                                 bookingOf (snd entry))
                            (map_to_list (transferOutputs st)))
                       : gset TransferOutputBooking)
            ↔ ∃ key x, transferOutputs st !! key = Some x ∧ bookingOf x = booking).
  { intros booking. rewrite elem_of_list_to_set. split.
    - intros ([key x] & -> & Hin)%list_elem_of_fmap.
      apply elem_of_map_to_list in Hin. by exists key, x.
    - intros (key & x & Hx & <-). apply list_elem_of_fmap.
      exists (key, x). split; [done|]. by apply elem_of_map_to_list. }
  split.
  - intros H booking. by rewrite H.
  - intros H. apply set_eq. intros booking. by rewrite H, Hin.
Qed.

Lemma bookingOf_storageKey (x x' : TransferOutput) :
  bookingOf x = bookingOf x' → storageKey x = storageKey x'.
Proof. unfold bookingOf, newTransferOutputBooking, storageKey. congruence. Qed.

Section Bookings.

Variable emptyRealityId : RealityId.

(** X18. [bookTransferOutput] keeps the bookings index in step with the store.
    If every output is stored under its own key and the index holds the
    entry of every stored output and no other, then so it is after booking
    an output that is new (not stored yet, into a reality other than the
    sentinel) or that is the stored output of a stored reality. *)
Theorem bookTransferOutput_bookings_consistent (reality : RealityId)
    (x : TransferOutput) (st : LedgerState) :
  outputs_keyed st →
  bookings_consistent st →
  (realityId x = emptyRealityId ∧ reality ≠ emptyRealityId
   ∧ transferOutputs st !! storageKey x = None)
  ∨ (realityId x ≠ emptyRealityId
     ∧ transferOutputs st !! storageKey x = Some x
     ∧ is_Some (realities st !! realityId x)) →
  ∃ st', bookTransferOutput emptyRealityId reality x st = (Ok tt, st')
         ∧ outputs_keyed st'
         ∧ bookings_consistent st'.
Proof.
  intros Hkeyed Hconsistent
    [(Hempty & Hreality & Hfresh)|(Hempty & Hstored & [old Hold])];
    pose proof (proj1 (bookings_consistent_iff st) Hconsistent) as Hbookings.
  - eexists. split; [by apply bookTransferOutput_fresh|].
    split.
    { unfold outputs_keyed. cbn [transferOutputs].
      apply map_Forall_insert_2; [done|exact Hkeyed]. }
    apply bookings_consistent_iff. intros booking.
    cbn [transferOutputs transferOutputBookings].
    rewrite elem_of_union, elem_of_singleton, Hbookings. split.
    + intros [->|(key & x' & Hx' & <-)].
      * exists (storageKey x), (SetRealityId reality x).
        split; [apply lookup_insert_eq|done].
      * exists key, x'. split; [|done]. rewrite lookup_insert_ne; [done|].
        intros <-. congruence.
    + intros (key & x' & Hx' & <-).
      destruct (decide (storageKey x = key)) as [<-|Hne].
      * rewrite lookup_insert_eq in Hx'. injection Hx' as <-. by left.
      * rewrite lookup_insert_ne in Hx' by done. right. by exists key, x'.
  - destruct (decide (realityId x = reality)) as [Hsame|Hne].
    { exists st. split; [|done].
      unfold bookTransferOutput. unfold_M.
      rewrite (decide_False (P := realityId x = emptyRealityId)) by done.
      rewrite !(decide_False (P := realityId x ≠ reality)) by (intros H; by apply H).
      reflexivity. }
    eexists. split; [by apply bookTransferOutput_move|].
    cbn [transferOutputs transferOutputBookings].
    rewrite (alter_present _ _ x) by done.
    split.
    { unfold outputs_keyed. cbn [transferOutputs].
      apply map_Forall_insert_2; [done|exact Hkeyed]. }
    apply bookings_consistent_iff. intros booking.
    cbn [transferOutputs transferOutputBookings].
    rewrite elem_of_union, elem_of_singleton, elem_of_difference, elem_of_singleton.
    rewrite Hbookings. fold (bookingOf x). split.
    + intros [->|[(key & x' & Hx' & <-) Hold']].
      * exists (storageKey x), (SetRealityId reality x).
        split; [apply lookup_insert_eq|done].
      * exists key, x'. split; [|done]. rewrite lookup_insert_ne; [done|].
        intros <-. apply Hold'. congruence.
    + intros (key & x' & Hx' & <-).
      destruct (decide (storageKey x = key)) as [<-|Hne'].
      * rewrite lookup_insert_eq in Hx'. injection Hx' as <-. by left.
      * rewrite lookup_insert_ne in Hx' by done. right. split; [by exists key, x'|].
        intros Heq%bookingOf_storageKey. apply Hne'.
        rewrite <- Heq. by apply (Hkeyed key x').
Qed.

End Bookings.

Lemma bookTransferOutput_bookings_consistent_witness :
  ∃ st', bookTransferOutput EMPTY_REALITY_ID 11%N loneOutput loneLedger = (Ok tt, st')
         ∧ outputs_keyed st'
         ∧ bookings_consistent st'.
Proof.
  apply (bookTransferOutput_bookings_consistent EMPTY_REALITY_ID 11%N loneOutput
           loneLedger).
  - unfold outputs_keyed. apply (bool_decide_unpack _). vm_compute. exact I.
  - vm_compute. reflexivity.
  - right. split; [discriminate|]. split; [vm_compute; reflexivity|].
    vm_compute. by eexists.
Defined.

(** * A transfer that fails after verification *)

Section NoRollback.

Variable emptyRealityId : RealityId.
Variable NewConflictSetId : TransferHash → AddressHash → ConflictId.
Variable aggregatedRealityId : gset RealityId → RealityId.
Variable addConsumer :
  TransferOutput → TransferHash → list (AddressHash * list ColoredBalance) →
  TransferOutput * option (list (TransferHash * list AddressHash)).

(** X19. Nothing is rolled back.  When the transfer has passed verification and
    the elevation of the earlier consumers of its first input ends with an
    error, [bookTransfer] returns that error and leaves the ledger as the
    elevation left it: the conflict set of the input is stored and lists
    the reality of every earlier consumer. *)
Theorem bookTransfer_error_not_rolled_back (fuel : nat) (reality : Reality)
    (h : TransferHash) (input : TransferOutputReference)
    (rest : list TransferOutputReference)
    (outputs : list (AddressHash * list ColoredBalance))
    (st st1 : LedgerState) (x consumed : TransferOutput)
    (consumersToElevate : list (TransferHash * list AddressHash)) (e : Error) :
  let conflictSetId :=
    NewConflictSetId (transferHash consumed) (addressHash consumed) in
  verifyTransfer fuel st reality (input :: rest) outputs = Ok tt →
  transferOutputs st !! input = Some x →
  addConsumer x h outputs = (consumed, Some consumersToElevate) →
  consumersToElevate ≠ [] →
  createRealityForConflictingConsumers
    (elevateTransferOutput emptyRealityId aggregatedRealityId fuel) (id reality)
    consumersToElevate conflictSetId None
    (set_conflictSets (insert conflictSetId (newConflictSet conflictSetId))
       (set_transferOutputs (insert input consumed) st))
  = (Ok (Some e), st1) →
  bookTransfer emptyRealityId NewConflictSetId aggregatedRealityId addConsumer fuel
    reality h (input :: rest) outputs st = (Err e, st1)
  ∧ ∃ c, conflictSets st1 !! conflictSetId = Some c
         ∧ ∀ consumer, consumer ∈ consumersToElevate →
             ToRealityId (fst consumer) ∈ conflict_realities c.
Proof.
  intros conflictSetId Hverify Hx Hadd Hsome Hcreate. split.
  - unfold bookTransfer. rewrite Hverify. unfold bind at 1.
    cbn [consumeInputs]. unfold GetTransferOutput. rewrite Hx, Hadd.
    unfold bind at 1. unfold retrieveConflictSetForConflictingInput.
    fold conflictSetId.
    rewrite bool_decide_eq_true_2
      by (destruct consumersToElevate; [done|simpl; lia]).
    unfold bind at 1. unfold modify at 1. unfold bind at 1.
    by rewrite Hcreate.
  - destruct (createRealityForConflictingConsumers_registers NewConflictSetId
                (elevateTransferOutput emptyRealityId aggregatedRealityId fuel)
                (id reality) consumersToElevate conflictSetId None _ st1 (Some e)
                (newConflictSet conflictSetId)
                (elevateTransferOutput_same_conflicts emptyRealityId
                   aggregatedRealityId fuel) Hcreate)
      as (c & Hc & _ & _ & Hall).
    { simpl. apply lookup_insert_eq. }
    by exists c.
Qed.

End NoRollback.

Lemma bookTransfer_error_not_rolled_back_witness :
  bookTransfer EMPTY_REALITY_ID exampleConflictSetId exampleAggregatedRealityId
    exampleAddConsumer 8 (mkReality MAIN_REALITY_ID ∅ ∅ 1) 12%N
    ((10%N, 1%N) :: []) [(3%N, [mkColoredBalance iota 100])] orphanedLedger
  = (Err ErrElevate,
     snd (exampleBookTransfer MAIN_REALITY_ID 12%N [(10%N, 1%N)]
            [(3%N, [mkColoredBalance iota 100])] orphanedLedger))
  ∧ ∃ c, conflictSets
           (snd (exampleBookTransfer MAIN_REALITY_ID 12%N [(10%N, 1%N)]
                   [(3%N, [mkColoredBalance iota 100])] orphanedLedger))
           !! exampleConflictSetId
                (transferHash
                   (fst (exampleAddConsumer
                           (mkTransferOutput 10%N 1%N MAIN_REALITY_ID
                              [mkColoredBalance iota 100] [(99%N, [1%N])])
                           12%N [(3%N, [mkColoredBalance iota 100])])))
                (addressHash
                   (fst (exampleAddConsumer
                           (mkTransferOutput 10%N 1%N MAIN_REALITY_ID
                              [mkColoredBalance iota 100] [(99%N, [1%N])])
                           12%N [(3%N, [mkColoredBalance iota 100])])))
         = Some c
         ∧ ∀ consumer, consumer ∈ [(99%N, [1%N])] →
             ToRealityId (fst consumer) ∈ conflict_realities c.
Proof.
  apply (bookTransfer_error_not_rolled_back EMPTY_REALITY_ID exampleConflictSetId
           exampleAggregatedRealityId exampleAddConsumer 8
           (mkReality MAIN_REALITY_ID ∅ ∅ 1) 12%N (10%N, 1%N) []
           [(3%N, [mkColoredBalance iota 100])] orphanedLedger _
           (mkTransferOutput 10%N 1%N MAIN_REALITY_ID [mkColoredBalance iota 100]
              [(99%N, [1%N])])
           (fst (exampleAddConsumer
                   (mkTransferOutput 10%N 1%N MAIN_REALITY_ID
                      [mkColoredBalance iota 100] [(99%N, [1%N])])
                   12%N [(3%N, [mkColoredBalance iota 100])]))
           [(99%N, [1%N])] ErrElevate).
  - vm_compute. reflexivity.
  - vm_compute. reflexivity.
  - reflexivity.
  - discriminate.
  - vm_compute. reflexivity.
Defined.

(** * A double spend *)

Lemma elevateAddresses_forEach
    (elevate : RealityId → TransferOutputReference → RealityId → M unit)
    (reality : RealityId) (h : TransferHash) (addressHashes : list AddressHash)
    (elevatedReality : RealityId) (st st' : LedgerState) :
  forEach (fun ref => elevate reality ref elevatedReality)
    (map (NewTransferOutputReference h) addressHashes) st = (Ok tt, st') →
  elevateAddresses elevate reality h addressHashes elevatedReality None st
  = (Ok None, st').
Proof.
  revert st. induction addressHashes as [|a l IH]; intros st.
  - by intros [= <-].
  - cbn [map forEach elevateAddresses]. unfold bind.
    destruct (elevate reality (NewTransferOutputReference h a) elevatedReality st)
      as [[[]|e| |] st1]; try done.
    apply IH.
Qed.

Section DoubleSpend.

Variable emptyRealityId : RealityId.
Variable NewConflictSetId : TransferHash → AddressHash → ConflictId.
Variable aggregatedRealityId : gset RealityId → RealityId.
Variable addConsumer :
  TransferOutput → TransferHash → list (AddressHash * list ColoredBalance) →
  TransferOutput * option (list (TransferHash * list AddressHash)).

(** X20. A second spend of an output splits the ledger.  The input has been
    spent before by one transfer, whose outputs are unspent outputs of the
    booking reality.  [bookTransfer] then gives each of the two transfers a
    reality of its own under the booking reality: the conflict set of the
    input lists exactly these two realities and each of them lists the
    conflict set; the outputs of the earlier transfer have moved into its
    reality, and the outputs of the new transfer are booked into the
    other, which counts exactly them. *)
Theorem bookTransfer_double_spend (fuel : nat) (reality : Reality)
    (h1 h2 : TransferHash) (addressHashes : list AddressHash)
    (input : TransferOutputReference)
    (outputs : list (AddressHash * list ColoredBalance))
    (st : LedgerState) (x consumed : TransferOutput) (r : Reality) :
  let conflictSetId :=
    NewConflictSetId (transferHash consumed) (addressHash consumed) in
  verifyTransfer (S fuel) st reality [input] outputs = Ok tt →
  transferOutputs st !! input = Some x →
  addConsumer x h2 outputs = (consumed, Some [(h1, addressHashes)]) →
  NoDup addressHashes →
  (∀ a, a ∈ addressHashes →
     (h1, a) ≠ input
     ∧ ∃ y, transferOutputs st !! (h1, a) = Some y ∧ storageKey y = (h1, a)
            ∧ realityId y = id reality ∧ consumers y = []) →
  realities st !! id reality = Some r →
  (Z.of_nat (length addressHashes) ≤ transferOutputCount r < 2 ^ 32)%Z →
  NoDup (map fst outputs) →
  id reality ≠ emptyRealityId →
  ToRealityId h1 ≠ id reality →
  ToRealityId h2 ≠ emptyRealityId →
  h1 ≠ h2 →
  ∃ st2 conflict elevated target,
    bookTransfer emptyRealityId NewConflictSetId aggregatedRealityId addConsumer
      (S fuel) reality h2 [input] outputs st = (Ok tt, st2)
    ∧ conflictSets st2 !! conflictSetId = Some conflict
    ∧ conflict_realities conflict = {[ToRealityId h1; ToRealityId h2]}
    ∧ realities st2 !! ToRealityId h1 = Some elevated
    ∧ parentRealityIds elevated = {[id reality]}
    ∧ conflictIds elevated = {[conflictSetId]}
    ∧ realities st2 !! ToRealityId h2 = Some target
    ∧ parentRealityIds target = {[id reality]}
    ∧ conflictIds target = {[conflictSetId]}
    ∧ transferOutputCount target = wrap32 (Z.of_nat (length outputs))
    ∧ (∀ a, a ∈ addressHashes →
         realityId <$> transferOutputs st2 !! (h1, a) = Some (ToRealityId h1))
    ∧ (∀ output, output ∈ outputs →
         transferOutputs st2 !! (h2, fst output)
         = Some (NewTransferOutput (ToRealityId h2) h2 (fst output) (snd output))).
Proof.
  intros conflictSetId Hverify Hx Hadd Hnodup Hall Hr Hrange Houtputs
    Hempty Hne1 Hempty2 Hne12.
  set (stIn := set_conflictSets (insert conflictSetId (newConflictSet conflictSetId))
                 (set_transferOutputs (insert input consumed) st)).
  set (stA := registerElevatedReality (id reality) h1 conflictSetId stIn).
  (* the consumer's outputs move into its reality *)
  destruct (elevateTransferOutput_unspent_loop emptyRealityId aggregatedRealityId
              fuel (id reality) (ToRealityId h1)
              (map (NewTransferOutputReference h1) addressHashes) stA)
    as (stB & Hloop & Hmoved & Hkept & _ & Hnew & _); [congruence|done| | | |].
  { apply NoDup_fmap_2; [|done]. intros a a' [= ->]. done. }
  { intros ref (a & -> & Hin)%list_elem_of_fmap.
    destruct (Hall a Hin) as (Hin' & y & Hy & Hrest).
    exists y. split; [|done]. unfold stA, stIn. simpl.
    by rewrite lookup_insert_ne. }
  { intros _. exists r. split.
    - unfold stA, stIn, registerElevatedReality. simpl.
      by rewrite lookup_alter_ne, lookup_insert_ne.
    - by rewrite length_map. }
  destruct (Hnew (AddConflictSet conflictSetId
                    (newReality (ToRealityId h1) {[id reality]})))
    as (elevated & Helevated & _ & Hparents1 & Hcids1).
  { unfold stA, registerElevatedReality. simpl.
    by rewrite lookup_alter_eq, lookup_insert_eq. }
  assert (HcsB : conflictSets stB = conflictSets stA).
  { revert Hloop. apply (preserves_forEach same_conflicts). intros ref.
    apply elevateTransferOutput_same_conflicts. }
  assert (Hconsume : consumeInputs NewConflictSetId addConsumer
                       (elevateTransferOutput emptyRealityId aggregatedRealityId
                          (S fuel))
                       (id reality) [input] h2 outputs [] st
                     = (Ok [conflictSetId], stB)).
  { cbn [consumeInputs]. unfold GetTransferOutput. rewrite Hx, Hadd.
    unfold bind at 1. unfold retrieveConflictSetForConflictingInput.
    fold conflictSetId. rewrite bool_decide_eq_true_2 by (simpl; lia).
    unfold bind at 1. unfold modify at 1. unfold bind at 1.
    fold stIn. rewrite createRealityForConflictingConsumers_cons. fold stA.
    unfold bind at 1.
    rewrite (elevateAddresses_forEach _ _ _ _ _ _ stB) by exact Hloop.
    reflexivity. }
  (* the reality of the new transfer *)
  set (stC := set_realities
                (insert (ToRealityId h2) (newReality (ToRealityId h2) {[id reality]}))
                stB).
  assert (HcB : conflictSets stB !! conflictSetId
                = Some (AddReality (ToRealityId h1) (newConflictSet conflictSetId))).
  { rewrite HcsB. unfold stA, stIn, registerElevatedReality. simpl.
    by rewrite lookup_alter_eq, lookup_insert_eq. }
  set (stD := set_realities
                (alter (AddConflictSet conflictSetId) (ToRealityId h2))
                (set_conflictSets (alter (AddReality (ToRealityId h2)) conflictSetId)
                   stC)).
  assert (Hregister : forEach (registerConflictSet (ToRealityId h2)) [conflictSetId] stC
                      = (Ok tt, stD)).
  { cbn [forEach]. unfold bind, registerConflictSet.
    replace (conflictSets stC !! conflictSetId)
      with (Some (AddReality (ToRealityId h1) (newConflictSet conflictSetId)))
      by (symmetry; exact HcB).
    reflexivity. }
  destruct (bookOutputs_state emptyRealityId (ToRealityId h2) h2 outputs stD
              (AddConflictSet conflictSetId
                 (newReality (ToRealityId h2) {[id reality]})) Hempty2 Houtputs)
    as (st2 & Hbook & Hrs2 & Hcs2 & _ & Hnew2 & Hold2).
  { unfold stD, stC. simpl. by rewrite lookup_alter_eq, lookup_insert_eq. }
  { simpl. lia. }
  exists st2. eexists. exists elevated. eexists.
  split.
  { unfold bookTransfer. rewrite Hverify. unfold bind at 1. rewrite Hconsume.
    rewrite bool_decide_eq_true_2 by (simpl; lia).
    unfold bind at 1. unfold CreateReality at 1. fold stC.
    unfold bind at 1. rewrite Hregister. exact Hbook. }
  split.
  { rewrite Hcs2. unfold stD, stC. simpl. rewrite lookup_alter_eq, HcB. done. }
  split; [simpl; set_solver|].
  split.
  { rewrite Hrs2, lookup_insert_ne by (unfold ToRealityId; congruence).
    unfold stD, stC. simpl.
    rewrite lookup_alter_ne, lookup_insert_ne by (unfold ToRealityId; congruence).
    exact Helevated. }
  split; [by rewrite Hparents1|]. split; [rewrite Hcids1; simpl; set_solver|].
  split; [rewrite Hrs2; apply lookup_insert_eq|].
  split; [done|]. split; [simpl; set_solver|]. split; [done|].
  split; [|exact Hnew2].
  intros a Hin. rewrite Hold2.
  - unfold stD, stC. simpl. apply Hmoved.
    apply list_elem_of_fmap. by exists a.
  - intros output _ [= Heq _]. by apply Hne12.
Qed.

End DoubleSpend.

Lemma bookTransfer_double_spend_witness :
  ∃ st2 conflict elevated target,
    bookTransfer EMPTY_REALITY_ID exampleConflictSetId exampleAggregatedRealityId
      exampleAddConsumer 8 (mkReality MAIN_REALITY_ID ∅ ∅ 2) 12%N [(10%N, 1%N)]
      [(3%N, [mkColoredBalance iota 100])] spentLedger = (Ok tt, st2)
    ∧ conflictSets st2
        !! exampleConflictSetId
             (transferHash
                (fst (exampleAddConsumer
                        (mkTransferOutput 10%N 1%N MAIN_REALITY_ID
                           [mkColoredBalance iota 100] [(11%N, [2%N])])
                        12%N [(3%N, [mkColoredBalance iota 100])])))
             (addressHash
                (fst (exampleAddConsumer
                        (mkTransferOutput 10%N 1%N MAIN_REALITY_ID
                           [mkColoredBalance iota 100] [(11%N, [2%N])])
                        12%N [(3%N, [mkColoredBalance iota 100])])))
      = Some conflict
    ∧ conflict_realities conflict = {[ToRealityId 11%N; ToRealityId 12%N]}
    ∧ realities st2 !! ToRealityId 11%N = Some elevated
    ∧ parentRealityIds elevated = {[id (mkReality MAIN_REALITY_ID ∅ ∅ 2)]}
    ∧ conflictIds elevated
      = {[exampleConflictSetId
            (transferHash
               (fst (exampleAddConsumer
                       (mkTransferOutput 10%N 1%N MAIN_REALITY_ID
                          [mkColoredBalance iota 100] [(11%N, [2%N])])
                       12%N [(3%N, [mkColoredBalance iota 100])])))
            (addressHash
               (fst (exampleAddConsumer
                       (mkTransferOutput 10%N 1%N MAIN_REALITY_ID
                          [mkColoredBalance iota 100] [(11%N, [2%N])])
                       12%N [(3%N, [mkColoredBalance iota 100])])))]}
    ∧ realities st2 !! ToRealityId 12%N = Some target
    ∧ parentRealityIds target = {[id (mkReality MAIN_REALITY_ID ∅ ∅ 2)]}
    ∧ conflictIds target
      = {[exampleConflictSetId
            (transferHash
               (fst (exampleAddConsumer
                       (mkTransferOutput 10%N 1%N MAIN_REALITY_ID
                          [mkColoredBalance iota 100] [(11%N, [2%N])])
                       12%N [(3%N, [mkColoredBalance iota 100])])))
            (addressHash
               (fst (exampleAddConsumer
                       (mkTransferOutput 10%N 1%N MAIN_REALITY_ID
                          [mkColoredBalance iota 100] [(11%N, [2%N])])
                       12%N [(3%N, [mkColoredBalance iota 100])])))]}
    ∧ transferOutputCount target
      = wrap32 (Z.of_nat (length [(3%N, [mkColoredBalance iota 100])]))
    ∧ (∀ a, a ∈ [2%N] →
         realityId <$> transferOutputs st2 !! (11%N, a) = Some (ToRealityId 11%N))
    ∧ (∀ output, output ∈ [(3%N, [mkColoredBalance iota 100])] →
         transferOutputs st2 !! (12%N, fst output)
         = Some (NewTransferOutput (ToRealityId 12%N) 12%N (fst output) (snd output))).
Proof.
  apply (bookTransfer_double_spend EMPTY_REALITY_ID exampleConflictSetId
           exampleAggregatedRealityId exampleAddConsumer 7
           (mkReality MAIN_REALITY_ID ∅ ∅ 2) 11%N 12%N [2%N] (10%N, 1%N)
           [(3%N, [mkColoredBalance iota 100])] spentLedger
           (mkTransferOutput 10%N 1%N MAIN_REALITY_ID [mkColoredBalance iota 100]
              [(11%N, [2%N])])
           (fst (exampleAddConsumer
                   (mkTransferOutput 10%N 1%N MAIN_REALITY_ID
                      [mkColoredBalance iota 100] [(11%N, [2%N])])
                   12%N [(3%N, [mkColoredBalance iota 100])]))
           (mkReality MAIN_REALITY_ID ∅ ∅ 2)).
  - vm_compute. reflexivity.
  - vm_compute. reflexivity.
  - reflexivity.
  - apply NoDup_singleton.
  - intros a Hin. apply list_elem_of_singleton in Hin as ->.
    split; [discriminate|]. eexists. split; [vm_compute; reflexivity|].
    repeat split.
  - vm_compute. reflexivity.
  - simpl. lia.
  - apply NoDup_singleton.
  - discriminate.
  - discriminate.
  - discriminate.
  - discriminate.
Defined.

(** * The first detection of a conflict *)


Section ConflictCreation.

Variable emptyRealityId : RealityId.
Variable aggregatedRealityId : gset RealityId → RealityId.
Variable NewConflictSetId : TransferHash → AddressHash → ConflictId.



End ConflictCreation.

